(** * sacred/dependencies.py: source and dependency discovery

    A shallow embedding of [src/sacred/dependencies.py].  Python strings are
    held as byte strings ([string]): a path as its bytes, a text as its UTF-8
    encoding, which the regular expression reads code point by code point.
    Dictionaries and module objects are finite maps,
    Python sets are insertion lists driven by the element's [__hash__] and
    [__eq__], exceptions are an explicit error result, and everything the
    module asks of the interpreter or the operating system (current
    directory, file contents, [sys.modules], string hashing, ...) is read
    from a [Runtime] record. *)

From Stdlib Require Import ZArith List String Ascii Bool Lia DecimalString.
From stdpp Require Import gmap strings list.

Open Scope string_scope.
Open Scope Z_scope.

(** ** Exceptions *)

Inductive exn : Type :=
  | ValueError (msg : string)
  | TypeError
  | AttributeError
  | AssertionError
  | IOError
  | KeyError (key : string).

Inductive result (A : Type) : Type :=
  | Ok (a : A)
  | Raise (e : exn).
Arguments Ok {A} a.
Arguments Raise {A} e.

#[global] Instance result_ret : MRet result := fun A a => Ok a.
#[global] Instance result_bind : MBind result := fun A B f m =>
  match m with
  | Ok a => f a
  | Raise e => Raise e
  end.

(** ** Python [str] methods used by the module *)

Module Str.

Fixpoint take (n : nat) (s : string) : string :=
  match n, s with
  | S n', String a r => String a (take n' r)
  | _, _ => ""
  end.

Fixpoint drop (n : nat) (s : string) : string :=
  match n, s with
  | S n', String _ r => drop n' r
  | _, _ => s
  end.

(** [s[:i]] and [s[i:]] for a non-negative index [i]. *)
Definition upto (i : Z) (s : string) : string := take (Z.to_nat i) s.
Definition from (i : Z) (s : string) : string := drop (Z.to_nat i) s.

(** [s.rfind(c)] for a one-character [c]: the last index of [c], or -1. *)
Fixpoint rfind (c : ascii) (s : string) : Z :=
  match s with
  | "" => -1
  | String a r =>
      let i := rfind c r in
      if 0 <=? i then i + 1
      else if Ascii.eqb a c then 0 else -1
  end.

(** [s.rstrip(c)]. *)
Fixpoint rstrip (c : ascii) (s : string) : string :=
  match s with
  | "" => ""
  | String a r =>
      match rstrip c r with
      | "" => if Ascii.eqb a c then "" else String a ""
      | r' => String a r'
      end
  end.

(** [c * n]. *)
Fixpoint repeat (c : ascii) (n : nat) : string :=
  match n with
  | O => ""
  | S n' => String c (repeat c n')
  end.

(** [s.split(c)]. *)
Fixpoint split (c : ascii) (s : string) : list string :=
  match s with
  | "" => [""]
  | String a r =>
      if Ascii.eqb a c then "" :: split c r
      else match split c r with
           | h :: t => String a h :: t
           | [] => [String a ""]
           end
  end.

(** [sep.join(l)]. *)
Fixpoint join (sep : string) (l : list string) : string :=
  match l with
  | [] => ""
  | [x] => x
  | x :: l' => x +:+ sep +:+ join sep l'
  end.

Definition startswith (s pre : string) : bool := String.prefix pre s.

Definition endswith (s suf : string) : bool :=
  (String.length suf <=? String.length s)%nat
  && String.eqb (drop (String.length s - String.length suf) s) suf.

(** [c in s]. *)
Fixpoint contains (c : ascii) (s : string) : bool :=
  match s with
  | "" => false
  | String a r => Ascii.eqb a c || contains c r
  end.

(** [sub in s]. *)
Fixpoint has_substring (sub s : string) : bool :=
  String.prefix sub s
  || match s with
     | "" => false
     | String _ r => has_substring sub r
     end.

(** Truthiness of a string. *)
Definition nonempty (s : string) : bool := negb (String.eqb s "").

End Str.

(** ** The interpreter and operating system, as far as the module sees them *)

(** Values a module attribute can hold, as far as the version heuristic
    distinguishes them.  A tuple element carries what [str()] makes of it:
    an integer is rendered in decimal, a string is itself, anything else is
    represented by its rendering. *)
Inductive TupleItem : Type :=
  | IInt (n : Z)
  | IStr (s : string)
  | IOther (rendering : string).

Inductive AttrVal : Type :=
  | ANone
  | AStr (s : string)
  | ATuple (items : list TupleItem)
  | AOther.

(** A module object.  The import system keeps [__name__] as a string; a
    module may lack it ([None]: no such attribute).  [__file__] may be
    missing too ([None]), and where it is present it is a string or, as for
    a namespace package, not a string at all ([Some None]: the attribute
    holds [None]).  All other attributes live in the dictionary [attrs]. *)
Record PyModule : Type := mkModule {
  mod_name : option string;           (* [mod.__name__] *)
  mod_file : option (option string);  (* [mod.__file__] *)
  attrs : gmap string AttrVal
}.

(** What [git.Repo(directory, search_parent_directories=True)] exposes. *)
Record Repo : Type := mkRepo {
  remote_url : option string;     (* [repo.remote().url]; [None]: ValueError *)
  working_dir : string;
  repo_is_dirty : bool;
  head_commit : string
}.

(** A value bound in a namespace, as far as [iterate_imported_modules]
    tells values apart: a module, or any other value with its [__module__]
    attribute when it has one ([Some None]: the attribute is [None]). *)
Inductive GlobVal : Type :=
  | GModule (m : PyModule)
  | GObject (dunder_module : option (option string)).

(** A namespace [globs]: the dictionary of a module's globals.  Python binds
    [__file__], when it binds it at all, to a string. *)
Record Namespace : Type := mkNamespace {
  ns_file : option string;       (* [globs.get('__file__')] *)
  ns_values : list GlobVal       (* [globs.values()] *)
}.

Record Runtime : Type := mkRuntime {
  getcwd : string;                                   (* [os.getcwd()] *)
  path_exists : string -> bool;                      (* [os.path.exists] *)
  file_bytes : string -> option (list Byte.byte);    (* what [open(p,'rb')] reads;
                                                        [None]: IOError *)
  os_walk : string -> list (string * list string * list string);
  py_hash : option string -> Z;                      (* [hash] of a string or of [None] *)
  sys_modules : gmap string (option PyModule);       (* [sys.modules] *)
  builtin_module_names : list string;                (* [sys.builtin_module_names] *)
  has_gitpython : bool;                              (* [opt.has_gitpython] *)
  git_repo : string -> option Repo;                  (* [None]: InvalidGitRepositoryError *)
  has_numpy : bool;                                  (* [opt.has_numpy] *)
  np : PyModule;                                     (* [opt.np] *)
  working_set : list (string * string);              (* [pkg_resources.working_set]:
                                                        key and version of each distribution *)
  SETTINGS : gmap string string;                     (* [sacred.SETTINGS] *)
  unicode_decimal : N -> bool                        (* above U+007F, what [\d] of a
                                                        text pattern matches: on
                                                        Python 3 the decimal digits
                                                        (category Nd) of the Unicode
                                                        database, by code point *)
}.

(** ** [os.path] (posixpath) *)

Module PosixPath.

Definition sep : ascii := "/"%char.
Definition extsep : ascii := "."%char.

Definition isabs (s : string) : bool := Str.startswith s "/".

(** [os.path.join(a, b)] *)
Definition join2 (path b : string) : string :=
  if Str.startswith b "/" then b
  else if negb (Str.nonempty path) || Str.endswith path "/" then path +:+ b
  else path +:+ "/" +:+ b.

(** [os.path.join(a, *p)] *)
Definition join (a : string) (p : list string) : string :=
  fold_left join2 p a.

(** [os.path.split(p)] *)
Definition split (p : string) : string * string :=
  let i := Str.rfind sep p + 1 in
  let head := Str.upto i p in
  let tail := Str.from i p in
  let head :=
    if Str.nonempty head
       && negb (String.eqb head (Str.repeat sep (String.length head)))
    then Str.rstrip sep head else head in
  (head, tail).

(** [os.path.dirname(p)] *)
Definition dirname (p : string) : string := fst (split p).

(** The loop of [genericpath._splitext] that skips leading dots:
    [fuel] bounds the distance from [filenameIndex] to [dotIndex]. *)
Fixpoint splitext_scan (fuel : nat) (p : string) (filenameIndex dotIndex : Z)
  : string * string :=
  match fuel with
  | O => (p, "")
  | S fuel' =>
      if filenameIndex <? dotIndex then
        if negb (String.eqb (Str.take 1 (Str.from filenameIndex p)) ".")
        then (Str.upto dotIndex p, Str.from dotIndex p)
        else splitext_scan fuel' p (filenameIndex + 1) dotIndex
      else (p, "")
  end.

(** [os.path.splitext(p)] *)
Definition splitext (p : string) : string * string :=
  let sepIndex := Str.rfind sep p in
  let dotIndex := Str.rfind extsep p in
  if sepIndex <? dotIndex
  then splitext_scan (S (String.length p)) p (sepIndex + 1) dotIndex
  else (p, "").

(** The loop body of [os.path.normpath]. *)
Definition normpath_step (initial_slashes : Z) (new_comps : list string)
    (comp : string) : list string :=
  if String.eqb comp "" || String.eqb comp "." then new_comps
  else if negb (String.eqb comp "..")
          || ((initial_slashes =? 0) && bool_decide (new_comps = []))
          || match last new_comps with
             | Some l => String.eqb l ".."
             | None => false
             end
  then new_comps ++ [comp]
  else removelast new_comps.

(** [os.path.normpath(path)] *)
Definition normpath (path : string) : string :=
  if negb (Str.nonempty path) then "."
  else
    let initial_slashes :=
      if Str.startswith path "/" then
        if Str.startswith path "//" && negb (Str.startswith path "///")
        then 2 else 1
      else 0 in
    let comps := Str.split sep path in
    let comps := fold_left (normpath_step initial_slashes) comps [] in
    let path := Str.join "/" comps in
    let path := Str.repeat sep (Z.to_nat initial_slashes) +:+ path in
    if Str.nonempty path then path else ".".

(** [os.path.abspath(path)] *)
Definition abspath (rt : Runtime) (path : string) : string :=
  let path := if negb (isabs path) then join2 (getcwd rt) path else path in
  normpath path.

(** [len(os.path.commonprefix([l1, l2]))] on two lists of components. *)
Fixpoint commonprefix_len (l1 l2 : list string) : nat :=
  match l1, l2 with
  | a :: l1', b :: l2' =>
      if String.eqb a b then S (commonprefix_len l1' l2') else O
  | _, _ => O
  end.

(** [[x for x in abspath(p).split(sep) if x]] *)
Definition path_list (rt : Runtime) (p : string) : list string :=
  List.filter Str.nonempty (Str.split sep (abspath rt p)).

(** [os.path.relpath(path, start)] *)
Definition relpath (rt : Runtime) (path start : string) : result string :=
  if negb (Str.nonempty path) then Raise (ValueError "no path specified")
  else
    let start_list := path_list rt start in
    let path_list := path_list rt path in
    let i := commonprefix_len start_list path_list in
    let rel_list :=
      (List.repeat ".." (length start_list - i) ++ List.skipn i path_list)%list in
    match rel_list with
    | [] => Ok "."
    | a :: p => Ok (join a p)
    end.

End PosixPath.

(** ** Path to module-name conversion *)

(** Modelled from the spec: [is_subdir] of [sacred.utils], which is imported
    by the module but is not part of [src/].  The spec only says that it
    tells whether [filename] is underneath [basePath]: the components of the
    absolute base path are a prefix of those of the absolute file name. *)
Definition is_subdir (rt : Runtime) (path directory : string) : bool :=
  let d := PosixPath.path_list rt directory in
  let p := PosixPath.path_list rt path in
  bool_decide (List.firstn (length d) p = d).

(** The [while True] loop of [splitall]; every round either stops or
    continues with a strictly shorter [path], so [fuel] above the length of
    the path is never used up (lemma [splitall_loop_fuel]). *)
Fixpoint splitall_loop (fuel : nat) (path : string) (allparts : list string)
  : list string :=
  match fuel with
  | O => allparts
  | S fuel' =>
      let parts := PosixPath.split path in
      if String.eqb (fst parts) path then fst parts :: allparts
      else if String.eqb (snd parts) path then snd parts :: allparts
      else splitall_loop fuel' (fst parts) (snd parts :: allparts)
  end.

Definition splitall (path : string) : list string :=
  splitall_loop (S (String.length path)) path [].

Definition init_files : list string := ["__init__.py"; "__init__.pyc"].

(** [module_parts[-1]] is read through [last]; [splitall] never returns the
    empty list (lemma [splitall_nonempty]), so the [None] branch, Python's
    IndexError, is unreachable. *)
Definition convert_path_to_module_parts (path : string) : list string :=
  let module_parts := splitall path in
  match last module_parts with
  | None => module_parts
  | Some l =>
      if bool_decide (l ∈ init_files)
      then removelast module_parts
      else removelast module_parts ++ [fst (PosixPath.splitext l)]
  end.

(** [all([p == m for p, m in zip(reversed(a), reversed(b))])] *)
Definition all_zip_reversed (a b : list string) : bool :=
  forallb (fun pm => String.eqb (fst pm) (snd pm))
          (combine (rev a) (rev b)).

(** Two descriptions of the last tier of [is_local_source], used to state
    what [all_zip_reversed] decides: the last [k] elements of a list, and
    two lists agreeing on their last [k] elements where [k] is the length of
    the shorter one. *)
Definition lastn {A : Type} (k : nat) (l : list A) : list A :=
  drop (length l - k) l.

Definition trailing_agree (a b : list string) : Prop :=
  let k := Nat.min (length a) (length b) in
  lastn k a = lastn k b.

#[global] Instance trailing_agree_dec (a b : list string) :
  Decision (trailing_agree a b) :=
  decide (lastn (Nat.min (length a) (length b)) a
          = lastn (Nat.min (length a) (length b)) b).

Definition is_local_source (rt : Runtime) (filename modname experiment_path : string)
  : result bool :=
  if negb (is_subdir rt filename experiment_path) then Ok false
  else
    rel_path ← PosixPath.relpath rt filename experiment_path;
    let path_parts := convert_path_to_module_parts rel_path in
    let mod_parts := Str.split "." modname in
    if bool_decide (path_parts = mod_parts) then Ok true
    else if (length mod_parts <? length path_parts)%nat then Ok false
    else
      let abs_path_parts :=
        convert_path_to_module_parts (PosixPath.abspath rt filename) in
      Ok (all_zip_reversed abs_path_parts mod_parts).

(** ** Text and code points *)

(** A text string is held as its UTF-8 encoding, and [re] matches a text
    pattern against the code points of the subject.  [decode] reads the code
    points off the encoding; a byte that opens no well-formed sequence is
    kept as the lone surrogate (U+DC80 to U+DCFF) that the interpreter's
    [surrogateescape] handler stands it for. *)
Module Utf8.

Definition escape (b : ascii) : N := (56320 + N_of_ascii b)%N.

(** The payload of a continuation byte [10xxxxxx]. *)
Definition continuation (b : ascii) : option N :=
  let n := N_of_ascii b in
  if ((128 <=? n) && (n <? 192))%N then Some (n - 128)%N else None.

(** What a sequence whose shortest form starts at [least] may stand for: no
    overlong form, no surrogate, nothing above U+10FFFF. *)
Definition scalar (least cp : N) : bool :=
  ((least <=? cp) && (cp <=? 1114111)
   && negb ((55296 <=? cp) && (cp <=? 57343)))%N.

Fixpoint decode (s : string) : list N :=
  match s with
  | "" => []
  | String b r =>
      let n := N_of_ascii b in
      let malformed := escape b :: decode r in
      if (n <? 128)%N then n :: decode r
      else if (n <? 192)%N then malformed
      else if (n <? 224)%N then
        match r with
        | String b1 r1 =>
            match continuation b1 with
            | Some c1 =>
                let cp := ((n - 192) * 64 + c1)%N in
                if scalar 128 cp then cp :: decode r1 else malformed
            | None => malformed
            end
        | _ => malformed
        end
      else if (n <? 240)%N then
        match r with
        | String b1 (String b2 r2) =>
            match continuation b1, continuation b2 with
            | Some c1, Some c2 =>
                let cp := (((n - 224) * 64 + c1) * 64 + c2)%N in
                if scalar 2048 cp then cp :: decode r2 else malformed
            | _, _ => malformed
            end
        | _ => malformed
        end
      else if (n <? 248)%N then
        match r with
        | String b1 (String b2 (String b3 r3)) =>
            match continuation b1, continuation b2, continuation b3 with
            | Some c1, Some c2, Some c3 =>
                let cp := ((((n - 240) * 64 + c1) * 64 + c2) * 64 + c3)%N in
                if scalar 65536 cp then cp :: decode r3 else malformed
            | _, _, _ => malformed
            end
        | _ => malformed
        end
      else malformed
  end.

(** The code points of an ASCII literal. *)
Definition codes (s : string) : list N :=
  List.map N_of_ascii (list_ascii_of_string s).

End Utf8.

(** ** Regular expressions, as far as [PEP440_VERSION_PATTERN] needs them *)

Module Re.

Inductive re : Type :=
  | Bol                              (* [^] *)
  | Eol                              (* [$] *)
  | Chars (p : N -> bool)            (* one character of a class *)
  | Lit (l : list N)
  | Seq (r1 r2 : re)
  | Alt (r1 r2 : re)
  | Opt (r : re)                     (* [r?] *)
  | Star (p : N -> bool)             (* [[class]*] *)
  | Plus (p : N -> bool)             (* [[class]+] *)
  | LookBehind (p : N -> bool).      (* [(?<=[class])] *)

Definition newline : N := 10%N.

Definition one_of (s : string) (c : N) : bool :=
  existsb (N.eqb c) (Utf8.codes s).

(** The matcher carries the character just before the current position
    ([None] at the start of the string) and tries every way to continue:
    [k] is what remains to be matched. *)
Fixpoint star (p : N -> bool) (prev : option N) (s : list N)
    (k : option N -> list N -> bool) : bool :=
  match s with
  | c :: s' => (p c && star p (Some c) s' k) || k prev s
  | [] => k prev s
  end.

Fixpoint lit (l : list N) (prev : option N) (s : list N)
    (k : option N -> list N -> bool) : bool :=
  match l with
  | [] => k prev s
  | a :: l' =>
      match s with
      | c :: s' => N.eqb a c && lit l' (Some c) s' k
      | [] => false
      end
  end.

(** [$]: the end of the string, or just before a newline that ends it. *)
Definition at_end (s : list N) : bool :=
  match s with
  | [] => true
  | [c] => N.eqb c newline
  | _ => false
  end.

Fixpoint run (r : re) (prev : option N) (s : list N)
    (k : option N -> list N -> bool) : bool :=
  match r with
  | Bol => match prev with None => k prev s | Some _ => false end
  | Eol => at_end s && k prev s
  | Chars p =>
      match s with
      | c :: s' => p c && k (Some c) s'
      | [] => false
      end
  | Lit l => lit l prev s k
  | Seq r1 r2 => run r1 prev s (fun prev' s' => run r2 prev' s' k)
  | Alt r1 r2 => run r1 prev s k || run r2 prev s k
  | Opt r1 => run r1 prev s k || k prev s
  | Star p => star p prev s k
  | Plus p =>
      match s with
      | c :: s' => p c && star p (Some c) s' k
      | [] => false
      end
  | LookBehind p =>
      match prev with
      | Some c => p c && k prev s
      | None => false
      end
  end.

(** [pattern.match(s)]: a match anchored at the start of the text [s], as
    a boolean. *)
Definition matches (r : re) (s : list N) : bool :=
  run r None s (fun _ _ => true).

End Re.

Import Re.

(** [\d].  The pattern is a text pattern compiled with [re.VERBOSE] only,
    so [\d] is any decimal digit of the interpreter: [0] to [9] among the
    ASCII characters, and above them what [unicode_decimal] says. *)
Definition digit (rt : Runtime) (c : N) : bool :=
  if (c <? 128)%N then (48 <=? c)%N && (c <=? 57)%N
  else unicode_decimal rt c.

(** The pattern is compiled with [re.VERBOSE]: white space and comments in
    it are dropped. *)
Definition PEP440_VERSION_PATTERN (rt : Runtime) : re :=
  Seq Bol
  (Seq (Opt (Seq (Plus (digit rt)) (Lit (Utf8.codes "!"))))      (* epoch *)
  (Seq (Seq (Chars (digit rt))
       (Seq (Star (fun c => one_of "." c || digit rt c))
            (LookBehind (digit rt))))                            (* release *)
  (Seq (Opt (Seq (Alt (Chars (one_of "abc")) (Lit (Utf8.codes "rc")))
                 (Plus (digit rt))))                             (* pre-release *)
  (Seq (Opt (Seq (Lit (Utf8.codes ".post")) (Plus (digit rt))))  (* post-release *)
  (Seq (Opt (Seq (Lit (Utf8.codes ".dev")) (Plus (digit rt))))   (* development release *)
       Eol))))).

(** ** What the matcher decides *)

(** A position in the subject: the character just before it and the rest of
    the text.  [den r c c'] says that [r] can match from position [c] up to
    position [c']. *)
Definition position : Type := option N * list N.

Inductive star_den (p : N -> bool) : position -> position -> Prop :=
  | star_den_stop c : star_den p c c
  | star_den_more prev a s c' :
      p a = true -> star_den p (Some a, s) c' ->
      star_den p (prev, a :: s) c'.

Fixpoint lit_den (l : list N) (c c' : position) : Prop :=
  match l with
  | [] => c' = c
  | a :: l' => exists s, c.2 = a :: s /\ lit_den l' (Some a, s) c'
  end.

Definition chars_den (p : N -> bool) (c c' : position) : Prop :=
  exists a, c.2 = a :: c'.2 /\ p a = true /\ c'.1 = Some a.

Fixpoint den (r : re) (c c' : position) : Prop :=
  match r with
  | Bol => c.1 = None /\ c' = c
  | Eol => (c.2 = [] \/ c.2 = [newline]) /\ c' = c
  | Chars p => chars_den p c c'
  | Lit l => lit_den l c c'
  | Seq r1 r2 => exists m, den r1 c m /\ den r2 m c'
  | Alt r1 r2 => den r1 c c' \/ den r2 c c'
  | Opt r1 => den r1 c c' \/ c' = c
  | Star p => star_den p c c'
  | Plus p => exists m, chars_den p c m /\ star_den p m c'
  | LookBehind p => (exists a, c.1 = Some a /\ p a = true) /\ c' = c
  end.

(** ** The version grammar, spelled out *)

(** Every character of [s] is in the class [p]. *)
Fixpoint all_chars (p : N -> bool) (s : list N) : bool :=
  match s with
  | [] => true
  | a :: r => p a && all_chars p r
  end.

(** The last character of [a :: w]. *)
Fixpoint last_char (a : N) (w : list N) : N :=
  match w with
  | [] => a
  | b :: w' => last_char b w'
  end.

(** The character before the position reached by reading [w] from a
    position whose previous character is [prev]; and [span P c c']: from
    position [c] to position [c'] the matcher reads a text in [P]. *)
Definition after (prev : option N) (w : list N) : option N :=
  match w with
  | [] => prev
  | a :: w' => Some (last_char a w')
  end.

Definition span (P : list N -> Prop) (c c' : position) : Prop :=
  exists w, P w /\ c.2 = (w ++ c'.2)%list /\ c'.1 = after c.1 w.

(** [N]: one decimal digit or more. *)
Definition number (rt : Runtime) (n : list N) : Prop :=
  n <> [] /\ all_chars (digit rt) n = true.

(** [N!], optional. *)
Definition epoch_part (rt : Runtime) (e : list N) : Prop :=
  e = [] \/ exists n, number rt n /\ e = (n ++ Utf8.codes "!")%list.

(** Digits and dots, from a digit to a digit. *)
Definition release_part (rt : Runtime) (r : list N) : Prop :=
  exists a w, r = a :: w /\ digit rt a = true
              /\ all_chars (fun c => one_of "." c || digit rt c) w = true
              /\ digit rt (last_char a w) = true.

(** [aN], [bN], [cN] or [rcN], optional. *)
Definition pre_part (rt : Runtime) (p : list N) : Prop :=
  p = [] \/ exists t n, (t = Utf8.codes "a" \/ t = Utf8.codes "b"
                         \/ t = Utf8.codes "c" \/ t = Utf8.codes "rc")
                        /\ number rt n /\ p = (t ++ n)%list.

(** [.postN] and [.devN], optional. *)
Definition tagged_part (rt : Runtime) (tag : string) (s : list N) : Prop :=
  s = [] \/ exists n, number rt n /\ s = (Utf8.codes tag ++ n)%list.

(** [[N!]release[(a|b|c|rc)N][.postN][.devN]], with the final newline that
    [$] lets through. *)
Definition pep440_version (rt : Runtime) (s : list N) : Prop :=
  exists e r p po d nl,
    s = (e ++ r ++ p ++ po ++ d ++ nl)%list
    /\ epoch_part rt e /\ release_part rt r /\ pre_part rt p
    /\ tagged_part rt ".post" po /\ tagged_part rt ".dev" d
    /\ (nl = [] \/ nl = [newline]).

(** The pattern as the specification words it, with the pre-release tags
    [a], [b] and [rc] only; it is compared with [PEP440_VERSION_PATTERN]. *)
Definition claimed_version_pattern (rt : Runtime) : re :=
  Seq Bol
  (Seq (Opt (Seq (Plus (digit rt)) (Lit (Utf8.codes "!"))))
  (Seq (Seq (Chars (digit rt))
       (Seq (Star (fun c => one_of "." c || digit rt c))
            (LookBehind (digit rt))))
  (Seq (Opt (Seq (Alt (Chars (one_of "ab")) (Lit (Utf8.codes "rc")))
                 (Plus (digit rt))))
  (Seq (Opt (Seq (Lit (Utf8.codes ".post")) (Plus (digit rt))))
  (Seq (Opt (Seq (Lit (Utf8.codes ".dev")) (Plus (digit rt))))
       Eol))))).

(** ** [PackageDependency] *)

Record PackageDependency : Type := mkPackageDependency {
  name : string;
  version : option string
}.

Definition possible_version_attributes : list string :=
  ["__version__"; "VERSION"; "version"].

(** [str(n)] for a tuple element. *)
Definition item_str (i : TupleItem) : string :=
  match i with
  | IInt n => NilZero.string_of_int (Z.to_int n)
  | IStr s => s
  | IOther r => r
  end.

(** [PEP440_VERSION_PATTERN.match(version)], as a boolean. *)
Definition version_matches (rt : Runtime) (version : string) : bool :=
  matches (PEP440_VERSION_PATTERN rt) (Utf8.decode version).

(** One round of the [for vattr in ...] loop of [get_version_heuristic]:
    [Some v] when the round returns [v], [None] when the loop goes on. *)
Definition probe_version_attribute (rt : Runtime) (mod_ : PyModule)
    (vattr : string) : option string :=
  match attrs mod_ !! vattr with
  | None => None                                        (* [hasattr] fails *)
  | Some (AStr version) =>
      if version_matches rt version then Some version else None
  | Some (ATuple items) =>
      let version := Str.join "." (List.map item_str items) in
      if version_matches rt version then Some version else None
  | Some _ => None
  end.

Fixpoint get_version_loop (rt : Runtime) (mod_ : PyModule)
    (vattrs : list string) : option string :=
  match vattrs with
  | [] => None
  | vattr :: rest =>
      match probe_version_attribute rt mod_ vattr with
      | Some v => Some v
      | None => get_version_loop rt mod_ rest
      end
  end.

Definition get_version_heuristic (rt : Runtime) (mod_ : PyModule)
  : option string :=
  get_version_loop rt mod_ possible_version_attributes.

(** What the heuristic tests of an attribute value: a string itself, a
    tuple's dot-joined rendering; and an attribute qualifying with the
    version [v]: the module has it and what is tested of its value is [v],
    matching the pattern. *)
Definition candidate (val : AttrVal) : option string :=
  match val with
  | AStr s => Some s
  | ATuple items => Some (Str.join "." (List.map item_str items))
  | _ => None
  end.

Definition qualifies (rt : Runtime) (mod_ : PyModule) (vattr v : string)
  : Prop :=
  ∃ val, attrs mod_ !! vattr = Some val
         ∧ candidate val = Some v
         ∧ version_matches rt v = true.

(** [PackageDependency.create(mod)]; [mod.__name__] raises AttributeError
    when the attribute is missing. *)
Definition PackageDependency_create (rt : Runtime) (mod_ : PyModule)
  : result PackageDependency :=
  match mod_name mod_ with
  | None => Raise AttributeError
  | Some modname =>
      let version := get_version_heuristic rt mod_ in
      Ok (mkPackageDependency modname version)
  end.

(** ** [hashlib.md5] (RFC 1321) *)

Module MD5.

Definition wrap (x : Z) : Z := x mod 2 ^ 32.

Definition rotl (x s : Z) : Z :=
  Z.lor (wrap (Z.shiftl x s)) (Z.shiftr x (32 - s)).

Definition lnot32 (x : Z) : Z := Z.lxor x 0xffffffff.

Definition K : list Z :=
  [0xd76aa478; 0xe8c7b756; 0x242070db; 0xc1bdceee;
   0xf57c0faf; 0x4787c62a; 0xa8304613; 0xfd469501;
   0x698098d8; 0x8b44f7af; 0xffff5bb1; 0x895cd7be;
   0x6b901122; 0xfd987193; 0xa679438e; 0x49b40821;
   0xf61e2562; 0xc040b340; 0x265e5a51; 0xe9b6c7aa;
   0xd62f105d; 0x02441453; 0xd8a1e681; 0xe7d3fbc8;
   0x21e1cde6; 0xc33707d6; 0xf4d50d87; 0x455a14ed;
   0xa9e3e905; 0xfcefa3f8; 0x676f02d9; 0x8d2a4c8a;
   0xfffa3942; 0x8771f681; 0x6d9d6122; 0xfde5380c;
   0xa4beea44; 0x4bdecfa9; 0xf6bb4b60; 0xbebfbc70;
   0x289b7ec6; 0xeaa127fa; 0xd4ef3085; 0x04881d05;
   0xd9d4d039; 0xe6db99e5; 0x1fa27cf8; 0xc4ac5665;
   0xf4292244; 0x432aff97; 0xab9423a7; 0xfc93a039;
   0x655b59c3; 0x8f0ccc92; 0xffeff47d; 0x85845dd1;
   0x6fa87e4f; 0xfe2ce6e0; 0xa3014314; 0x4e0811a1;
   0xf7537e82; 0xbd3af235; 0x2ad7d2bb; 0xeb86d391].

Definition shifts : list Z :=
  [7; 12; 17; 22; 7; 12; 17; 22; 7; 12; 17; 22; 7; 12; 17; 22;
   5; 9; 14; 20; 5; 9; 14; 20; 5; 9; 14; 20; 5; 9; 14; 20;
   4; 11; 16; 23; 4; 11; 16; 23; 4; 11; 16; 23; 4; 11; 16; 23;
   6; 10; 15; 21; 6; 10; 15; 21; 6; 10; 15; 21; 6; 10; 15; 21].

Record state : Type := mkState { sA : Z; sB : Z; sC : Z; sD : Z }.

Definition init : state :=
  mkState 0x67452301 0xefcdab89 0x98badcfe 0x10325476.

Definition byteZ (b : Byte.byte) : Z := Z.of_N (Byte.to_N b).

(** Little-endian 32-bit words of a block. *)
Fixpoint words (block : list Byte.byte) : list Z :=
  match block with
  | b0 :: b1 :: b2 :: b3 :: rest =>
      (byteZ b0 + Z.shiftl (byteZ b1) 8 + Z.shiftl (byteZ b2) 16
       + Z.shiftl (byteZ b3) 24) :: words rest
  | _ => []
  end.

Definition step (M : list Z) (st : state) (i : nat) : state :=
  let '(mkState a b c d) := st in
  let iz := Z.of_nat i in
  let '(f, g) :=
    if iz <? 16 then (Z.lor (Z.land b c) (Z.land (lnot32 b) d), iz)
    else if iz <? 32 then
      (Z.lor (Z.land d b) (Z.land (lnot32 d) c), (5 * iz + 1) mod 16)
    else if iz <? 48 then (Z.lxor (Z.lxor b c) d, (3 * iz + 5) mod 16)
    else (Z.lxor c (Z.lor b (lnot32 d)), (7 * iz) mod 16) in
  let f := wrap (f + a + nth i K 0 + nth (Z.to_nat g) M 0) in
  mkState d (wrap (b + rotl f (nth i shifts 0))) b c.

(** The compression function on one 64-byte block. *)
Definition compress (st : state) (block : list Byte.byte) : state :=
  let r := fold_left (step (words block)) (seq 0 64) st in
  mkState (wrap (sA st + sA r)) (wrap (sB st + sB r))
          (wrap (sC st + sC r)) (wrap (sD st + sD r)).

Definition block_size : nat := 64.

(** Feed every complete block of [data] to the compression function;
    what is left is shorter than a block. *)
Fixpoint absorb_fuel (fuel : nat) (st : state) (data : list Byte.byte)
  : state * list Byte.byte :=
  match fuel with
  | O => (st, data)
  | S fuel' =>
      if (block_size <=? length data)%nat
      then absorb_fuel fuel' (compress st (take block_size data))
                       (drop block_size data)
      else (st, data)
  end.

Definition absorb (st : state) (data : list Byte.byte)
  : state * list Byte.byte :=
  absorb_fuel (length data) st data.

Definition le_bytes (n : nat) (x : Z) : list Byte.byte :=
  List.map (fun i => match Byte.of_N (Z.to_N (Z.shiftr x (8 * Z.of_nat i) mod 256)) with
                     | Some b => b
                     | None => Byte.x00
                     end)
           (seq 0 n).

(** The padding of a message of [len] bytes: a one bit, zeros up to 56
    modulo 64, then the bit length on 64 bits. *)
Definition padding (len : nat) : list Byte.byte :=
  Byte.x80
    :: List.repeat Byte.x00 (Z.to_nat ((55 - Z.of_nat len) mod 64))
    ++ le_bytes 8 ((8 * Z.of_nat len) mod 2 ^ 64).

Definition output (st : state) : list Byte.byte :=
  le_bytes 4 (sA st) ++ le_bytes 4 (sB st)
  ++ le_bytes 4 (sC st) ++ le_bytes 4 (sD st).

(** MD5 of a whole message, in one pass. *)
Definition md5 (msg : list Byte.byte) : list Byte.byte :=
  output (fst (absorb init (msg ++ padding (length msg)))).

(** The hash object: chaining state, the bytes not yet compressed, and
    the number of bytes fed so far. *)
Record ctx : Type := mkCtx {
  chain : state;
  pending : list Byte.byte;
  fed : nat
}.

(** [hashlib.md5()] *)
Definition new : ctx := mkCtx init [] 0.

(** [h.update(data)] *)
Definition update (h : ctx) (data : list Byte.byte) : ctx :=
  let '(st, rest) := absorb (chain h) (pending h ++ data) in
  mkCtx st rest (fed h + length data).

(** [h.digest()] *)
Definition digest (h : ctx) : list Byte.byte :=
  output (fst (absorb (chain h) (pending h ++ padding (fed h)))).

Definition hexchar (n : N) : ascii :=
  nth (N.to_nat n)
      (list_ascii_of_string "0123456789abcdef") "0"%char.

Fixpoint hex (bs : list Byte.byte) : string :=
  match bs with
  | [] => ""
  | b :: bs' =>
      let n := Byte.to_N b in
      String (hexchar (n / 16)) (String (hexchar (n mod 16)) (hex bs'))
  end.

(** [h.hexdigest()] *)
Definition hexdigest (h : ctx) : string := hex (digest h).

(** The hash object [h] has been fed the message [msg]. *)
Definition represents (h : ctx) (msg : list Byte.byte) : Prop :=
  absorb init msg = (chain h, pending h) ∧ fed h = length msg.

End MD5.

(** ** Digest and version-control probe *)

Definition MB : Z := 1048576.

(** [f.read(n)] on a file opened in binary mode: the next [n] bytes (fewer
    at the end of the file) and the file past them. *)
Definition file_read (n : Z) (f : list Byte.byte)
  : list Byte.byte * list Byte.byte :=
  (take (Z.to_nat n) f, drop (Z.to_nat n) f).

(** The [while data] loop of [get_digest].  Every round consumes at least
    one byte of the file, so [fuel] above its length is never used up. *)
Fixpoint get_digest_loop (fuel : nat) (h : MD5.ctx) (data f : list Byte.byte)
  : MD5.ctx :=
  match fuel with
  | O => h
  | S fuel' =>
      match data with
      | [] => h
      | _ :: _ =>
          let h := MD5.update h data in
          let '(data, f) := file_read (1 * MB) f in
          get_digest_loop fuel' h data f
      end
  end.

Definition get_digest (rt : Runtime) (filename : string) : result string :=
  let h := MD5.new in
  match file_bytes rt filename with
  | None => Raise IOError
  | Some f0 =>
      let '(data, f) := file_read (1 * MB) f0 in
      Ok (MD5.hexdigest (get_digest_loop (S (length f0)) h data f))
  end.

Definition get_py_file_if_possible (rt : Runtime) (pyc_name : string)
  : result string :=
  if Str.endswith pyc_name ".py" then Ok pyc_name
  else if negb (Str.endswith pyc_name ".pyc") then Raise AssertionError
  else
    let non_compiled_file := Str.take (String.length pyc_name - 1) pyc_name in
    if path_exists rt non_compiled_file then Ok non_compiled_file
    else Ok pyc_name.

Definition get_commit_if_possible (rt : Runtime) (filename : string)
  : option string * option string * option bool :=
  if has_gitpython rt then
    let directory := PosixPath.dirname filename in
    match git_repo rt directory with
    | Some repo =>
        let path :=
          match remote_url repo with
          | Some url => url
          | None => "git:/" +:+ working_dir repo
          end in
        (Some path, Some (head_commit repo), Some (repo_is_dirty repo))
    | None => (None, None, None)
    end
  else (None, None, None).

(** ** [Source] *)

Record Source : Type := mkSource {
  filename : string;
  digest : string;
  repo : option string;
  commit : option string;
  is_dirty : option bool
}.

(** The objects that meet a [Source] in a comparison or in a set. *)
Inductive PyObj : Type :=
  | ONone
  | OStr (s : string)
  | OSrc (s : Source).

Definition dquote : string := String "034"%char "".

(** ['{}'.format(filename)] *)
Definition format_filename (filename : option string) : string :=
  match filename with
  | None => "None"
  | Some f => f
  end.

(** The ValueError of [Source.create]. *)
Definition invalid_filename (filename : option string) : exn :=
  ValueError ("invalid filename or file not found " +:+ dquote
              +:+ format_filename filename +:+ dquote).

Definition Source_create (rt : Runtime) (filename : option string)
  : result Source :=
  match filename with
  | None => Raise (invalid_filename filename)            (* [not filename] *)
  | Some f =>
      if negb (Str.nonempty f) || negb (path_exists rt f)
      then Raise (invalid_filename filename)
      else
        main_file ← get_py_file_if_possible rt (PosixPath.abspath rt f);
        let '(repo, commit, is_dirty) := get_commit_if_possible rt main_file in
        digest ← get_digest rt main_file;
        Ok (mkSource main_file digest repo commit is_dirty)
  end.

Definition Source_hash (rt : Runtime) (self : Source) : Z :=
  py_hash rt (Some (filename self)).

Definition Source_eq (self : Source) (other : PyObj) : bool :=
  match other with
  | OSrc o => String.eqb (filename self) (filename o)
  | OStr o => String.eqb (filename self) o
  | ONone => false
  end.

Definition Source_le (self other : Source) : bool :=
  String.leb (filename self) (filename other).

(** The comparisons [functools.total_ordering] derives from [__le__] and
    [__eq__]. *)
Definition Source_lt (self other : Source) : bool :=
  Source_le self other && negb (Source_eq self (OSrc other)).
Definition Source_gt (self other : Source) : bool :=
  negb (Source_le self other).
Definition Source_ge (self other : Source) : bool :=
  negb (Source_le self other) || Source_eq self (OSrc other).

(** [hash(o)] and [a == b]: [str] and [None] defer to [Source.__eq__] when
    they meet a [Source]. *)
Definition obj_hash (rt : Runtime) (o : PyObj) : Z :=
  match o with
  | ONone => py_hash rt None
  | OStr s => py_hash rt (Some s)
  | OSrc s => Source_hash rt s
  end.

Definition py_eq (a b : PyObj) : bool :=
  match a, b with
  | OSrc s, _ => Source_eq s b
  | _, OSrc s => Source_eq s a
  | OStr x, OStr y => String.eqb x y
  | ONone, ONone => true
  | _, _ => false
  end.

(** A Python [set], in insertion order: [key in s] looks for a stored
    element with the hash of [key] that compares equal to it, and [s.add]
    keeps the stored element when there is one. *)
Definition in_set (rt : Runtime) (key : PyObj) (s : list PyObj) : bool :=
  existsb (fun e => (obj_hash rt e =? obj_hash rt key) && py_eq e key) s.

Definition set_add (rt : Runtime) (key : PyObj) (s : list PyObj) : list PyObj :=
  if in_set rt key s then s else s ++ [key].

Definition PackageDependency_hash (rt : Runtime) (self : PackageDependency) : Z :=
  py_hash rt (Some (name self)).

Definition PackageDependency_eq (self other : PackageDependency) : bool :=
  String.eqb (name self) (name other).

Definition dep_in_set (rt : Runtime) (key : PackageDependency)
    (s : list PackageDependency) : bool :=
  existsb (fun e => (PackageDependency_hash rt e =? PackageDependency_hash rt key)
                    && PackageDependency_eq e key) s.

Definition dep_add (rt : Runtime) (key : PackageDependency)
    (s : list PackageDependency) : list PackageDependency :=
  if dep_in_set rt key s then s else s ++ [key].

Definition obj_of_main (main : option Source) : PyObj :=
  match main with
  | None => ONone
  | Some s => OSrc s
  end.

(** ** Main file and module scanners *)

Definition get_main_file (rt : Runtime) (globs : Namespace)
  : result (string * option Source) :=
  match ns_file globs with
  | None =>
      let experiment_path := PosixPath.abspath rt "." in
      Ok (experiment_path, None)
  | Some _ =>
      main ← Source_create rt (ns_file globs);
      let experiment_path := PosixPath.dirname (filename main) in
      Ok (experiment_path, Some main)
  end.

(** What a generator hands to the loop that consumes it: the pairs it
    yields and, when it ends by raising, the exception. *)
Record Iter : Type := mkIter {
  items : list (string * PyModule);
  failure : option exn
}.

Definition MODULE_BLACKLIST (rt : Runtime) : gset (option string) :=
  {[ None; Some "__future__"; Some "__main__"; Some "hashlib"; Some "os";
     Some "re" ]} ∪ list_to_set (Some <$> builtin_module_names rt).

(** Modelled from the spec: [iter_prefixes] of [sacred.utils], which is
    imported by the module but is not part of [src/]: all dotted-name
    prefixes of a module path (for [a.b.c]: [a], [a.b] and [a.b.c]). *)
Definition iter_prefixes (path : string) : list string :=
  let split_path := Str.split "." path in
  List.map (fun i => Str.join "." (take i split_path))
           (seq 1 (length split_path)).

(** The inner loop of [iterate_imported_modules]. *)
Fixpoint iterate_prefixes (rt : Runtime) (checked_modules : gset (option string))
    (modnames : list string)
  : gset (option string) * list (string * PyModule) :=
  match modnames with
  | [] => (checked_modules, [])
  | modname :: rest =>
      if bool_decide (Some modname ∈ checked_modules)
      then iterate_prefixes rt checked_modules rest
      else
        let checked_modules := checked_modules ∪ {[ Some modname ]} in
        let '(checked', ys) := iterate_prefixes rt checked_modules rest in
        match sys_modules rt !! modname with
        | Some (Some mod_) => (checked', (modname, mod_) :: ys)
        | _ => (checked', ys)
        end
  end.

(** The outer loop of [iterate_imported_modules]. *)
Fixpoint iterate_globs (rt : Runtime) (checked_modules : gset (option string))
    (values : list GlobVal) : Iter :=
  match values with
  | [] => mkIter [] None
  | glob :: rest =>
      let mod_path :=
        match glob with
        | GModule m =>
            match mod_name m with
            | Some n => Ok (Some n)
            | None => Raise AttributeError
            end
        | GObject (Some p) => Ok p
        | GObject None => Ok None
        end in
      match mod_path with
      | Raise e => mkIter [] (Some e)
      | Ok None => iterate_globs rt checked_modules rest
      | Ok (Some mod_path) =>
          if negb (Str.nonempty mod_path)
          then iterate_globs rt checked_modules rest
          else
            let '(checked', ys) :=
              iterate_prefixes rt checked_modules (iter_prefixes mod_path) in
            let it := iterate_globs rt checked' rest in
            mkIter (ys ++ items it) (failure it)
      end
  end.

Definition iterate_imported_modules (rt : Runtime) (globs : Namespace) : Iter :=
  iterate_globs rt (MODULE_BLACKLIST rt) (ns_values globs).

Definition iterate_all_python_files (rt : Runtime) (base_path : string)
  : list string :=
  flat_map
    (fun '(dirname, subdirlist, filelist) =>
       if Str.has_substring "__pycache__" dirname then []
       else List.map (fun filename => PosixPath.join base_path [dirname; filename])
                     (List.filter (fun filename => Str.endswith filename ".py")
                                  filelist))
    (os_walk rt base_path).

Definition iterate_sys_modules (rt : Runtime) : Iter :=
  let items := map_to_list (sys_modules rt) in
  mkIter
    (omap (fun '(modname, mod_) =>
             match mod_ with
             | Some m =>
                 if bool_decide (Some modname ∉ MODULE_BLACKLIST rt)
                 then Some (modname, m) else None
             | None => None
             end) items)
    None.

(** ** Classifier *)

(** [hasattr(mod, '__file__') and is_local_source(os.path.abspath(mod.__file__),
    modname, base_path)].  [os.path.abspath] of a [__file__] that is not a
    string raises TypeError. *)
Definition has_local_file (rt : Runtime) (base_path : string)
    (modname : string) (mod_ : PyModule) : result bool :=
  match mod_file mod_ with
  | None => Ok false
  | Some None => Raise TypeError
  | Some (Some file) =>
      is_local_source rt (PosixPath.abspath rt file) modname base_path
  end.

(** The body of the loop of [get_sources_from_modules]. *)
Definition sources_step (rt : Runtime) (base_path : string)
    (sources : list PyObj) (item : string * PyModule) : result (list PyObj) :=
  let '(modname, mod_) := item in
  match mod_file mod_ with
  | None => Ok sources                                   (* [continue] *)
  | Some None => Raise TypeError                         (* [abspath(None)] *)
  | Some (Some file) =>
      let filename := PosixPath.abspath rt file in
      if negb (in_set rt (OStr filename) sources) then
        local ← is_local_source rt filename modname base_path;
        if local : bool then
          s ← Source_create rt (Some filename);
          Ok (set_add rt (OSrc s) sources)
        else Ok sources
      else Ok sources
  end.

(** A [for] loop over the items of a generator, with a body that may
    raise. *)
Fixpoint for_each {A B : Type} (body : A -> B -> result A) (acc : A)
    (l : list B) : result A :=
  match l with
  | [] => Ok acc
  | x :: l' => acc' ← body acc x; for_each body acc' l'
  end.

Definition for_iter {A : Type} (body : A -> string * PyModule -> result A)
    (acc : A) (it : Iter) : result A :=
  acc' ← for_each body acc (items it);
  match failure it with
  | Some e => Raise e
  | None => Ok acc'
  end.

Definition get_sources_from_modules (rt : Runtime) (module_iterator : Iter)
    (base_path : string) : result (list PyObj) :=
  for_iter (sources_step rt base_path) [] module_iterator.

(** The body of the loop of [get_dependencies_from_modules]; only an
    AttributeError raised inside the [try] block is swallowed. *)
Definition dependencies_step (rt : Runtime) (base_path : string)
    (dependencies : list PackageDependency) (item : string * PyModule)
  : result (list PackageDependency) :=
  let '(modname, mod_) := item in
  local ← has_local_file rt base_path modname mod_;
  if local : bool then Ok dependencies                   (* [continue] *)
  else
    match PackageDependency_create rt mod_ with
    | Ok pdep =>
        if negb (Str.contains "." (name pdep))
           || bool_decide (version pdep ≠ None)
        then Ok (dep_add rt pdep dependencies)
        else Ok dependencies
    | Raise AttributeError => Ok dependencies            (* [pass] *)
    | Raise e => Raise e
    end.

Definition get_dependencies_from_modules (rt : Runtime) (module_iterator : Iter)
    (base_path : string) : result (list PackageDependency) :=
  for_iter (dependencies_step rt base_path) [] module_iterator.

(** What the classifier promises of one pair, once its round is over.  The
    source of a local module is in the set, under the module's absolute
    file name or as the [Source] built from it; a module that is not local
    and yields a dependency that is kept (a version was found, or the name
    has no dot) has that dependency in the set. *)
Definition source_recorded (rt : Runtime) (base_path : string)
    (item : string * PyModule) (sources : list PyObj) : Prop :=
  has_local_file rt base_path item.1 item.2 = Ok true →
  ∃ file, mod_file item.2 = Some (Some file)
          ∧ (in_set rt (OStr (PosixPath.abspath rt file)) sources = true
             ∨ ∃ s, Source_create rt (Some (PosixPath.abspath rt file)) = Ok s
                    ∧ in_set rt (OSrc s) sources = true).

Definition kept (d : PackageDependency) : Prop :=
  version d ≠ None ∨ Str.contains "." (name d) = false.

#[global] Instance kept_dec (d : PackageDependency) : Decision (kept d).
Proof. unfold kept. apply _. Defined.

Definition dependency_recorded (rt : Runtime) (base_path : string)
    (item : string * PyModule) (dependencies : list PackageDependency) : Prop :=
  has_local_file rt base_path item.1 item.2 = Ok false →
  ∀ d, PackageDependency_create rt item.2 = Ok d → kept d →
       dep_in_set rt d dependencies = true.

(** ** Discovery strategies *)

Definition get_sources_from_sys_modules (rt : Runtime) (globs : Namespace)
    (base_path : string) : result (list PyObj) :=
  get_sources_from_modules rt (iterate_sys_modules rt) base_path.

Definition get_sources_from_imported_modules (rt : Runtime) (globs : Namespace)
    (base_path : string) : result (list PyObj) :=
  get_sources_from_modules rt (iterate_imported_modules rt globs) base_path.

Definition get_sources_from_local_dir (rt : Runtime) (globs : Namespace)
    (base_path : string) : result (list PyObj) :=
  for_each (fun sources filename =>
              s ← Source_create rt (Some filename);
              Ok (set_add rt (OSrc s) sources))
           [] (iterate_all_python_files rt base_path).

Definition get_dependencies_from_sys_modules (rt : Runtime) (globs : Namespace)
    (base_path : string) : result (list PackageDependency) :=
  get_dependencies_from_modules rt (iterate_sys_modules rt) base_path.

Definition get_dependencies_from_imported_modules (rt : Runtime)
    (globs : Namespace) (base_path : string) : result (list PackageDependency) :=
  get_dependencies_from_modules rt (iterate_imported_modules rt globs) base_path.

Definition source_strategy : Type :=
  Runtime -> Namespace -> string -> result (list PyObj).
Definition dependency_strategy : Type :=
  Runtime -> Namespace -> string -> result (list PackageDependency).

Definition source_discovery_strategies : gmap string source_strategy :=
  {[ "none" := (fun _ _ _ => Ok []) : source_strategy;
     "imported" := get_sources_from_imported_modules;
     "sys" := get_sources_from_sys_modules;
     "dir" := get_sources_from_local_dir ]}.

(** [d[key]], raising KeyError for a missing key. *)
Definition getitem {V : Type} (d : gmap string V) (key : string) : result V :=
  match d !! key with
  | Some v => Ok v
  | None => Raise (KeyError key)
  end.

Definition get_dependencies_from_pkg (rt : Runtime) (globs : Namespace)
    (base_path : string) : result (list PackageDependency) :=
  Ok (fold_left (fun dependencies '(key, version) =>
                   dep_add rt (mkPackageDependency key (Some version)) dependencies)
                (working_set rt) []).

Definition dependency_discovery_strategies : gmap string dependency_strategy :=
  {[ "none" := (fun _ _ _ => Ok []) : dependency_strategy;
     "imported" := get_dependencies_from_imported_modules;
     "sys" := get_dependencies_from_sys_modules;
     "pkg" := get_dependencies_from_pkg ]}.

(** ** Orchestrator *)

Definition gather_sources_and_dependencies (rt : Runtime) (globs : Namespace)
  : result (option Source * list PyObj * list PackageDependency) :=
  '(experiment_path, main) ← get_main_file rt globs;
  discover_sources ← getitem (SETTINGS rt) "DISCOVER_SOURCES";
  gather_sources ← getitem source_discovery_strategies discover_sources;
  sources ← gather_sources rt globs experiment_path;
  let sources := set_add rt (obj_of_main main) sources in
  discover_dependencies ← getitem (SETTINGS rt) "DISCOVER_DEPENDENCIES";
  gather_dependencies ←
    getitem dependency_discovery_strategies discover_dependencies;
  dependencies ← gather_dependencies rt globs experiment_path;
  dependencies ←
    (if has_numpy rt then
       pdep ← PackageDependency_create rt (np rt);
       Ok (dep_add rt pdep dependencies)
     else Ok dependencies);
  Ok (main, sources, dependencies).

(** ** Serialization and version lookup *)

(** [Source.to_json(base_dir)]: [base_dir] is [None] or a string, and the
    empty string is as false as [None]. *)
Definition Source_to_json (rt : Runtime) (self : Source)
    (base_dir : option string) : result (string * string) :=
  match base_dir with
  | Some d =>
      if Str.nonempty d then
        rel ← PosixPath.relpath rt (filename self) d;
        Ok (rel, digest self)
      else Ok (filename self, digest self)
  | None => Ok (filename self, digest self)
  end.

(** [pkg_resources.working_set.by_key.get(key)], as the version of the
    distribution found: [by_key] holds, for each key, the first distribution
    of that key added to the working set. *)
Definition by_key_get (rt : Runtime) (key : string) : option string :=
  match List.find (fun dist => String.eqb (fst dist) key) (working_set rt) with
  | Some dist => Some (snd dist)
  | None => None
  end.

(** [PackageDependency.fill_missing_version]: the method updates
    [self.version] in place; here it returns the updated record. *)
Definition fill_missing_version (rt : Runtime) (self : PackageDependency)
  : PackageDependency :=
  match version self with
  | Some _ => self
  | None =>
      let dist := by_key_get rt (name self) in
      mkPackageDependency (name self)
        (Some match dist with
              | Some v => v
              | None => "<unknown>"
              end)
  end.

(** ['{}'.format(version)] *)
Definition format_version (version : option string) : string :=
  match version with
  | None => "None"
  | Some v => v
  end.

(** [PackageDependency.to_json] *)
Definition PackageDependency_to_json (self : PackageDependency) : string :=
  name self +:+ "==" +:+ format_version (version self).

Definition PackageDependency_le (self other : PackageDependency) : bool :=
  String.leb (name self) (name other).

(** ** Vocabulary of the further properties *)

(** A component made of slashes only: the root of an absolute path. *)
Definition all_slashes (s : string) : Prop :=
  s = Str.repeat PosixPath.sep (String.length s).

(** No two elements of a Python set compare equal. *)
Definition pairwise_distinct (s : list PyObj) : Prop :=
  ∀ i j x y, s !! i = Some x → s !! j = Some y → py_eq x y = true → i = j.

Definition distinct_names (s : list PackageDependency) : Prop :=
  NoDup (name <$> s).

(** The module path that [iterate_imported_modules] reads off a global:
    [glob.__name__] of a module, [glob.__module__] of another value that has
    the attribute, and nothing ([Ok None]) of a value that is skipped. *)
Definition glob_mod_path (glob : GlobVal) : result (option string) :=
  match glob with
  | GModule m =>
      match mod_name m with
      | Some n => Ok (Some n)
      | None => Raise AttributeError
      end
  | GObject (Some p) => Ok p
  | GObject None => Ok None
  end.

(** The names [MODULE_BLACKLIST] lists by hand. *)
Definition blacklisted_names : list string :=
  ["__future__"; "__main__"; "hashlib"; "os"; "re"].

(** ** Sample runtime *)

(** Decimal digits above the ASCII range, as a Python 3 interpreter knows
    some of them: the Arabic-Indic, extended Arabic-Indic, Devanagari and
    full-width digits. *)
Definition sample_decimal (c : N) : bool :=
  existsb (λ r : N * N, (r.1 <=? c)%N && (c <=? r.2)%N)
          [(1632, 1641); (1776, 1785); (2406, 2415); (65296, 65305)]%N.

(** A runtime for the examples: nothing on disk, no module loaded, and both
    discovery settings at [imported]. *)
Definition bare_runtime (cwd : string) : Runtime :=
  mkRuntime cwd (λ _, false) (λ _, None) (λ _, []) (λ _, 0) ∅ [] false
            (λ _, None) false (mkModule None None ∅) []
            {[ "DISCOVER_SOURCES" := "imported";
               "DISCOVER_DEPENDENCIES" := "imported" ]}
            sample_decimal.

(** A runtime with one readable file. *)
Definition disk_runtime (cwd path : string) (content : list Byte.byte)
  : Runtime :=
  mkRuntime cwd (λ p, String.eqb p path)
            (λ p, if String.eqb p path then Some content else None)
            (λ _, []) (λ _, 0) ∅ [] false (λ _, None) false
            (mkModule None None ∅) []
            {[ "DISCOVER_SOURCES" := "imported";
               "DISCOVER_DEPENDENCIES" := "imported" ]}
            sample_decimal.

(** An installed package with a version, and a submodule of it without. *)
Definition widgets_module : PyModule :=
  mkModule (Some "widgets") (Some (Some "/usr/lib/widgets.py"))
           {[ "__version__" := AStr "2.0" ]}.

Definition widgets_sub_module : PyModule :=
  mkModule (Some "widgets.sub") None ∅.

(** A package whose version uses the pre-release letter [c]. *)
Definition legacy_module : PyModule :=
  mkModule (Some "legacy") None {[ "__version__" := AStr "1.0c1" ]}.

(** A package whose version is written in Arabic-Indic digits: the text
    U+0661 [.] U+0662, in UTF-8. *)
Definition eastern_version : string :=
  String "217" (String "161" (String "." (String "217" (String "162" "")))).

Definition eastern_module : PyModule :=
  mkModule (Some "eastern") None {[ "__version__" := AStr eastern_version ]}.

(** A namespace package: [__file__] is there and holds [None]. *)
Definition namespace_module : PyModule :=
  mkModule (Some "plugins") (Some None) ∅.

(** A module of the experiment, [/exp/foo.py], which a scan yields under
    its own name and under a second name. *)
Definition foo_module : PyModule :=
  mkModule (Some "foo") (Some (Some "/exp/foo.py")) ∅.

Definition aliased_scan : Iter :=
  mkIter [("foo", foo_module); ("alias", foo_module)] None.

(** * Properties *)

(** ** Test vectors *)

(** The MD5 test suite of RFC 1321, section A.5. *)
Example md5_empty :
  MD5.hex (MD5.md5 []) = "d41d8cd98f00b204e9800998ecf8427e".
Proof. by vm_compute. Qed.

Example md5_abc :
  MD5.hex (MD5.md5 (list_byte_of_string "abc"))
  = "900150983cd24fb0d6963f7d28e17f72".
Proof. by vm_compute. Qed.

Example md5_message_digest :
  MD5.hex (MD5.md5 (list_byte_of_string "message digest"))
  = "f96b697d7cb7938d525a2f31aaf161d0".
Proof. by vm_compute. Qed.

Example md5_digits :
  MD5.hex (MD5.md5 (list_byte_of_string
    "12345678901234567890123456789012345678901234567890123456789012345678901234567890"))
  = "57edf4a22be3c955ac49da2e2107b67a".
Proof. by vm_compute. Qed.

(** [os.path] on the corner cases the module meets. *)
Example split_examples :
  PosixPath.split "/exp/foo/bar.py" = ("/exp/foo", "bar.py")
  ∧ PosixPath.split "/exp" = ("/", "exp")
  ∧ PosixPath.split "foo/" = ("foo", "")
  ∧ PosixPath.split "//" = ("//", "")
  ∧ PosixPath.split "bar.py" = ("", "bar.py").
Proof. split_and!; by vm_compute. Qed.

Example splitext_examples :
  PosixPath.splitext "bar.py" = ("bar", ".py")
  ∧ PosixPath.splitext "x.tar.gz" = ("x.tar", ".gz")
  ∧ PosixPath.splitext ".bashrc" = (".bashrc", "")
  ∧ PosixPath.splitext "..a.b" = ("..a", ".b")
  ∧ PosixPath.splitext "a.b/c" = ("a.b/c", "").
Proof. split_and!; by vm_compute. Qed.

Example normpath_examples :
  PosixPath.normpath "/a/b/../c/./d//e/" = "/a/c/d/e"
  ∧ PosixPath.normpath "//a" = "//a"
  ∧ PosixPath.normpath "///a" = "/a"
  ∧ PosixPath.normpath "../../a/.." = "../.."
  ∧ PosixPath.normpath "" = ".".
Proof. split_and!; by vm_compute. Qed.

Example relpath_examples :
  PosixPath.relpath (bare_runtime "/home/u") "/exp/foo/bar.py" "/exp"
  = Ok "foo/bar.py"
  ∧ PosixPath.relpath (bare_runtime "/home/u") "x/y.py" "/home/v"
    = Ok "../u/x/y.py"
  ∧ PosixPath.relpath (bare_runtime "/home/u") "/exp" "/exp" = Ok ".".
Proof. split_and!; by vm_compute. Qed.

(** The docstring of [splitall]. *)
Example splitall_examples :
  splitall "foo/bar/baz.py" = ["foo"; "bar"; "baz.py"]
  ∧ splitall "/absolute/path.py" = ["/"; "absolute"; "path.py"].
Proof. split_and!; by vm_compute. Qed.

Example decode_examples :
  Utf8.decode "1.0c1" = [49; 46; 48; 99; 49]%N
  ∧ Utf8.decode eastern_version = [1633; 46; 1634]%N
  ∧ Utf8.decode (String "239" (String "188" (String "145" ""))) = [65297]%N
  ∧ Utf8.decode (String "240" (String "159" (String "144" (String "141" ""))))
    = [128013]%N
  ∧ Utf8.decode (String "192" (String "175" "")) = [56512; 56495]%N.
Proof. split_and!; by vm_compute. Qed.

Example pattern_examples :
  version_matches (bare_runtime "/") "1.2.3" = true
  ∧ version_matches (bare_runtime "/") "1!2.0rc1.post2.dev3" = true
  ∧ version_matches (bare_runtime "/") "1.0c1" = true
  ∧ version_matches (bare_runtime "/") "1." = false
  ∧ version_matches (bare_runtime "/") "1.0.dev" = false
  ∧ version_matches (bare_runtime "/") "not-a-version" = false
  ∧ version_matches (bare_runtime "/") "" = false
  ∧ version_matches (bare_runtime "/") eastern_version = true.
Proof. split_and!; by vm_compute. Qed.

(** With [\d] matching every decimal digit, a version written in
    Arabic-Indic digits is returned as it is. *)
Example eastern_version_found :
  get_version_heuristic (bare_runtime "/") eastern_module
  = Some eastern_version.
Proof. by vm_compute. Qed.

(** A run over a namespace that imports an installed package and lives in
    [/exp/run.py]. *)
Example gather_example :
  gather_sources_and_dependencies
    (mkRuntime "/" (λ p, String.eqb p "/exp/run.py")
       (λ p, if String.eqb p "/exp/run.py"
             then Some (list_byte_of_string "x = 5") else None)
       (λ _, []) (λ _, 0)
       {[ "widgets" := Some widgets_module;
          "widgets.sub" := Some widgets_sub_module ]}
       [] false (λ _, None) false (mkModule None None ∅) []
       {[ "DISCOVER_SOURCES" := "imported";
          "DISCOVER_DEPENDENCIES" := "imported" ]}
       sample_decimal)
    (mkNamespace (Some "/exp/run.py")
       [GModule widgets_module; GObject (Some (Some "widgets.sub"))])
  = Ok (Some (mkSource "/exp/run.py" "64cb7d1cc934629ce9d0d8d07536952b"
                       None None None),
        [OSrc (mkSource "/exp/run.py" "64cb7d1cc934629ce9d0d8d07536952b"
                        None None None)],
        [mkPackageDependency "widgets" (Some "2.0")]).
Proof. by vm_compute. Qed.

(** ** Strings *)

Section StrFacts.

Lemma str_app_cons (a : ascii) (s t : string) :
  String a s +:+ t = String a (s +:+ t).
Proof. reflexivity. Qed.

Lemma str_app_nil_l (t : string) : "" +:+ t = t.
Proof. reflexivity. Qed.

Lemma str_length_app (s t : string) :
  String.length (s +:+ t) = (String.length s + String.length t)%nat.
Proof.
  induction s as [|a s IH]; [done |].
  rewrite str_app_cons. simpl. by rewrite IH.
Qed.

Lemma str_take_drop (n : nat) (s : string) : Str.take n s +:+ Str.drop n s = s.
Proof.
  revert s; induction n as [|n IH]; intros [|a s]; simpl; try done.
  rewrite str_app_cons. f_equal. apply IH.
Qed.

Lemma str_app_empty_r (s : string) : s +:+ "" = s.
Proof.
  induction s as [|a s IH]; [done |]. rewrite str_app_cons. by rewrite IH.
Qed.

(** A prefix as long as the whole string is the whole string. *)
Lemma str_prefix_full (h t : string) :
  String.length h = String.length (h +:+ t) → h +:+ t = h.
Proof.
  rewrite str_length_app. intros Hl.
  destruct t as [|a t]; [apply str_app_empty_r | simpl in Hl; lia].
Qed.

Lemma str_app_assoc (s t u : string) : (s +:+ t) +:+ u = s +:+ (t +:+ u).
Proof.
  induction s as [|a s IH]; [done |]. rewrite !str_app_cons. by rewrite IH.
Qed.

Lemma rstrip_prefix (c : ascii) (s : string) :
  ∃ t, s = Str.rstrip c s +:+ t.
Proof.
  induction s as [|a s [t IH]]; simpl; [by exists "" |].
  destruct (Str.rstrip c s) as [|b r] eqn:E.
  - destruct (Ascii.eqb a c).
    + by exists (String a s).
    + exists s. done.
  - exists t. rewrite str_app_cons. by rewrite <- IH.
Qed.

End StrFacts.

(** ** [splitall] *)

Section SplitAll.

(** The head [os.path.split] returns is a prefix of the path. *)
Lemma split_head_prefix (p : string) :
  ∃ t, p = fst (PosixPath.split p) +:+ t.
Proof.
  unfold PosixPath.split. cbn [fst].
  set (i := Str.rfind PosixPath.sep p + 1).
  pose proof (str_take_drop (Z.to_nat i) p) as Htd.
  unfold Str.upto.
  destruct (_ && _).
  - destruct (rstrip_prefix PosixPath.sep (Str.take (Z.to_nat i) p)) as [t Ht].
    exists (t +:+ Str.drop (Z.to_nat i) p).
    rewrite <- str_app_assoc, <- Ht. done.
  - eauto.
Qed.

Lemma split_head_shorter (p : string) :
  fst (PosixPath.split p) ≠ p →
  (String.length (fst (PosixPath.split p)) < String.length p)%nat.
Proof.
  intros Hne. destruct (split_head_prefix p) as [t Ht].
  assert (String.length p
          = (String.length (fst (PosixPath.split p)) + String.length t)%nat)
    as Hl by (rewrite Ht at 1; apply str_length_app).
  destruct (decide (String.length t = 0%nat)) as [Hz|Hz]; [|lia].
  destruct t; [|done]. rewrite str_app_empty_r in Ht. congruence.
Qed.

(** Fuel above the length of the path is never used up. *)
Lemma splitall_loop_fuel (n m : nat) (p : string) (acc : list string) :
  (String.length p < n)%nat → (String.length p < m)%nat →
  splitall_loop n p acc = splitall_loop m p acc.
Proof.
  revert m p acc. induction n as [|n IH]; intros m p acc Hn Hm; [lia|].
  destruct m as [|m]; [lia|]. cbn [splitall_loop]. cbv zeta.
  destruct (String.eqb_spec (fst (PosixPath.split p)) p) as [|Hne]; [done|].
  destruct (String.eqb (snd (PosixPath.split p)) p); [done|].
  pose proof (split_head_shorter p Hne). apply IH; lia.
Qed.

(** The loop, as the [while True] of the source unrolls. *)
Lemma splitall_loop_unfold (p : string) (acc : list string) :
  splitall_loop (S (String.length p)) p acc =
    let parts := PosixPath.split p in
    if String.eqb (fst parts) p then fst parts :: acc
    else if String.eqb (snd parts) p then snd parts :: acc
    else splitall_loop (S (String.length (fst parts))) (fst parts)
                       (snd parts :: acc).
Proof.
  cbv zeta.
  destruct (String.eqb_spec (fst (PosixPath.split p)) p) as [He|Hne].
  { cbn [splitall_loop]. cbv zeta.
    by destruct (String.eqb_spec (fst (PosixPath.split p)) p). }
  destruct (String.eqb (snd (PosixPath.split p)) p) eqn:Ht.
  { cbn [splitall_loop]. cbv zeta. rewrite Ht.
    by destruct (String.eqb_spec (fst (PosixPath.split p)) p). }
  pose proof (split_head_shorter p Hne).
  rewrite (splitall_loop_fuel (S (String.length (fst (PosixPath.split p))))
             (String.length p) (fst (PosixPath.split p))) by lia.
  cbn [splitall_loop]. cbv zeta. rewrite Ht.
  by destruct (String.eqb_spec (fst (PosixPath.split p)) p).
Qed.

Lemma splitall_loop_acc (n : nat) (p : string) (acc : list string) :
  ∃ l, splitall_loop n p acc = (l ++ acc)%list.
Proof.
  revert p acc. induction n as [|n IH]; intros p acc;
    cbn [splitall_loop]; cbv zeta.
  - by exists [].
  - destruct (String.eqb _ p); [by eexists [_]|].
    destruct (String.eqb _ p); [by eexists [_]|].
    destruct (IH (fst (PosixPath.split p)) (snd (PosixPath.split p) :: acc))
      as [l ->].
    exists (l ++ [snd (PosixPath.split p)])%list. by rewrite <- List.app_assoc.
Qed.

Lemma splitall_nonempty (p : string) : splitall p ≠ [].
Proof.
  unfold splitall. cbn [splitall_loop]. cbv zeta.
  destruct (String.eqb _ p); [done|].
  destruct (String.eqb _ p); [done|].
  destruct (splitall_loop_acc (String.length p) (fst (PosixPath.split p))
              [snd (PosixPath.split p)]) as [l ->].
  by destruct l.
Qed.

End SplitAll.

(** ** [os.path.splitext] *)

Section SplitExt.

Lemma rfind_lower (c : ascii) (s : string) : -1 ≤ Str.rfind c s.
Proof.
  induction s as [|a s IH]; simpl; [lia|].
  destruct (Z.leb_spec 0 (Str.rfind c s)); [lia|].
  destruct (Ascii.eqb a c); lia.
Qed.

Lemma rfind_absent (c : ascii) (s : string) :
  Str.rfind c s < 0 → Str.contains c s = false.
Proof.
  induction s as [|a s IH]; simpl; [done|].
  pose proof (rfind_lower c s).
  destruct (Z.leb_spec 0 (Str.rfind c s)); [lia|].
  destruct (Ascii.eqb a c); [lia|]. intros _. apply IH. lia.
Qed.

(** From the index [rfind] returns on, the string is [c] followed by a
    string without [c]. *)
Lemma rfind_drop (c : ascii) (s : string) :
  0 ≤ Str.rfind c s →
  ∃ e, Str.from (Str.rfind c s) s = String c e ∧ Str.contains c e = false.
Proof.
  unfold Str.from. induction s as [|a s IH]; simpl; [lia|].
  pose proof (rfind_lower c s).
  destruct (Z.leb_spec 0 (Str.rfind c s)).
  - intros _. destruct IH as (e & He & Hc); [lia|].
    exists e. split; [|done].
    replace (Z.to_nat (Str.rfind c s + 1)) with (S (Z.to_nat (Str.rfind c s)))
      by lia.
    done.
  - destruct (Ascii.eqb_spec a c) as [->|]; [|lia].
    intros _. exists s. split; [done|]. apply rfind_absent. lia.
Qed.

Lemma splitext_scan_cases (fuel : nat) (p : string) (fi di : Z) :
  PosixPath.splitext_scan fuel p fi di = (p, "")
  ∨ PosixPath.splitext_scan fuel p fi di = (Str.upto di p, Str.from di p).
Proof.
  revert fi. induction fuel as [|fuel IH]; intros fi; simpl; [by left|].
  destruct (fi <? di); [|by left].
  destruct (negb _); [by right | apply IH].
Qed.

(** [splitext] cuts the component in two; what it cuts off is empty or
    starts at the last dot. *)
Lemma splitext_spec (l : string) :
  ∃ root ext,
    PosixPath.splitext l = (root, ext) ∧ root +:+ ext = l
    ∧ (ext = "" ∨ ∃ e, ext = String "." e ∧ Str.contains "." e = false).
Proof.
  unfold PosixPath.splitext.
  destruct (Str.rfind PosixPath.sep l <? Str.rfind PosixPath.extsep l) eqn:E.
  - destruct (splitext_scan_cases (S (String.length l)) l
                (Str.rfind PosixPath.sep l + 1)
                (Str.rfind PosixPath.extsep l)) as [-> | ->].
    + exists l, "". split_and!; [done | apply str_app_empty_r | by left].
    + do 2 eexists. split_and!; [done | apply str_take_drop |].
      right. apply rfind_drop.
      pose proof (rfind_lower PosixPath.sep l). apply Z.ltb_lt in E.
      unfold PosixPath.extsep, PosixPath.sep in *. lia.
  - exists l, "". split_and!; [done | apply str_app_empty_r | by left].
Qed.

End SplitExt.

(** ** The components of [splitall] *)

Section Components.

Lemma drop_next (n : nat) (s : string) (c : ascii) (e : string) :
  Str.drop n s = String c e → Str.drop (S n) s = e.
Proof.
  revert s. induction n as [|n IH]; intros [|a s]; simpl; try done.
  - by intros [= _ ->].
  - apply IH.
Qed.

(** The tail [os.path.split] returns holds no slash. *)
Lemma split_tail_no_sep (p : string) :
  Str.contains "/" (snd (PosixPath.split p)) = false.
Proof.
  unfold PosixPath.split. cbn [snd]. unfold PosixPath.sep.
  pose proof (rfind_lower "/" p) as Hlow.
  destruct (Z.ltb_spec (Str.rfind "/" p) 0) as [Hneg|Hpos].
  - replace (Str.rfind "/" p + 1) with 0 by lia.
    by apply rfind_absent.
  - destruct (rfind_drop "/" p Hpos) as (e & He & Hc). unfold Str.from in *.
    replace (Z.to_nat (Str.rfind "/" p + 1))
      with (S (Z.to_nat (Str.rfind "/" p))) by lia.
    by rewrite (drop_next _ _ _ _ He).
Qed.

Lemma rstrip_snoc (c : ascii) (x : string) :
  Str.rstrip c (x +:+ String c "") = Str.rstrip c x.
Proof.
  induction x as [|a x IH]; [simpl; by rewrite Ascii.eqb_refl|].
  rewrite str_app_cons. cbn [Str.rstrip]. by rewrite IH.
Qed.

Lemma rstrip_length (c : ascii) (s : string) :
  (String.length (Str.rstrip c s) ≤ String.length s)%nat.
Proof.
  destruct (rstrip_prefix c s) as [t Ht].
  rewrite Ht at 2. rewrite str_length_app. lia.
Qed.

Lemma take_length (n : nat) (s : string) :
  (String.length (Str.take n s) ≤ String.length s)%nat.
Proof.
  pose proof (str_take_drop n s) as H. apply (f_equal String.length) in H.
  rewrite str_length_app in H. lia.
Qed.

(** [os.path.split] returns the path itself as head only for the empty
    path and for a path made of slashes. *)
Lemma split_head_fixed (p : string) :
  fst (PosixPath.split p) = p → all_slashes p.
Proof.
  unfold PosixPath.split, all_slashes. cbn [fst]. unfold PosixPath.sep.
  set (i := Str.rfind "/" p + 1). unfold Str.upto.
  destruct (Str.nonempty (Str.take (Z.to_nat i) p)
            && negb (String.eqb (Str.take (Z.to_nat i) p)
                       (Str.repeat "/" (String.length
                                          (Str.take (Z.to_nat i) p)))))
    eqn:Hcond.
  - intros Hstrip. exfalso.
    apply andb_true_iff in Hcond as [Hne Hnot].
    pose proof (rstrip_length "/" (Str.take (Z.to_nat i) p)) as Hl1.
    pose proof (take_length (Z.to_nat i) p) as Hl2.
    pose proof (str_take_drop (Z.to_nat i) p) as Htd.
    assert (Str.take (Z.to_nat i) p = p) as Htake.
    { rewrite <- Htd at 2. symmetry. apply str_prefix_full.
      rewrite Htd. rewrite Hstrip in Hl1. lia. }
    rewrite Htake in Hstrip, Hne.
    assert (Str.drop (Z.to_nat i) p = "") as Hdrop.
    { rewrite <- Htd in Htake at 2.
      apply (f_equal String.length) in Htake.
      rewrite str_length_app in Htake.
      destruct (Str.drop (Z.to_nat i) p); [done | simpl in Htake; lia]. }
    pose proof (rfind_lower "/" p) as Hlow.
    destruct (Z.ltb_spec (Str.rfind "/" p) 0) as [Hneg|Hpos].
    { replace (Z.to_nat i) with 0%nat in Htake by lia.
      destruct p; [done | simpl in Htake; done]. }
    destruct (rfind_drop "/" p Hpos) as (e & He & _). unfold Str.from in He.
    replace (Z.to_nat i) with (S (Z.to_nat (Str.rfind "/" p))) in Hdrop by lia.
    rewrite (drop_next _ _ _ _ He) in Hdrop. subst e.
    pose proof (str_take_drop (Z.to_nat (Str.rfind "/" p)) p) as Hp.
    rewrite He in Hp. rewrite <- Hp in Hstrip. rewrite rstrip_snoc in Hstrip.
    pose proof (rstrip_length "/" (Str.take (Z.to_nat (Str.rfind "/" p)) p)).
    apply (f_equal String.length) in Hstrip.
    rewrite str_length_app in Hstrip. simpl in Hstrip. lia.
  - intros Hp. rewrite Hp in Hcond.
    apply andb_false_iff in Hcond as [Hempty | Hrep].
    + unfold Str.nonempty in Hempty. apply negb_false_iff in Hempty.
      by apply String.eqb_eq in Hempty as ->.
    + apply negb_false_iff in Hrep. by apply String.eqb_eq in Hrep.
Qed.

Lemma splitall_loop_components (n : nat) (p : string) (acc : list string) :
  (String.length p < n)%nat →
  Forall (λ x, Str.contains "/" x = false) acc →
  ∃ first rest,
    splitall_loop n p acc = first :: rest
    ∧ (all_slashes first ∨ Str.contains "/" first = false)
    ∧ (∃ t, p = first +:+ t)
    ∧ Forall (λ x, Str.contains "/" x = false) rest.
Proof.
  revert p acc. induction n as [|n IH]; intros p acc Hn Hacc; [lia|].
  cbn [splitall_loop]. cbv zeta.
  destruct (String.eqb_spec (fst (PosixPath.split p)) p) as [He|Hne].
  { exists (fst (PosixPath.split p)), acc. rewrite He. split_and!; [done | |
      exists ""; by rewrite str_app_empty_r | done].
    left. by apply split_head_fixed. }
  destruct (String.eqb_spec (snd (PosixPath.split p)) p) as [He|_].
  { exists (snd (PosixPath.split p)), acc. split_and!; [done | |
      exists ""; by rewrite str_app_empty_r, He | done].
    right. apply split_tail_no_sep. }
  pose proof (split_head_shorter p Hne) as Hlt.
  destruct (IH (fst (PosixPath.split p)) (snd (PosixPath.split p) :: acc))
    as (first & rest & Heq & Hfirst & [t Ht] & Hrest); [lia | |].
  { constructor; [apply split_tail_no_sep | done]. }
  exists first, rest. split_and!; [done..| |done].
  destruct (split_head_prefix p) as [t' Ht'].
  exists (t +:+ t'). rewrite <- str_app_assoc, <- Ht. done.
Qed.

End Components.

(** ** File extensions *)

Section Extension.

Lemma contains_app (c : ascii) (s t : string) :
  Str.contains c (s +:+ t) = Str.contains c s || Str.contains c t.
Proof.
  induction s as [|a s IH]; [done|].
  rewrite str_app_cons. cbn [Str.contains]. by rewrite IH, orb_assoc.
Qed.

Lemma rfind_none (c : ascii) (s : string) :
  Str.contains c s = false → Str.rfind c s = -1.
Proof.
  induction s as [|a s IH]; [done|]. cbn [Str.contains Str.rfind].
  intros [Ha Hs]%orb_false_iff. rewrite (IH Hs). cbv zeta.
  by rewrite Ha.
Qed.

(** The index [rfind] returns is that of the last [c]. *)
Lemma rfind_last (c : ascii) (s e : string) :
  Str.contains c e = false →
  Str.rfind c (s +:+ String c e) = Z.of_nat (String.length s).
Proof.
  intros He. induction s as [|a s IH].
  - rewrite str_app_nil_l. cbn [Str.rfind]. rewrite (rfind_none c e He).
    cbv zeta. by rewrite Ascii.eqb_refl.
  - rewrite str_app_cons. cbn [Str.rfind]. rewrite IH. cbv zeta.
    destruct (Z.leb_spec 0 (Z.of_nat (String.length s))); [|lia].
    cbn [String.length]. lia.
Qed.

Lemma repeat_shift (c : ascii) (k : nat) (e : string) :
  Str.repeat c (S k) +:+ e = Str.repeat c k +:+ String c e.
Proof.
  induction k as [|k IH]; [done|].
  change (Str.repeat c (S (S k)) +:+ e)
    with (String c (Str.repeat c (S k) +:+ e)).
  by rewrite IH.
Qed.

Lemma str_repeat_length (c : ascii) (k : nat) :
  String.length (Str.repeat c k) = k.
Proof. induction k as [|k IH]; [done|]. cbn. by rewrite IH. Qed.

Lemma rfind_dots (c : ascii) (k : nat) (e : string) :
  Str.contains c e = false →
  Str.rfind c (Str.repeat c k +:+ e) = Z.of_nat k - 1.
Proof.
  intros He. destruct k as [|k].
  - rewrite str_app_nil_l. by apply rfind_none.
  - rewrite repeat_shift, rfind_last, str_repeat_length by done. lia.
Qed.

Lemma str_take_app_length (s t : string) :
  Str.take (String.length s) (s +:+ t) = s.
Proof.
  induction s as [|a s IH]; [by destruct t|].
  rewrite str_app_cons. cbn. by rewrite IH.
Qed.

Lemma str_drop_app_length (s t : string) :
  Str.drop (String.length s) (s +:+ t) = t.
Proof.
  induction s as [|a s IH]; [by destruct t|].
  rewrite str_app_cons. cbn. by rewrite IH.
Qed.

Lemma drop_dots (c : ascii) (k i : nat) (e : string) :
  (i < k)%nat →
  Str.take 1 (Str.drop i (Str.repeat c k +:+ e)) = String c "".
Proof.
  revert i. induction k as [|k IH]; intros i Hi; [lia|].
  destruct i as [|i]; cbn [Str.repeat]; rewrite str_app_cons.
  - cbn. by destruct (Str.repeat c k +:+ e).
  - cbn [Str.drop]. apply IH. lia.
Qed.

(** A string that is not a run of [c] has a first character other than
    [c]. *)
Lemma first_other (c : ascii) (s : string) :
  s ≠ Str.repeat c (String.length s) →
  ∃ j a r, s = Str.repeat c j +:+ String a r ∧ a ≠ c.
Proof.
  induction s as [|a s IH]; [done|]. cbn [String.length Str.repeat].
  intros Hne. destruct (decide (a = c)) as [->|Ha].
  - destruct IH as (j & a & r & Hs & Ha); [congruence|].
    exists (S j), a, r. split; [|done].
    cbn [Str.repeat]. rewrite str_app_cons. by rewrite <- Hs.
  - by exists 0%nat, a, s.
Qed.

(** The loop of [splitext] over leading dots: it runs through when only
    dots come before the last dot, and stops at the first other
    character. *)
Lemma splitext_scan_dots (fuel : nat) (p : string) (i : nat) (di : Z) :
  (∀ j, (i ≤ j)%nat → Z.of_nat j < di →
        Str.take 1 (Str.drop j p) = String "." "") →
  PosixPath.splitext_scan fuel p (Z.of_nat i) di = (p, "").
Proof.
  revert i. induction fuel as [|fuel IH]; intros i Hdots; [done|].
  cbn [PosixPath.splitext_scan].
  destruct (Z.ltb_spec (Z.of_nat i) di) as [Hlt|]; [|done].
  unfold Str.from. rewrite Nat2Z.id, (Hdots i) by (done || lia).
  cbn [String.eqb Ascii.eqb negb].
  replace (Z.of_nat i + 1) with (Z.of_nat (S i)) by lia.
  apply IH. intros j Hj. apply Hdots. lia.
Qed.

Lemma splitext_scan_stops (fuel : nat) (p : string) (i j : nat) (di : Z) :
  (i ≤ j)%nat → Z.of_nat j < di → (j - i < fuel)%nat →
  (∀ k, (i ≤ k)%nat → (k < j)%nat →
        Str.take 1 (Str.drop k p) = String "." "") →
  Str.take 1 (Str.drop j p) ≠ String "." "" →
  PosixPath.splitext_scan fuel p (Z.of_nat i) di
  = (Str.upto di p, Str.from di p).
Proof.
  revert i. induction fuel as [|fuel IH]; intros i Hij Hj Hfuel Hdots Hstop;
    [lia|].
  cbn [PosixPath.splitext_scan].
  destruct (Z.ltb_spec (Z.of_nat i) di) as [Hlt|]; [|lia].
  unfold Str.from at 1. rewrite Nat2Z.id.
  destruct (decide (i = j)) as [->|Hne].
  - destruct (String.eqb_spec (Str.take 1 (Str.drop j p)) "."); done.
  - rewrite (Hdots i) by lia. cbn [String.eqb Ascii.eqb negb].
    replace (Z.of_nat i + 1) with (Z.of_nat (S i)) by lia.
    apply IH; [lia | done | lia | | done].
    intros k Hk1 Hk2. apply Hdots; lia.
Qed.

(** A name made of leading dots and a rest without dot has no extension. *)
Lemma splitext_no_ext (k : nat) (e : string) :
  Str.contains "." e = false →
  PosixPath.splitext (Str.repeat "." k +:+ e) = (Str.repeat "." k +:+ e, "").
Proof.
  intros He. unfold PosixPath.splitext, PosixPath.extsep.
  rewrite (rfind_dots "." k e He). cbv zeta.
  set (p := Str.repeat "." k +:+ e).
  pose proof (rfind_lower PosixPath.sep p) as Hlow.
  destruct (Z.ltb_spec (Str.rfind PosixPath.sep p) (Z.of_nat k - 1)); [|done].
  replace (Str.rfind PosixPath.sep p + 1)
    with (Z.of_nat (Z.to_nat (Str.rfind PosixPath.sep p + 1))) by lia.
  apply splitext_scan_dots. intros j _ Hj. apply drop_dots. lia.
Qed.

(** A name without slash whose last dot comes after a character other than
    a dot is cut at that dot. *)
Lemma splitext_ext (stem e : string) :
  Str.contains "." e = false →
  Str.contains "/" (stem +:+ String "." e) = false →
  stem ≠ Str.repeat "." (String.length stem) →
  PosixPath.splitext (stem +:+ String "." e) = (stem, String "." e).
Proof.
  intros He Hsep Hstem.
  unfold PosixPath.splitext, PosixPath.extsep, PosixPath.sep.
  rewrite (rfind_last "." stem e He), (rfind_none "/" _ Hsep). cbv zeta.
  destruct (Z.ltb_spec (-1) (Z.of_nat (String.length stem))); [|lia].
  change (-1 + 1) with (Z.of_nat 0).
  destruct (first_other "." stem Hstem) as (j & a & r & Hs & Ha).
  assert (String.length stem = (j + S (String.length r))%nat) as Hlen.
  { rewrite Hs at 1. by rewrite str_length_app, str_repeat_length. }
  rewrite (splitext_scan_stops _ _ 0 j).
  - unfold Str.upto, Str.from. rewrite Nat2Z.id.
    by rewrite str_take_app_length, str_drop_app_length.
  - lia.
  - lia.
  - rewrite str_length_app. lia.
  - intros k _ Hk. rewrite Hs, str_app_assoc. by apply drop_dots.
  - rewrite Hs, str_app_assoc.
    rewrite <- (str_repeat_length "." j) at 1. rewrite str_drop_app_length.
    rewrite str_app_cons. cbn [Str.take].
    destruct (r +:+ String "." e); congruence.
Qed.

(** Every name is of one of the two kinds. *)
Lemma extension_cases (l : string) :
  (∃ k e, l = Str.repeat "." k +:+ e ∧ Str.contains "." e = false)
  ∨ (∃ stem e, l = stem +:+ "." +:+ e ∧ Str.contains "." e = false
               ∧ stem ≠ Str.repeat "." (String.length stem)).
Proof.
  pose proof (rfind_lower "." l) as Hlow.
  destruct (Z.ltb_spec (Str.rfind "." l) 0) as [Hneg|Hpos].
  { left. exists 0%nat, l. split; [done|]. by apply rfind_absent. }
  destruct (rfind_drop "." l Hpos) as (e & He & Hc).
  pose proof (str_take_drop (Z.to_nat (Str.rfind "." l)) l) as Hl.
  unfold Str.from in He. rewrite He in Hl.
  set (stem := Str.take (Z.to_nat (Str.rfind "." l)) l) in *.
  destruct (decide (stem = Str.repeat "." (String.length stem))) as [Hd|Hd].
  - left. exists (S (String.length stem)), e. split; [|done].
    by rewrite repeat_shift, <- Hd.
  - right. by exists stem, e.
Qed.

Lemma all_slashes_no_dot (l : string) :
  all_slashes l → Str.contains "." l = false.
Proof.
  unfold all_slashes. intros ->. by induction (String.length l).
Qed.

(** Neither kind of file that marks a package is a name without
    extension. *)
Lemma no_ext_not_init (k : nat) (e : string) :
  Str.contains "." e = false → Str.repeat "." k +:+ e ∉ init_files.
Proof.
  intros He Hin. unfold init_files in Hin.
  destruct k as [|k].
  - rewrite str_app_nil_l in Hin.
    repeat (apply elem_of_cons in Hin as [->|Hin]; [done|]).
    by apply elem_of_nil in Hin.
  - cbn [Str.repeat] in Hin. rewrite str_app_cons in Hin.
    repeat (apply elem_of_cons in Hin as [?|Hin]; [done|]).
    by apply elem_of_nil in Hin.
Qed.

End Extension.

(** ** Claims about the path normalizer *)

(** C7: [convert_path_to_module_parts] splits the path with [splitall];
    when the final component is [__init__.py] or [__init__.pyc] it returns
    the split without that one component, and otherwise it returns the split
    with the file extension cut off the final component and nothing else
    changed.  The final component holds no slash, unless it is the root and
    the only component.  The extension is what [os.path.splitext] cuts off,
    empty or from the last dot on: a name made of leading dots and a rest
    without dot has none and stays as it is; every other name ends in a dot
    and a rest without dot, after a stem that is not made of dots only, and
    what is kept of it is that stem.  [pkg/sub/__init__.py] gives [pkg],
    [sub]; [foo/bar.py] gives [foo], [bar]. *)
Theorem convert_path_to_module_parts_spec (path : string) :
  ∃ (init : list string) (l : string),
    splitall path = (init ++ [l])%list
    ∧ (Str.contains "/" l = false ∨ (init = [] ∧ all_slashes l))
    ∧ (l = "__init__.py" ∨ l = "__init__.pyc" →
       convert_path_to_module_parts path = init)
    ∧ (l ≠ "__init__.py" → l ≠ "__init__.pyc" →
       ∃ root ext,
         convert_path_to_module_parts path = (init ++ [root])%list
         ∧ root +:+ ext = l
         ∧ (ext = "" ∨ ∃ e, ext = String "." e ∧ Str.contains "." e = false))
    ∧ (∀ k e, l = Str.repeat "." k +:+ e → Str.contains "." e = false →
         convert_path_to_module_parts path = (init ++ [l])%list)
    ∧ (∀ stem e, l = stem +:+ "." +:+ e → Str.contains "." e = false →
         stem ≠ Str.repeat "." (String.length stem) →
         l ≠ "__init__.py" → l ≠ "__init__.pyc" →
         convert_path_to_module_parts path = (init ++ [stem])%list)
    ∧ ((∃ k e, l = Str.repeat "." k +:+ e ∧ Str.contains "." e = false)
       ∨ (∃ stem e, l = stem +:+ "." +:+ e ∧ Str.contains "." e = false
                    ∧ stem ≠ Str.repeat "." (String.length stem)))
    ∧ convert_path_to_module_parts "pkg/sub/__init__.py" = ["pkg"; "sub"]
    ∧ convert_path_to_module_parts "pkg/sub/mod.py" = ["pkg"; "sub"; "mod"]
    ∧ convert_path_to_module_parts "foo/bar.py" = ["foo"; "bar"]
    ∧ convert_path_to_module_parts "pkg/x.tar.gz" = ["pkg"; "x.tar"]
    ∧ convert_path_to_module_parts "home/.bashrc" = ["home"; ".bashrc"].
Proof.
  destruct (last (splitall path)) as [l|] eqn:Hlast.
  2:{ apply last_None in Hlast. by destruct (splitall_nonempty path). }
  pose proof Hlast as Hl. apply last_Some in Hl as [init Hinit].
  exists init, l. split; [done|].
  assert (Str.contains "/" l = false ∨ (init = [] ∧ all_slashes l)) as Hshape.
  { destruct (splitall_loop_components (S (String.length path)) path [])
      as (first & rest & Heq & Hfirst & _ & Hrest); [lia | done |].
    fold (splitall path) in Heq. rewrite Hinit in Heq.
    destruct init as [|x init].
    - injection Heq as -> _. destruct Hfirst; [right | left]; done.
    - left. injection Heq as _ <-.
      rewrite Forall_app, Forall_singleton in Hrest. tauto. }
  assert (l ∉ init_files →
          convert_path_to_module_parts path
          = (init ++ [fst (PosixPath.splitext l)])%list) as Hother.
  { intros Hnot. unfold convert_path_to_module_parts.
    rewrite Hlast, Hinit, removelast_last.
    by rewrite bool_decide_eq_false_2. }
  assert (l ≠ "__init__.py" → l ≠ "__init__.pyc" → l ∉ init_files) as Hnot.
  { unfold init_files. intros H1 H2 Hin.
    repeat (apply elem_of_cons in Hin as [?|Hin]; [done|]).
    by apply elem_of_nil in Hin. }
  split; [done|]. split_and!.
  - intros Hin. unfold convert_path_to_module_parts.
    rewrite Hlast, Hinit, removelast_last.
    rewrite bool_decide_eq_true_2; [done|].
    unfold init_files. destruct Hin as [-> | ->]; repeat constructor.
  - intros H1 H2. rewrite Hother by auto.
    destruct (splitext_spec l) as (root & ext & Hs & Happ & Hext).
    exists root, ext. by rewrite Hs.
  - intros k e -> He.
    rewrite Hother by (by apply no_ext_not_init).
    by rewrite splitext_no_ext.
  - intros stem e Heq He Hstem H1 H2. rewrite Hother by auto.
    change (stem +:+ "." +:+ e) with (stem +:+ String "." e) in Heq.
    subst l. rewrite splitext_ext; [done..| |done].
    destruct Hshape as [Hno | [_ Hall%all_slashes_no_dot]]; [done|].
    rewrite contains_app in Hall. cbn [Str.contains Ascii.eqb] in Hall.
    by rewrite orb_true_r in Hall.
  - apply extension_cases.
  - by vm_compute.
  - by vm_compute.
  - by vm_compute.
  - by vm_compute.
  - by vm_compute.
Qed.

(** ** The last tier of [is_local_source] *)

Section TrailingMatch.

Lemma forallb_combine_eqb (x y : list string) :
  forallb (λ pm, String.eqb pm.1 pm.2) (combine x y) = true
  ↔ take (Nat.min (length x) (length y)) x
    = take (Nat.min (length x) (length y)) y.
Proof.
  revert y. induction x as [|a x IH]; intros [|b y]; simpl; try done.
  rewrite andb_true_iff, IH, String.eqb_eq. split.
  - by intros [-> ->].
  - intros [= -> ->]. done.
Qed.

Lemma all_zip_reversed_spec (a b : list string) :
  all_zip_reversed a b = true ↔ trailing_agree a b.
Proof.
  unfold all_zip_reversed, trailing_agree, lastn.
  rewrite forallb_combine_eqb, !length_rev, !firstn_rev.
  split; [apply rev_inj | by intros ->].
Qed.

Lemma trailing_agree_suffix (a m : list string) :
  (length m ≤ length a)%nat →
  trailing_agree a m ↔ m `suffix_of` a.
Proof.
  intros Hlen. unfold trailing_agree, lastn.
  rewrite Nat.min_r by done. rewrite Nat.sub_diag, drop_0. split.
  - intros <-. exists (take (length a - length m) a).
    by rewrite take_drop.
  - intros [k ->]. rewrite length_app.
    replace (length k + length m - length m)%nat with (length k) by lia.
    apply drop_app_length.
Qed.

End TrailingMatch.


(** ** Absolute paths and names without a slash *)

Section AbsoluteParts.

Lemma startswith_sep (s : string) :
  Str.startswith s "/" = true ↔ ∃ r, s = String "/" r.
Proof.
  unfold Str.startswith. destruct s as [|a r]; cbn [String.prefix].
  - split; [done | by intros [? ?]].
  - destruct (Ascii.ascii_dec "/" a) as [<-|Hne].
    + split; [eauto | intros _; by destruct r].
    + split; [done | intros [? [= ? ?]]; congruence].
Qed.

Lemma rstrip_empty (c : ascii) (s : string) :
  Str.rstrip c s = "" → s = Str.repeat c (String.length s).
Proof.
  induction s as [|a s IH]; simpl; [done|].
  destruct (Str.rstrip c s) eqn:E; [|done].
  destruct (Ascii.eqb_spec a c) as [->|]; [|done].
  intros _. by rewrite <- IH.
Qed.

Lemma rfind_head (c : ascii) (r : string) : 0 ≤ Str.rfind c (String c r).
Proof.
  simpl. pose proof (rfind_lower c r).
  destruct (Z.leb_spec 0 (Str.rfind c r)); [lia|].
  by rewrite Ascii.eqb_refl.
Qed.

Lemma take_head (n : nat) (a : ascii) (r : string) :
  (0 < n)%nat → ∃ r', Str.take n (String a r) = String a r'.
Proof. destruct n; [lia|]. simpl. eauto. Qed.

(** The head of an absolute path is an absolute path. *)
Lemma split_head_abs (p : string) :
  Str.startswith p "/" = true →
  Str.startswith (fst (PosixPath.split p)) "/" = true.
Proof.
  rewrite !startswith_sep. intros [r ->].
  unfold PosixPath.split. cbn [fst]. unfold Str.upto.
  pose proof (rfind_head "/" r) as Hi. unfold PosixPath.sep.
  destruct (take_head (Z.to_nat (Str.rfind "/" (String "/" r) + 1)) "/" r)
    as [r' Hr']; [lia|].
  rewrite Hr'.
  destruct (Str.nonempty _ && negb (String.eqb _ _)) eqn:E; [|eauto].
  apply andb_true_iff in E as [_ E]. apply negb_true_iff in E.
  apply String.eqb_neq in E.
  cbn [Str.rstrip]. destruct (Str.rstrip "/" r') eqn:Hs; [|eauto].
  exfalso. apply E. apply rstrip_empty in Hs.
  cbn [String.length Str.repeat]. by rewrite <- Hs.
Qed.

(** The first component [splitall] finds in an absolute path starts
    with a slash. *)
Lemma splitall_loop_abs (n : nat) (p : string) (acc : list string) :
  Str.startswith p "/" = true → (String.length p < n)%nat →
  ∃ x rest, splitall_loop n p acc = x :: rest
            ∧ Str.startswith x "/" = true.
Proof.
  revert p acc. induction n as [|n IH]; intros p acc Habs Hn; [lia|].
  cbn [splitall_loop]. cbv zeta.
  destruct (String.eqb_spec (fst (PosixPath.split p)) p) as [He|Hne].
  { rewrite He. eauto. }
  destruct (String.eqb_spec (snd (PosixPath.split p)) p) as [He|_].
  { rewrite He. eauto. }
  pose proof (split_head_shorter p Hne).
  apply IH; [by apply split_head_abs | lia].
Qed.

Lemma splitext_root_abs (x : string) :
  Str.startswith x "/" = true →
  Str.startswith (fst (PosixPath.splitext x)) "/" = true.
Proof.
  intros Habs. unfold PosixPath.splitext.
  destruct (Z.ltb_spec (Str.rfind PosixPath.sep x)
              (Str.rfind PosixPath.extsep x)) as [Hlt|]; [|done].
  destruct (splitext_scan_cases (S (String.length x)) x
              (Str.rfind PosixPath.sep x + 1)
              (Str.rfind PosixPath.extsep x)) as [-> | ->]; [done|].
  cbn [fst]. apply startswith_sep in Habs as [r ->].
  pose proof (rfind_head "/" r). unfold PosixPath.sep in Hlt.
  destruct (take_head (Z.to_nat (Str.rfind PosixPath.extsep (String "/" r)))
              "/" r) as [r' Hr']; [lia|].
  unfold Str.upto. rewrite Hr'. apply startswith_sep. eauto.
Qed.

Lemma convert_abs (p : string) :
  Str.startswith p "/" = true →
  ∃ x rest, convert_path_to_module_parts p = x :: rest
            ∧ Str.startswith x "/" = true.
Proof.
  intros Habs.
  destruct (splitall_loop_abs (S (String.length p)) p [] Habs)
    as (x & rest & Hsplit & Hx); [lia|].
  unfold convert_path_to_module_parts, splitall. rewrite Hsplit.
  destruct (last (x :: rest)) as [l|] eqn:Hlast; [|eauto].
  destruct rest as [|y rest].
  - injection Hlast as <-. cbn [removelast app].
    rewrite bool_decide_eq_false_2.
    + eexists _, _. split; [done|]. by apply splitext_root_abs.
    + apply startswith_sep in Hx as [r ->]. unfold init_files. intros Hin.
      repeat (apply elem_of_cons in Hin as [?|Hin]; [done|]).
      by apply elem_of_nil in Hin.
  - cbn [removelast]. destruct (bool_decide _); cbn [app]; eauto.
Qed.

Lemma normpath_abs (p : string) :
  Str.startswith p "/" = true →
  Str.startswith (PosixPath.normpath p) "/" = true.
Proof.
  intros Habs. unfold PosixPath.normpath. rewrite Habs.
  assert (Str.nonempty p = true) as ->.
  { apply startswith_sep in Habs as [r ->]. done. }
  cbn [negb]. cbv zeta.
  set (n := if _ && _ then 2 else 1).
  set (body := Str.join _ _).
  assert (∃ r, Str.repeat PosixPath.sep (Z.to_nat n) +:+ body = String "/" r)
    as [r ->].
  { destruct (Z.to_nat n) as [|k] eqn:Hk.
    - subst n. destruct (_ && _); simpl in Hk; lia.
    - cbn [Str.repeat]. rewrite str_app_cons. eauto. }
  cbn [Str.nonempty String.eqb negb]. apply startswith_sep. eauto.
Qed.

Lemma abspath_abs (rt : Runtime) (p : string) :
  PosixPath.isabs p = true →
  Str.startswith (PosixPath.abspath rt p) "/" = true.
Proof.
  intros Habs. unfold PosixPath.abspath. rewrite Habs. cbn [negb].
  by apply normpath_abs.
Qed.

Lemma contains_startswith (c : ascii) (r : string) :
  Str.contains c (String c r) = true.
Proof. simpl. by rewrite Ascii.eqb_refl. Qed.

(** A component of a string without [d] is without [d]. *)
Lemma split_contains (c d : ascii) (s : string) :
  Str.contains d s = false →
  Forall (λ x, Str.contains d x = false) (Str.split c s).
Proof.
  induction s as [|a s IH]; simpl; [by repeat constructor|].
  intros [Ha Hs]%orb_false_iff. specialize (IH Hs).
  destruct (Ascii.eqb a c); [by constructor|].
  destruct (Str.split c s) as [|h t].
  { constructor; [simpl; by rewrite Ha | constructor]. }
  inversion IH as [|? ? Hh Ht]; subst. constructor; [|done].
  simpl. by rewrite Ha, Hh.
Qed.

(** When the first part holds a slash and no component of the name
    does, the pairwise test is the suffix test. *)
Lemma trailing_agree_rooted (x : string) (rest m : list string) :
  Str.contains "/" x = true →
  Forall (λ y, Str.contains "/" y = false) m →
  trailing_agree (x :: rest) m ↔ m `suffix_of` (x :: rest).
Proof.
  intros Hx Hm.
  destruct (decide (length m ≤ length (x :: rest))%nat) as [Hle|Hgt].
  { by apply trailing_agree_suffix. }
  split.
  - unfold trailing_agree, lastn. rewrite Nat.min_l by lia.
    rewrite Nat.sub_diag, drop_0. intros Heq.
    assert (x ∈ m) as Hin.
    { apply (subseteq_drop (length m - length (x :: rest))%nat m).
      rewrite <- Heq. constructor. }
    rewrite Forall_forall in Hm. specialize (Hm x Hin). congruence.
  - intros Hs%suffix_length. lia.
Qed.

End AbsoluteParts.

(** ** Claims about [is_local_source] *)

(** C1, as stated, fails twice.  With [/exp/bar.py] under [/exp] and the
    name [x./.exp.bar] the first two tiers do not decide (the relative parts
    differ from the name's parts and are not more numerous), the function
    answers true, and yet the four components of the name are not the
    trailing components of the three absolute module parts.  And for the
    empty file name, which is underneath the current directory, no tier
    decides: [os.path.relpath] raises. *)
Lemma is_local_source_longer_name :
  is_subdir (bare_runtime "/") "/exp/bar.py" "/exp" = true
  ∧ PosixPath.relpath (bare_runtime "/") "/exp/bar.py" "/exp" = Ok "bar.py"
  ∧ convert_path_to_module_parts "bar.py" = ["bar"]
  ∧ Str.split "." "x./.exp.bar" = ["x"; "/"; "exp"; "bar"]
  ∧ convert_path_to_module_parts
      (PosixPath.abspath (bare_runtime "/") "/exp/bar.py")
    = ["/"; "exp"; "bar"]
  ∧ is_local_source (bare_runtime "/") "/exp/bar.py" "x./.exp.bar" "/exp"
    = Ok true
  ∧ ¬ Str.split "." "x./.exp.bar"
      `suffix_of` convert_path_to_module_parts
                    (PosixPath.abspath (bare_runtime "/") "/exp/bar.py")
  ∧ is_subdir (bare_runtime "/exp") "" "/exp" = true
  ∧ is_local_source (bare_runtime "/exp") "" "foo" "/exp"
    = Raise (ValueError "no path specified").
Proof.
  split_and!; try by vm_compute.
  intros Hs. apply suffix_length in Hs. vm_compute in Hs. lia.
Qed.

(** C1, amended: for a non-empty file name, [is_local_source] returns a
    boolean decided by three ordered tiers: false when the file is not
    underneath the base path; otherwise true when the module parts of the
    relative path are the components of the dotted name; otherwise false
    when the relative path has more parts than the name; otherwise true
    exactly when the name's components and the absolute path's module parts
    agree on their last [k] components, [k] being the length of the shorter
    list.  When the name has no more components than the absolute path has
    parts, and also whenever the file name is absolute and the dotted name
    holds no slash, this says that the name's components are the trailing
    parts of the absolute path.  The three examples of the spec hold. *)
Theorem is_local_source_tiers (rt : Runtime) (filename modname base : string) :
  filename ≠ "" →
  ∃ rel_path,
    PosixPath.relpath rt filename base = Ok rel_path
    ∧ let path_parts := convert_path_to_module_parts rel_path in
      let mod_parts := Str.split "." modname in
      let abs_path_parts :=
        convert_path_to_module_parts (PosixPath.abspath rt filename) in
      is_local_source rt filename modname base
      = Ok (if negb (is_subdir rt filename base) then false
            else if bool_decide (path_parts = mod_parts) then true
            else if bool_decide (length mod_parts < length path_parts)%nat
                 then false
            else bool_decide (trailing_agree abs_path_parts mod_parts))
      ∧ ((length mod_parts ≤ length abs_path_parts)%nat →
         trailing_agree abs_path_parts mod_parts
         ↔ mod_parts `suffix_of` abs_path_parts)
      ∧ (PosixPath.isabs filename = true → Str.contains "/" modname = false →
         trailing_agree abs_path_parts mod_parts
         ↔ mod_parts `suffix_of` abs_path_parts)
      ∧ is_local_source rt "/exp/foo/bar.py" "foo.bar" "/exp" = Ok true
      ∧ is_local_source rt "/other/bar.py" "foo.bar" "/exp" = Ok false
      ∧ is_local_source rt "/exp/foo/bar/baz.py" "foo.bar" "/exp" = Ok false.
Proof.
  intros Hne.
  assert (Str.nonempty filename = true) as Hnonempty.
  { unfold Str.nonempty. by destruct (String.eqb_spec filename ""). }
  assert (∃ rel_path, PosixPath.relpath rt filename base = Ok rel_path)
    as [rel_path Hrel].
  { unfold PosixPath.relpath. rewrite Hnonempty. cbn [negb]. cbv zeta.
    destruct (_ ++ _)%list; eauto. }
  exists rel_path. split; [done|]. cbv zeta. split_and!.
  - unfold is_local_source. destruct (is_subdir rt filename base); [|done].
    cbn [negb]. rewrite Hrel. cbn [mbind result_bind].
    case_bool_decide; [done|].
    destruct (Nat.ltb_spec (length (Str.split "." modname))
                (length (convert_path_to_module_parts rel_path))).
    + by rewrite bool_decide_eq_true_2 by lia.
    + rewrite bool_decide_eq_false_2 by lia. f_equal.
      apply eq_true_iff_eq.
      rewrite all_zip_reversed_spec, bool_decide_eq_true. done.
  - apply trailing_agree_suffix.
  - intros Habs Hmod.
    destruct (convert_abs (PosixPath.abspath rt filename))
      as (x & rest & -> & Hx); [by apply abspath_abs|].
    apply trailing_agree_rooted; [|by apply split_contains].
    apply startswith_sep in Hx as [r ->]. apply contains_startswith.
  - by vm_compute.
  - by vm_compute.
  - by vm_compute.
Qed.

Lemma is_local_source_tiers_witness :
  "/exp/pkg/mod.py" ≠ ""
  ∧ is_local_source (bare_runtime "/home") "/exp/pkg/mod.py" "pkg.mod" "/exp"
    = Ok true.
Proof.
  split; [done|].
  destruct (is_local_source_tiers (bare_runtime "/home") "/exp/pkg/mod.py"
              "pkg.mod" "/exp") as (rel & Hrel & Hres & _); [done|].
  rewrite Hres. by vm_compute.
Defined.

(** ** The matcher and the version grammar *)

Section Matcher.

Lemma star_correct (p : N → bool) (prev : option N) (s : list N)
    (k : option N → list N → bool) :
  star p prev s k = true
  ↔ ∃ c', star_den p (prev, s) c' ∧ k c'.1 c'.2 = true.
Proof.
  revert prev. induction s as [|a s IH]; intros prev; cbn [star].
  - split.
    + intros Hk. exists (prev, []). split; [constructor | done].
    + intros (c' & Hd & Hk). by inversion Hd; subst.
  - rewrite orb_true_iff, andb_true_iff, IH. split.
    + intros [[Hp (c' & Hd & Hk)] | Hk].
      * exists c'. split; [by constructor | done].
      * exists (prev, a :: s). split; [constructor | done].
    + intros (c' & Hd & Hk). inversion Hd; subst; [by right|].
      left. eauto.
Qed.

Lemma lit_correct (l : list N) (prev : option N) (s : list N)
    (k : option N → list N → bool) :
  lit l prev s k = true
  ↔ ∃ c', lit_den l (prev, s) c' ∧ k c'.1 c'.2 = true.
Proof.
  revert prev s. induction l as [|a l IH]; intros prev s; cbn [lit lit_den].
  - split; [intros Hk; by exists (prev, s) | by intros (c' & -> & Hk)].
  - destruct s as [|b s]; cbn [snd].
    + split; [done | by intros (c' & (s' & ? & _) & _)].
    + rewrite andb_true_iff, IH. split.
      * intros [->%N.eqb_eq (c' & Hd & Hk)]. exists c'. eauto.
      * intros (c' & (s' & [= -> ->] & Hd) & Hk).
        rewrite N.eqb_refl. eauto.
Qed.

Lemma at_end_spec (s : list N) :
  at_end s = true ↔ s = [] ∨ s = [newline].
Proof.
  destruct s as [|c [|d s]]; cbn [at_end].
  - split; [by left | done].
  - rewrite N.eqb_eq. split; [intros ->; by right | by intros [? | [= ->]]].
  - split; [done | by intros [? | ?]].
Qed.

Lemma run_correct (r : re) (prev : option N) (s : list N)
    (k : option N → list N → bool) :
  run r prev s k = true ↔ ∃ c', den r (prev, s) c' ∧ k c'.1 c'.2 = true.
Proof.
  revert prev s k.
  induction r as [| | p | l | r1 IH1 r2 IH2 | r1 IH1 r2 IH2 | r1 IH1 | p | p | p];
    intros prev s k; cbn [run den].
  - destruct prev as [a|]; cbn [fst].
    + split; [done | by intros (c' & [? _] & _)].
    + split; [intros Hk; by exists (None, s) | by intros (c' & [_ ->] & Hk)].
  - rewrite andb_true_iff, at_end_spec. cbn [snd]. split.
    + intros [He Hk]. by exists (prev, s).
    + by intros (c' & [He ->] & Hk).
  - unfold chars_den. cbn [snd]. destruct s as [|a s].
    + split; [done | by intros (c' & (a & ? & _) & _)].
    + rewrite andb_true_iff. split.
      * intros [Hp Hk]. exists (Some a, s). eauto.
      * intros ([p' s'] & (b & [= -> ->] & Hp & Hb) & Hk).
        cbn [fst snd] in *. by subst.
  - apply lit_correct.
  - rewrite IH1. split.
    + intros ([p1 s1] & Hd1 & (c' & Hd2 & Hk)%IH2). eauto.
    + intros (c' & ([p1 s1] & Hd1 & Hd2) & Hk). exists (p1, s1).
      split; [done|]. apply IH2. eauto.
  - rewrite orb_true_iff, IH1, IH2. split.
    + intros [(c' & Hd & Hk) | (c' & Hd & Hk)]; eauto.
    + intros (c' & [Hd | Hd] & Hk); eauto.
  - rewrite orb_true_iff, IH1. split.
    + intros [(c' & Hd & Hk) | Hk]; [eauto|]. exists (prev, s). eauto.
    + intros (c' & [Hd | ->] & Hk); eauto.
  - apply star_correct.
  - unfold chars_den. cbn [snd]. destruct s as [|a s].
    + split; [done | by intros (c' & (m & (a & ? & _) & _) & _)].
    + rewrite andb_true_iff, star_correct. split.
      * intros [Hp (c' & Hd & Hk)]. exists c'. split; [|done].
        exists (Some a, s). eauto.
      * intros (c' & ([p' s'] & (b & [= -> ->] & Hp & Hb) & Hd) & Hk).
        cbn [fst snd] in *. subst. eauto.
  - destruct prev as [a|]; cbn [fst].
    + rewrite andb_true_iff. split.
      * intros [Hp Hk]. exists (Some a, s). eauto.
      * intros (c' & [(b & [= ->] & Hp) ->] & Hk). eauto.
    + split; [done | by intros (c' & [(b & ? & _) _] & _)].
Qed.

End Matcher.

Section Grammar.

Context (rt : Runtime).

Lemma after_app (prev : option N) (u v : list N) :
  after (after prev u) v = after prev (u ++ v)%list.
Proof.
  destruct u as [|a u]; [done|]. cbn [app after].
  destruct v as [|b v]; [by rewrite app_nil_r|]. cbn [after].
  f_equal. revert a. induction u as [|c u IH]; intros a; [done|].
  cbn [app last_char]. apply IH.
Qed.

Lemma position_eq (c c' : position) : c.1 = c'.1 → c.2 = c'.2 → c = c'.
Proof. destruct c, c'. cbn. by intros -> ->. Qed.

Lemma span_empty (P : list N → Prop) (c : position) : P [] → span P c c.
Proof. intros HP. by exists []. Qed.

(** One matcher after another reads the concatenation. *)
Lemma span_seq (P Q : list N → Prop) (c c' : position) :
  (∃ m, span P c m ∧ span Q m c')
  ↔ span (λ w, ∃ u v, w = (u ++ v)%list ∧ P u ∧ Q v) c c'.
Proof.
  split.
  - intros (m & (u & Hu & Hcu & Hmu) & (v & Hv & Hcv & Hmv)).
    exists (u ++ v)%list. split_and!; [by exists u, v | |].
    + by rewrite Hcu, Hcv, app_assoc.
    + by rewrite Hmv, Hmu, after_app.
  - intros (w & (u & v & -> & Hu & Hv) & Hc & Ha).
    exists (after c.1 u, (v ++ c'.2)%list). split.
    + exists u. split_and!; [done | | done]. cbn [snd]. by rewrite Hc, app_assoc.
    + exists v. split_and!; [done..|]. cbn [fst]. by rewrite Ha, after_app.
Qed.

Lemma span_opt (P : list N → Prop) (c c' : position) :
  (span P c c' ∨ c' = c) ↔ span (λ w, w = [] ∨ P w) c c'.
Proof.
  split.
  - intros [(w & Hw & Hc & Ha) | ->]; [by exists w; eauto|].
    apply span_empty. by left.
  - intros (w & [-> | Hw] & Hc & Ha).
    + right. by apply position_eq.
    + left. by exists w.
Qed.

Lemma span_iff (P Q : list N → Prop) (c c' : position) :
  (∀ w, P w ↔ Q w) → span P c c' ↔ span Q c c'.
Proof.
  intros HPQ. unfold span. split; intros (w & Hw & H); exists w;
    (split; [by apply HPQ | done]).
Qed.

Lemma star_den_span (p : N → bool) (c c' : position) :
  star_den p c c' ↔ span (λ w, all_chars p w = true) c c'.
Proof.
  split.
  - induction 1 as [c | prev a s c' Hp Hd (w & Hw & Hc & Ha)].
    + by apply span_empty.
    + exists (a :: w). cbn [fst snd] in *. split_and!.
      * cbn [all_chars]. by rewrite Hp, Hw.
      * by rewrite Hc.
      * rewrite Ha. by destruct w.
  - intros (w & Hw & Hc & Ha). destruct c as [prev s], c' as [prev' s'].
    cbn [fst snd] in *. subst s prev'. revert prev Hw.
    induction w as [|a w IH]; intros prev Hw; [constructor|].
    cbn [all_chars] in Hw. apply andb_true_iff in Hw as [Hp Hw].
    cbn [app]. constructor; [done|].
    replace (after prev (a :: w)) with (after (Some a) w)
      by (by destruct w).
    by apply IH.
Qed.

Lemma chars_den_span (p : N → bool) (c c' : position) :
  chars_den p c c' ↔ span (λ w, ∃ a, w = [a] ∧ p a = true) c c'.
Proof.
  split.
  - intros (a & Hc & Hp & Ha). exists [a]. split_and!; eauto.
  - intros (w & (a & -> & Hp) & Hc & Ha). exists a. eauto.
Qed.

Lemma lit_den_span (l : list N) (c c' : position) :
  lit_den l c c' ↔ span (λ w, w = l) c c'.
Proof.
  revert c. induction l as [|a l IH]; intros c; cbn [lit_den].
  - split; [intros ->; by apply span_empty|].
    intros (w & -> & Hc & Ha). by apply position_eq.
  - split.
    + intros (s & Hc & (w & Hw & Hs & Ha)%IH). cbn [fst snd] in *. subst w.
      exists (a :: l). split_and!; [done | by rewrite Hc, Hs |].
      rewrite Ha. by destruct l.
    + intros (w & -> & Hc & Ha). exists (l ++ c'.2)%list. split; [done|].
      apply IH. exists l. split_and!; [done..|]. rewrite Ha. by destruct l.
Qed.

Lemma plus_span (p : N → bool) (c c' : position) :
  (∃ m, chars_den p c m ∧ star_den p m c')
  ↔ span (λ w, w ≠ [] ∧ all_chars p w = true) c c'.
Proof.
  setoid_rewrite chars_den_span. setoid_rewrite star_den_span.
  rewrite span_seq. apply span_iff. intros w. split.
  - intros (u & v & -> & (a & -> & Hp) & Hv). split; [done|].
    cbn [app all_chars]. by rewrite Hp.
  - intros [Hne Hw]. destruct w as [|a w]; [done|].
    cbn [all_chars] in Hw. apply andb_true_iff in Hw as [Hp Hw].
    exists [a], w. eauto.
Qed.

Lemma number_span (c c' : position) :
  den (Plus (digit rt)) c c' ↔ span (number rt) c c'.
Proof. apply plus_span. Qed.

Lemma tagged_span (tag : string) (c c' : position) :
  den (Opt (Seq (Lit (Utf8.codes tag)) (Plus (digit rt)))) c c'
  ↔ span (tagged_part rt tag) c c'.
Proof.
  cbn [den]. setoid_rewrite lit_den_span. setoid_rewrite plus_span.
  rewrite span_seq, span_opt. apply span_iff. intros w. unfold tagged_part.
  split.
  - intros [-> | (u & v & -> & -> & Hn)]; [by left | right; by exists v].
  - intros [-> | (n & Hn & ->)]; [by left|].
    right. by exists (Utf8.codes tag), n.
Qed.

Lemma epoch_span (c c' : position) :
  den (Opt (Seq (Plus (digit rt)) (Lit (Utf8.codes "!")))) c c'
  ↔ span (epoch_part rt) c c'.
Proof.
  cbn [den]. setoid_rewrite lit_den_span. setoid_rewrite plus_span.
  rewrite span_seq, span_opt. apply span_iff. intros w. unfold epoch_part.
  split.
  - intros [-> | (u & v & -> & Hn & ->)]; [by left | right; by exists u].
  - intros [-> | (n & Hn & ->)]; [by left|].
    right. by exists n, (Utf8.codes "!").
Qed.

Lemma pre_span (c c' : position) :
  den (Opt (Seq (Alt (Chars (one_of "abc")) (Lit (Utf8.codes "rc")))
                (Plus (digit rt)))) c c'
  ↔ span (pre_part rt) c c'.
Proof.
  cbn [den]. setoid_rewrite plus_span. setoid_rewrite lit_den_span.
  setoid_rewrite chars_den_span.
  assert (∀ c c',
    (span (λ w, ∃ a, w = [a] ∧ one_of "abc" a = true) c c'
     ∨ span (λ w, w = Utf8.codes "rc") c c')
    ↔ span (λ t, t = Utf8.codes "a" ∨ t = Utf8.codes "b"
                 ∨ t = Utf8.codes "c" ∨ t = Utf8.codes "rc") c c') as Htag.
  { intros d d'. split.
    - intros [(w & (a & -> & Ha) & H) | (w & -> & H)].
      + exists [a]. split; [|exact H].
        unfold one_of in Ha.
        change (Utf8.codes "abc") with [97; 98; 99]%N in Ha.
        cbn [existsb] in Ha.
        apply orb_true_iff in Ha as [Ha|Ha];
          [apply N.eqb_eq in Ha; subst a; by left|].
        apply orb_true_iff in Ha as [Ha|Ha];
          [apply N.eqb_eq in Ha; subst a; right; by left|].
        apply orb_true_iff in Ha as [Ha|Ha]; [|done].
        apply N.eqb_eq in Ha; subst a. right; right; by left.
      + exists (Utf8.codes "rc"). split; [tauto | exact H].
    - intros (w & Hw & H).
      destruct Hw as [-> | [-> | [-> | ->]]].
      + left. exists (Utf8.codes "a"). split; [by exists 97%N | exact H].
      + left. exists (Utf8.codes "b"). split; [by exists 98%N | exact H].
      + left. exists (Utf8.codes "c"). split; [by exists 99%N | exact H].
      + right. by exists (Utf8.codes "rc"). }
  setoid_rewrite Htag. rewrite span_seq, span_opt. apply span_iff.
  intros w. unfold pre_part. split.
  - intros [-> | (u & v & -> & Ht & Hn)]; [by left | right; by exists u, v].
  - intros [-> | (t & n & Ht & Hn & ->)]; [by left | right; by exists t, n].
Qed.

Lemma release_span (c c' : position) :
  den (Seq (Chars (digit rt))
        (Seq (Star (λ c, one_of "." c || digit rt c))
             (LookBehind (digit rt)))) c c'
  ↔ span (release_part rt) c c'.
Proof.
  cbn [den]. split.
  - intros (m1 & (a & Hc & Hp & Ha) & m2 & (w & Hw & Hm & Hb)%star_den_span
            & (b & Hb' & Hd) & ->).
    exists (a :: w). split_and!.
    + exists a, w. split_and!; [done..|].
      rewrite Hb, Ha in Hb'. destruct w; cbn [after] in Hb'; by simplify_eq.
    + by rewrite Hc, Hm.
    + rewrite Hb, Ha. by destruct w.
  - intros (r & (a & w & -> & Hp & Hw & Hl) & Hc & Ha).
    exists (Some a, (w ++ c'.2)%list). split; [by exists a|].
    exists c'. split.
    + apply star_den_span. exists w. split_and!; [done..|].
      rewrite Ha. by destruct w.
    + split; [|done]. exists (last_char a w). by rewrite Ha.
Qed.

(** The pattern accepts exactly the versions of the grammar. *)
Lemma pep440_pattern_grammar (s : list N) :
  matches (PEP440_VERSION_PATTERN rt) s = true ↔ pep440_version rt s.
Proof.
  unfold matches. rewrite run_correct. unfold PEP440_VERSION_PATTERN.
  split.
  - intros (c' & Hd & _). cbn [den] in Hd.
    destruct Hd as (m0 & [_ ->] & m1 & He & m2 & Hr & m3 & Hp & m4 & Hpo
                    & m5 & Hdv & Hnl & ->).
    apply epoch_span in He as (e & He & Hce & _).
    apply (release_span m1 m2) in Hr as (r & Hr & Hcr & _).
    apply (pre_span m2 m3) in Hp as (p & Hp & Hcp & _).
    apply (tagged_span ".post" m3 m4) in Hpo as (po & Hpo & Hcpo & _).
    apply (tagged_span ".dev" m4 m5) in Hdv as (d & Hdv & Hcd & _).
    exists e, r, p, po, d, m5.2. split_and!; try done.
    cbn [snd] in Hce. by rewrite Hce, Hcr, Hcp, Hcpo, Hcd.
  - intros (e & r & p & po & d & nl & -> & He & Hr & Hp & Hpo & Hd & Hnl).
    set (c5 := (after (after (after (after (after None e) r) p) po) d, nl)).
    exists c5. split; [|done]. cbn [den].
    exists (None, (e ++ r ++ p ++ po ++ d ++ nl)%list). split; [done|].
    exists (after None e, (r ++ p ++ po ++ d ++ nl)%list).
    split; [apply epoch_span; by exists e|].
    exists (after (after None e) r, (p ++ po ++ d ++ nl)%list).
    split; [apply release_span; by exists r|].
    exists (after (after (after None e) r) p, (po ++ d ++ nl)%list).
    split; [apply pre_span; by exists p|].
    exists (after (after (after (after None e) r) p) po, (d ++ nl)%list).
    split; [apply (tagged_span ".post"); by exists po|].
    exists c5. split; [apply (tagged_span ".dev"); by exists d|].
    done.
Qed.

(** A digit of the grammar: [0] to [9], or a character above the ASCII
    range that the interpreter counts as a decimal digit. *)
Lemma digit_spec (c : N) :
  digit rt c = true
  ↔ (48 ≤ c ≤ 57)%N ∨ ((128 ≤ c)%N ∧ unicode_decimal rt c = true).
Proof.
  unfold digit. destruct (N.ltb_spec c 128).
  - rewrite andb_true_iff, !N.leb_le. split; [by left | intros [?|[? _]]; lia].
  - split; [by right | intros [?|[_ ?]]; [lia | done]].
Qed.

(** On ASCII text the code points are the bytes. *)
Lemma decode_ascii (s : string) :
  Forall (λ b, (N_of_ascii b < 128)%N) (list_ascii_of_string s) →
  Utf8.decode s = Utf8.codes s.
Proof.
  unfold Utf8.codes. induction s as [|b s IH]; [done|].
  cbn [list_ascii_of_string]. intros [Hb Hs]%Forall_cons.
  cbn [Utf8.decode map]. apply N.ltb_lt in Hb. rewrite Hb. by rewrite IH.
Qed.

End Grammar.

(** ** Claims about the version heuristic *)

Section VersionHeuristic.

Context (rt : Runtime).

Lemma probe_qualifies (m : PyModule) (vattr v : string) :
  probe_version_attribute rt m vattr = Some v ↔ qualifies rt m vattr v.
Proof.
  unfold probe_version_attribute, qualifies. split.
  - destruct (attrs m !! vattr) as [[| s | items |]|] eqn:E; try done.
    + destruct (version_matches rt s) eqn:Hm; [|done].
      intros [= <-]. exists (AStr s). done.
    + destruct (version_matches rt _) eqn:Hm; [|done].
      intros [= <-]. exists (ATuple items). done.
  - intros (val & -> & Hc & Hm).
    destruct val; simplify_eq/=; by rewrite Hm.
Qed.

Lemma probe_none (m : PyModule) (vattr : string) :
  probe_version_attribute rt m vattr = None ↔ ∀ w, ¬ qualifies rt m vattr w.
Proof.
  split.
  - intros Hp w Hq%probe_qualifies. congruence.
  - intros Hq. destruct (probe_version_attribute rt m vattr) as [w|] eqn:E;
      [|done].
    apply probe_qualifies in E. by destruct (Hq w).
Qed.

(** The loop returns what the first qualifying attribute qualifies
    with. *)
Lemma get_version_loop_some (m : PyModule) (vattrs : list string) (v : string) :
  get_version_loop rt m vattrs = Some v
  ↔ ∃ pre a post,
      vattrs = (pre ++ a :: post)%list
      ∧ qualifies rt m a v
      ∧ ∀ b, b ∈ pre → ∀ w, ¬ qualifies rt m b w.
Proof.
  induction vattrs as [|a0 vattrs IH]; simpl.
  - split; [done | intros (pre & a & post & Heq & _)]. by destruct pre.
  - destruct (probe_version_attribute rt m a0) as [w|] eqn:E.
    + apply probe_qualifies in E. split.
      * intros [= ->]. exists [], a0, vattrs. split_and!; [done..|].
        intros b Hb. by apply elem_of_nil in Hb.
      * intros (pre & a & post & Heq & Hq & Hpre).
        destruct pre as [|b pre]; simplify_eq/=.
        -- destruct E as (val & Hv & Hc & _), Hq as (val' & Hv' & Hc' & _).
           congruence.
        -- destruct (Hpre b (list_elem_of_here b pre) w E).
    + rewrite IH. pose proof (proj1 (probe_none m a0) E) as Hnone. split.
      * intros (pre & a & post & -> & Hq & Hpre).
        exists (a0 :: pre), a, post. split_and!; [done..|].
        intros b [->|Hb]%elem_of_cons; [done | by apply Hpre].
      * intros (pre & a & post & Heq & Hq & Hpre).
        destruct pre as [|b pre]; simplify_eq/=.
        -- destruct (Hnone v Hq).
        -- exists pre, a, post. split_and!; [done..|].
           intros b' Hb'. apply Hpre. by apply list_elem_of_further.
Qed.

Lemma get_version_loop_none (m : PyModule) (vattrs : list string) :
  get_version_loop rt m vattrs = None
  ↔ ∀ a, a ∈ vattrs → ∀ w, ¬ qualifies rt m a w.
Proof.
  induction vattrs as [|a0 vattrs IH]; simpl.
  - split; [|done]. intros _ a Ha. by apply elem_of_nil in Ha.
  - destruct (probe_version_attribute rt m a0) as [w|] eqn:E.
    + apply probe_qualifies in E. split; [done|].
      intros H. destruct (H a0 (list_elem_of_here _ _) w E).
    + rewrite IH. pose proof (proj1 (probe_none m a0) E) as Hnone. split.
      * intros H a [->|Ha]%elem_of_cons; [done | by apply H].
      * intros H a Ha. apply H. by apply list_elem_of_further.
Qed.

End VersionHeuristic.

(** C3, as stated, fails: the version ["1.0c1"] is outside the grammar
    with the pre-release tags [a], [b] and [rc], and the heuristic does not
    pass it over: it returns it. *)
Lemma get_version_heuristic_accepts_c :
  matches (claimed_version_pattern (bare_runtime "/")) (Utf8.decode "1.0c1")
  = false
  ∧ attrs legacy_module !! "__version__" = Some (AStr "1.0c1")
  ∧ get_version_heuristic (bare_runtime "/") legacy_module = Some "1.0c1".
Proof. split_and!; by vm_compute. Qed.

(** C3, amended: [get_version_heuristic] probes [__version__], [VERSION],
    [version] in that order and returns what the first qualifying attribute
    holds: a string matching [PEP440_VERSION_PATTERN], or the dot-joined
    rendering of a tuple when that rendering matches; values failing the
    pattern are passed over, and the result is [None] exactly when no
    attribute qualifies.  The pattern accepts exactly the texts of the form
    [[N!]release[(a|b|c|rc)N][.postN][.devN]], where [N] is a run of
    decimal digits, the release is made of digits and dots from a digit to
    a digit, and a final newline is let through by [$].  A digit is what
    [\d] matches in a text pattern: [0] to [9], and above the ASCII range
    every character that the interpreter counts as a decimal digit.  A
    module whose only version attribute is [__version__ = "not-a-version"]
    gives [None]; [__version__ = (1,2,3)] gives ["1.2.3"]. *)
Theorem get_version_heuristic_spec (rt : Runtime) (m : PyModule) :
  possible_version_attributes = ["__version__"; "VERSION"; "version"]
  ∧ (∀ v, get_version_heuristic rt m = Some v
          ↔ ∃ pre a post,
              possible_version_attributes = (pre ++ a :: post)%list
              ∧ qualifies rt m a v
              ∧ ∀ b, b ∈ pre → ∀ w, ¬ qualifies rt m b w)
  ∧ (get_version_heuristic rt m = None
     ↔ ∀ a, a ∈ possible_version_attributes → ∀ w, ¬ qualifies rt m a w)
  ∧ (∀ s, version_matches rt s = true ↔ pep440_version rt (Utf8.decode s))
  ∧ (∀ w, matches (PEP440_VERSION_PATTERN rt) w = true ↔ pep440_version rt w)
  ∧ (∀ c, digit rt c = true
          ↔ (48 ≤ c ≤ 57)%N ∨ ((128 ≤ c)%N ∧ unicode_decimal rt c = true))
  ∧ (∀ s, Forall (λ b, (N_of_ascii b < 128)%N) (list_ascii_of_string s) →
          Utf8.decode s = Utf8.codes s)
  ∧ (attrs m !! "__version__" = Some (AStr "not-a-version") →
     attrs m !! "VERSION" = None → attrs m !! "version" = None →
     get_version_heuristic rt m = None)
  ∧ (attrs m !! "__version__" = Some (ATuple [IInt 1; IInt 2; IInt 3]) →
     get_version_heuristic rt m = Some "1.2.3").
Proof.
  split_and!.
  - done.
  - intros v. apply get_version_loop_some.
  - apply get_version_loop_none.
  - intros s. apply pep440_pattern_grammar.
  - apply pep440_pattern_grammar.
  - apply digit_spec.
  - apply decode_ascii.
  - intros H1 H2 H3. unfold get_version_heuristic, possible_version_attributes.
    cbn [get_version_loop]. unfold probe_version_attribute.
    rewrite H1, H2, H3. by vm_compute.
  - intros H1. unfold get_version_heuristic, possible_version_attributes.
    cbn [get_version_loop]. unfold probe_version_attribute.
    rewrite H1. by vm_compute.
Qed.

(** ** Claims about [Source] *)

Section SourceIdentity.

(** Objects that compare equal have equal hashes, so the hash test of a
    set lookup never hides an equal element. *)
Lemma py_eq_hash (rt : Runtime) (a b : PyObj) :
  py_eq a b = true → obj_hash rt a = obj_hash rt b.
Proof.
  destruct a as [|x|s], b as [|y|t]; simpl; try done;
    unfold Source_hash; by intros ->%String.eqb_eq.
Qed.

Lemma in_set_spec (rt : Runtime) (key : PyObj) (S : list PyObj) :
  in_set rt key S = true ↔ ∃ e, e ∈ S ∧ py_eq e key = true.
Proof.
  unfold in_set. rewrite existsb_exists. split.
  - intros (e & Hin%list_elem_of_In & [_ He]%andb_true_iff). eauto.
  - intros (e & Hin%list_elem_of_In & He). exists e. split; [done|].
    rewrite (py_eq_hash rt _ _ He), Z.eqb_refl. done.
Qed.

Lemma str_compare_refl (s : string) : String.compare s s = Eq.
Proof.
  induction s as [|a s IH]; simpl; [done|].
  unfold Ascii.compare. by rewrite N.compare_refl.
Qed.

Lemma py_eq_filename (s : Source) (o : PyObj) (t : Source) :
  filename s = filename t → py_eq o (OSrc s) = py_eq o (OSrc t).
Proof. destruct o; simpl; intros H; by rewrite ?H. Qed.

End SourceIdentity.

(** C5: two [Source] values are equal exactly when their file names are,
    and the hash of a [Source] is a function of its file name; so a
    [Source] added to a set that holds one with the same file name leaves
    the set as it is, whatever the digest, repository, commit and dirty
    flag: two of them collapse to one element.  The comparisons [<=], [<],
    [>], [>=] look at the file names only. *)
Theorem Source_identity_by_filename :
  (∀ s1 s2, Source_eq s1 (OSrc s2) = true ↔ filename s1 = filename s2)
  ∧ (∀ rt s1 s2, filename s1 = filename s2 →
                 Source_hash rt s1 = Source_hash rt s2)
  ∧ (∀ rt s1 s2 S, filename s1 = filename s2 →
                   in_set rt (OSrc s1) S = true →
                   set_add rt (OSrc s2) S = S)
  ∧ (∀ rt s1 s2, filename s1 = filename s2 →
                 set_add rt (OSrc s2) (set_add rt (OSrc s1) []) = [OSrc s1])
  ∧ (∀ s1 s2, Source_le s1 s2 = String.leb (filename s1) (filename s2)
              ∧ Source_lt s1 s2 = String.ltb (filename s1) (filename s2)
              ∧ Source_gt s1 s2 = String.ltb (filename s2) (filename s1)
              ∧ Source_ge s1 s2 = String.leb (filename s2) (filename s1)).
Proof.
  split_and!.
  - intros s1 s2. simpl. apply String.eqb_eq.
  - intros rt s1 s2 H. unfold Source_hash. by rewrite H.
  - intros rt s1 s2 S Hf Hin. unfold set_add.
    assert (in_set rt (OSrc s2) S = true) as ->; [|done].
    apply in_set_spec in Hin as (e & He & Heq). apply in_set_spec.
    exists e. split; [done|]. by rewrite <- (py_eq_filename s1 e s2 Hf).
  - intros rt s1 s2 Hf. unfold set_add at 2. cbn [in_set existsb app].
    unfold set_add. cbn [in_set existsb obj_hash py_eq Source_eq].
    unfold Source_hash. rewrite Hf, Z.eqb_refl, String.eqb_refl. done.
  - intros s1 s2.
    unfold Source_lt, Source_gt, Source_ge, Source_le, Source_eq.
    unfold String.leb, String.ltb.
    rewrite (String.compare_antisym (filename s2) (filename s1)).
    destruct (String.compare (filename s1) (filename s2)) eqn:E; simpl;
      try (apply String.compare_eq_iff in E; rewrite E, String.eqb_refl);
      try done.
    destruct (String.eqb_spec (filename s1) (filename s2)) as [He|]; [|done].
    rewrite He, str_compare_refl in E. done.
Qed.

(** C9: for a file name that is [None], empty, or names no existing file,
    [Source.create] raises the ValueError whose message quotes that file
    name, and builds no [Source].  The error is not swallowed by the
    callers: [get_main_file] and [gather_sources_and_dependencies] raise it
    for a namespace whose [__file__] is such a name, and so does the loop
    body of [get_sources_from_modules] for a local module with such a
    file. *)
Theorem Source_create_invalid (rt : Runtime) (filename : option string) :
  (filename = None ∨ filename = Some ""
   ∨ ∃ f, filename = Some f ∧ path_exists rt f = false) →
  let err :=
    ValueError ("invalid filename or file not found " +:+ dquote
                +:+ format_filename filename +:+ dquote) in
  Source_create rt filename = Raise err
  ∧ (∀ s, Source_create rt filename ≠ Ok s)
  ∧ (∀ globs, ns_file globs = filename → filename ≠ None →
       get_main_file rt globs = Raise err
       ∧ gather_sources_and_dependencies rt globs = Raise err)
  ∧ (∀ base sources modname m file,
       mod_file m = Some (Some file) →
       filename = Some (PosixPath.abspath rt file) →
       in_set rt (OStr (PosixPath.abspath rt file)) sources = false →
       is_local_source rt (PosixPath.abspath rt file) modname base = Ok true →
       sources_step rt base sources (modname, m) = Raise err).
Proof.
  intros Hbad. cbv zeta.
  assert (Source_create rt filename = Raise (invalid_filename filename)) as Hc.
  { destruct Hbad as [-> | [-> | (f & -> & Hf)]]; [done..|].
    unfold Source_create. rewrite Hf. by rewrite orb_true_r. }
  fold (invalid_filename filename). split_and!.
  - done.
  - intros s. by rewrite Hc.
  - intros globs Hfile Hsome.
    assert (get_main_file rt globs = Raise (invalid_filename filename)) as Hm.
    { unfold get_main_file. rewrite Hfile.
      destruct filename; [|done]. by rewrite Hc. }
    split; [done|]. unfold gather_sources_and_dependencies. by rewrite Hm.
  - intros base sources modname m file Hfile -> Hin Hlocal.
    unfold sources_step. rewrite Hfile, Hin, Hlocal. cbn [negb mbind result_bind].
    by rewrite Hc.
Qed.

Lemma Source_create_invalid_witness :
  path_exists (bare_runtime "/") "/exp/missing.py" = false
  ∧ Source_create (bare_runtime "/") (Some "/exp/missing.py")
    = Raise (ValueError ("invalid filename or file not found " +:+ dquote
                         +:+ "/exp/missing.py" +:+ dquote)).
Proof.
  split; [reflexivity|].
  apply (Source_create_invalid (bare_runtime "/") (Some "/exp/missing.py")).
  right. right. exists "/exp/missing.py". split; reflexivity.
Defined.

(** ** Streaming MD5 *)

Section Md5Streaming.

Import MD5.

Lemma absorb_fuel_enough (n m : nat) (st : state) (d : list Byte.byte) :
  (length d ≤ n)%nat → (length d ≤ m)%nat →
  absorb_fuel n st d = absorb_fuel m st d.
Proof.
  revert m st d. induction n as [|n IH]; intros m st d Hn Hm.
  - destruct d; [|simpl in Hn; lia]. by destruct m.
  - destruct m as [|m].
    { destruct d; [done | simpl in Hm; lia]. }
    cbn [absorb_fuel].
    destruct (Nat.leb_spec block_size (length d)) as [Hb|]; [|done].
    unfold block_size in *. apply IH; rewrite length_drop; lia.
Qed.

(** [absorb], as the loop over complete blocks unrolls. *)
Lemma absorb_unfold (st : state) (d : list Byte.byte) :
  absorb st d =
    if (block_size <=? length d)%nat
    then absorb (compress st (take block_size d)) (drop block_size d)
    else (st, d).
Proof.
  unfold absorb at 1. destruct (length d) as [|k] eqn:Hk.
  { by destruct d. }
  cbn [absorb_fuel]. rewrite Hk.
  destruct (Nat.leb_spec block_size (S k)) as [Hb|]; [|done].
  unfold absorb. apply absorb_fuel_enough; [|done].
  rewrite length_drop. unfold block_size in *. lia.
Qed.

(** Absorbing a message in two pieces, the second prefixed with what the
    first left over, is absorbing it whole. *)
Lemma absorb_app (st : state) (a b : list Byte.byte) :
  absorb st (a ++ b)%list
  = let '(st', r) := absorb st a in absorb st' (r ++ b)%list.
Proof.
  remember (length a) as n eqn:Hn. revert st a Hn.
  induction n as [n IH] using lt_wf_ind. intros st a ->.
  rewrite (absorb_unfold st a).
  destruct (Nat.leb_spec block_size (length a)) as [Hb|Hb]; [|done].
  rewrite (absorb_unfold st (a ++ b)), length_app.
  rewrite (proj2 (Nat.leb_le _ _)) by lia.
  rewrite take_app_le, drop_app_le by done.
  apply (IH (length (drop block_size a))); [|done].
  rewrite length_drop. unfold block_size in *. lia.
Qed.

Lemma represents_new : represents new [].
Proof. done. Qed.

Lemma represents_update (h : ctx) (msg data : list Byte.byte) :
  represents h msg → represents (update h data) (msg ++ data)%list.
Proof.
  intros [Habs Hfed]. unfold represents, update.
  rewrite (absorb_app init msg data), Habs, length_app, Hfed.
  by destruct (absorb (chain h) (pending h ++ data)).
Qed.

Lemma represents_hexdigest (h : ctx) (msg : list Byte.byte) :
  represents h msg → hexdigest h = hex (md5 msg).
Proof.
  intros [Habs Hfed]. unfold hexdigest, digest, md5.
  by rewrite (absorb_app init msg), Habs, Hfed.
Qed.

End Md5Streaming.

(** ** Claims about [get_digest] *)

Section Digest.

Lemma file_read_spec (n : Z) (f : list Byte.byte) :
  0 < n →
  ((file_read n f).1 ++ (file_read n f).2)%list = f
  ∧ ((file_read n f).1 = [] → (file_read n f).2 = []).
Proof.
  intros Hn. unfold file_read. cbn [fst snd]. split; [apply take_drop|].
  destruct (Z.to_nat n) as [|k] eqn:Hk; [lia|].
  by destruct f.
Qed.

Lemma get_digest_loop_spec (fuel : nat) (h : MD5.ctx)
    (msg data f : list Byte.byte) :
  MD5.represents h msg → (data = [] → f = []) →
  (length data + length f < fuel)%nat →
  MD5.represents (get_digest_loop fuel h data f) (msg ++ data ++ f)%list.
Proof.
  revert h msg data f. induction fuel as [|fuel IH];
    intros h msg data f Hrep Heof Hfuel; [lia|].
  cbn [get_digest_loop]. destruct data as [|b data].
  { rewrite Heof by done. by rewrite !app_nil_r. }
  destruct (file_read_spec (1 * MB) f) as [Happ Hnil]; [done|].
  destruct (file_read (1 * MB) f) as [data' f'] eqn:Hread.
  cbn [fst snd] in Happ, Hnil.
  replace (msg ++ (b :: data) ++ f)%list
    with ((msg ++ b :: data) ++ data' ++ f')%list.
  2:{ by rewrite <- Happ, <- !app_assoc. }
  apply IH; [by apply represents_update | done |].
  apply (f_equal length) in Happ. rewrite length_app in Happ.
  simpl in Hfuel. lia.
Qed.

End Digest.

(** C8: [get_digest] reads the file in chunks of 1 MiB and feeds each one
    to a running MD5 state; the hex digest it returns is that of MD5
    computed over the whole content in one pass.  Hence two calls that find
    the same content return the same digest. *)
Theorem get_digest_is_md5 (rt : Runtime) (filename : string)
    (content : list Byte.byte) :
  file_bytes rt filename = Some content →
  get_digest rt filename = Ok (MD5.hex (MD5.md5 content))
  ∧ MB = 1024 * 1024
  ∧ (∀ rt' filename', file_bytes rt' filename' = Some content →
       get_digest rt' filename' = get_digest rt filename).
Proof.
  assert (∀ rt0 name, file_bytes rt0 name = Some content →
            get_digest rt0 name = Ok (MD5.hex (MD5.md5 content))) as Hall.
  { intros rt0 name Hfile. unfold get_digest. rewrite Hfile.
    destruct (file_read_spec (1 * MB) content) as [Happ Hnil]; [done|].
    destruct (file_read (1 * MB) content) as [data f] eqn:Hread.
    cbn [fst snd] in Happ, Hnil. f_equal.
    apply represents_hexdigest.
    rewrite <- Happ at 2.
    apply (get_digest_loop_spec _ MD5.new [] data f);
      [apply represents_new | done |].
    apply (f_equal length) in Happ. rewrite length_app in Happ. lia. }
  intros Hfile. split_and!; [by apply Hall | done |].
  intros rt' filename' Hfile'. by rewrite !Hall.
Qed.

Lemma get_digest_is_md5_witness :
  file_bytes (disk_runtime "/" "/exp/run.py" (list_byte_of_string "abc"))
             "/exp/run.py"
  = Some (list_byte_of_string "abc")
  ∧ get_digest (disk_runtime "/" "/exp/run.py" (list_byte_of_string "abc"))
               "/exp/run.py"
    = Ok "900150983cd24fb0d6963f7d28e17f72".
Proof.
  split; [reflexivity|].
  refine (proj1 (get_digest_is_md5 _ "/exp/run.py"
                   (list_byte_of_string "abc") _)).
  reflexivity.
Defined.

(** ** Sets and loops *)

Section Sets.

Context (rt : Runtime).

Lemma py_eq_refl (o : PyObj) : py_eq o o = true.
Proof. destruct o; simpl; by rewrite ?String.eqb_refl. Qed.

Lemma in_set_add (key o : PyObj) (S : list PyObj) :
  in_set rt key S = true → in_set rt key (set_add rt o S) = true.
Proof.
  unfold set_add. destruct (in_set rt o S); [done|].
  unfold in_set. rewrite existsb_app. by intros ->.
Qed.

Lemma in_set_add_self (o : PyObj) (S : list PyObj) :
  in_set rt o (set_add rt o S) = true.
Proof.
  unfold set_add. destruct (in_set rt o S) eqn:E; [done|].
  unfold in_set. rewrite existsb_app. cbn [existsb].
  by rewrite Z.eqb_refl, py_eq_refl, orb_true_r.
Qed.

Lemma elem_of_set_add (x o : PyObj) (S : list PyObj) :
  x ∈ set_add rt o S → x ∈ S ∨ x = o.
Proof.
  unfold set_add. destruct (in_set rt o S); [by left|].
  rewrite elem_of_app, list_elem_of_singleton. done.
Qed.

Lemma dep_in_set_spec (key : PackageDependency) (D : list PackageDependency) :
  dep_in_set rt key D = true ↔ ∃ e, e ∈ D ∧ name e = name key.
Proof.
  unfold dep_in_set, PackageDependency_hash, PackageDependency_eq.
  rewrite existsb_exists. split.
  - intros (e & Hin%list_elem_of_In & [_ He%String.eqb_eq]%andb_true_iff).
    eauto.
  - intros (e & Hin%list_elem_of_In & He). exists e. split; [done|].
    by rewrite He, Z.eqb_refl, String.eqb_refl.
Qed.

Lemma dep_in_set_add (key d : PackageDependency) (D : list PackageDependency) :
  dep_in_set rt key D = true → dep_in_set rt key (dep_add rt d D) = true.
Proof.
  unfold dep_add. destruct (dep_in_set rt d D); [done|].
  unfold dep_in_set. rewrite existsb_app. by intros ->.
Qed.

Lemma dep_in_set_add_self (d : PackageDependency) (D : list PackageDependency) :
  dep_in_set rt d (dep_add rt d D) = true.
Proof.
  unfold dep_add. destruct (dep_in_set rt d D) eqn:E; [done|].
  apply dep_in_set_spec. exists d. split; [|done].
  apply elem_of_app. right. constructor.
Qed.

Lemma elem_of_dep_add (x d : PackageDependency) (D : list PackageDependency) :
  x ∈ dep_add rt d D → x ∈ D ∨ x = d.
Proof.
  unfold dep_add. destruct (dep_in_set rt d D); [by left|].
  rewrite elem_of_app, list_elem_of_singleton. done.
Qed.

End Sets.

Section Loops.

Context {A B : Type} (body : A → B → result A).

(** What every round preserves holds when the loop ends normally. *)
Lemma for_each_preserves (P : A → Prop) (l : list B) (acc r : A) :
  (∀ a x a', x ∈ l → P a → body a x = Ok a' → P a') →
  P acc → for_each body acc l = Ok r → P r.
Proof.
  revert acc. induction l as [|x l IH]; intros acc Hstep Hacc Hrun;
    simpl in Hrun.
  - by simplify_eq.
  - destruct (body acc x) as [acc'|e] eqn:Hb; [|done].
    cbn [mbind result_bind] in Hrun.
    apply (IH acc'); [|by eapply Hstep; [constructor|..]|done].
    intros a y a' Hy. apply Hstep. by constructor.
Qed.

(** What the round of an item establishes, and later rounds keep, holds
    of every item when the loop ends normally. *)
Lemma for_each_establishes (Q : B → A → Prop) (l : list B) (acc r : A) :
  (∀ a x a', body a x = Ok a' → Q x a') →
  (∀ a x a' y, body a x = Ok a' → Q y a → Q y a') →
  for_each body acc l = Ok r →
  ∀ x, x ∈ l → Q x r.
Proof.
  intros Hstep Hmono. revert acc.
  induction l as [|x l IH]; intros acc Hrun y Hy; simpl in Hrun.
  - by apply elem_of_nil in Hy.
  - destruct (body acc x) as [acc'|e] eqn:Hb; [|done].
    cbn [mbind result_bind] in Hrun.
    apply elem_of_cons in Hy as [->|Hy]; [|by eapply IH].
    apply (for_each_preserves (Q x) l acc' r); [|by eapply Hstep|done].
    intros a z a' _ Hq Hbz. by eapply Hmono.
Qed.

End Loops.

(** ** The classifier *)

Section Classifier.

Context (rt : Runtime) (base : string).

Lemma normpath_nonempty (p : string) : PosixPath.normpath p ≠ "".
Proof.
  unfold PosixPath.normpath. destruct (negb (Str.nonempty p)); [done|].
  cbv zeta. set (q := Str.repeat _ _ +:+ _). unfold Str.nonempty.
  by destruct (String.eqb_spec q "").
Qed.

Lemma abspath_nonempty (p : string) : PosixPath.abspath rt p ≠ "".
Proof. apply normpath_nonempty. Qed.

Lemma relpath_total (filename : string) :
  filename ≠ "" → ∃ rel_path, PosixPath.relpath rt filename base = Ok rel_path.
Proof.
  intros Hne. unfold PosixPath.relpath.
  assert (Str.nonempty filename = true) as ->.
  { unfold Str.nonempty. by destruct (String.eqb_spec filename ""). }
  cbn [negb]. cbv zeta. destruct (_ ++ _)%list; eauto.
Qed.

Lemma is_local_source_total (filename modname : string) :
  filename ≠ "" → ∃ b, is_local_source rt filename modname base = Ok b.
Proof.
  intros Hne. unfold is_local_source.
  destruct (negb _); [eauto|].
  destruct (relpath_total filename Hne) as [rel ->].
  cbn [mbind result_bind]. repeat case_match; eauto.
Qed.

(** The test that opens the dependency loop raises for a [__file__] that
    is not a string, and only then. *)
Lemma has_local_file_total (modname : string) (m : PyModule) :
  mod_file m ≠ Some None → ∃ b, has_local_file rt base modname m = Ok b.
Proof.
  unfold has_local_file. destruct (mod_file m) as [[file|]|]; [|done|eauto].
  intros _. apply is_local_source_total, abspath_nonempty.
Qed.

Lemma has_local_file_raises (modname : string) (m : PyModule) (e : exn) :
  has_local_file rt base modname m = Raise e
  ↔ mod_file m = Some None ∧ e = TypeError.
Proof.
  unfold has_local_file. destruct (mod_file m) as [[file|]|].
  - destruct (is_local_source_total (PosixPath.abspath rt file) modname
                (abspath_nonempty file)) as [b ->].
    split; [done | by intros [? _]].
  - split; [by intros [= <-] | by intros [_ ->]].
  - split; [done | by intros [? _]].
Qed.

(** *** Sources *)

Lemma sources_step_origin (S S' : list PyObj) (n : string) (m : PyModule) :
  sources_step rt base S (n, m) = Ok S' →
  ∀ o, o ∈ S' →
    o ∈ S
    ∨ ∃ file s, o = OSrc s ∧ mod_file m = Some (Some file)
                ∧ has_local_file rt base n m = Ok true
                ∧ Source_create rt (Some (PosixPath.abspath rt file)) = Ok s.
Proof.
  unfold sources_step, has_local_file.
  destruct (mod_file m) as [[file|]|]; [|done|intros [= <-]; eauto].
  destruct (negb _); [|intros [= <-]; eauto].
  destruct (is_local_source _ _ _ _) as [[|]|e]; cbn [mbind result_bind];
    [|intros [= <-]; eauto|done].
  destruct (Source_create _ _) as [s|e] eqn:Hc; cbn [mbind result_bind];
    [|done].
  intros [= <-] o [Ho | ->]%elem_of_set_add; [by left|].
  right. eauto 10.
Qed.

Lemma sources_step_grows (S S' : list PyObj) (item : string * PyModule)
    (key : PyObj) :
  sources_step rt base S item = Ok S' →
  in_set rt key S = true → in_set rt key S' = true.
Proof.
  destruct item as [n m]. unfold sources_step.
  destruct (mod_file m) as [[file|]|]; [|done|by intros [= <-]].
  destruct (negb _); [|by intros [= <-]].
  destruct (is_local_source _ _ _ _) as [[|]|e]; cbn [mbind result_bind];
    [|by intros [= <-]|done].
  destruct (Source_create _ _) as [s|e]; cbn [mbind result_bind]; [|done].
  intros [= <-]. apply in_set_add.
Qed.

Lemma sources_step_local (S S' : list PyObj) (item : string * PyModule) :
  sources_step rt base S item = Ok S' → source_recorded rt base item S'.
Proof.
  destruct item as [n m]. unfold sources_step, source_recorded, has_local_file.
  cbn [fst snd].
  destruct (mod_file m) as [[file|]|]; [|done..].
  destruct (in_set rt (OStr _) S) eqn:Hin; cbn [negb].
  { intros [= <-] _. eauto. }
  destruct (is_local_source _ _ _ _) as [[|]|e]; cbn [mbind result_bind];
    [|done..].
  destruct (Source_create _ _) as [s|e] eqn:Hc; cbn [mbind result_bind];
    [|done].
  intros [= <-] _. exists file. split; [done|]. right. exists s.
  split; [done|]. apply in_set_add_self.
Qed.

Lemma sources_step_not_local (S : list PyObj) (n : string) (m : PyModule) :
  has_local_file rt base n m = Ok false →
  sources_step rt base S (n, m) = Ok S.
Proof.
  unfold sources_step, has_local_file.
  destruct (mod_file m) as [[file|]|]; [|done..].
  intros ->. cbn [mbind result_bind]. by destruct (negb _).
Qed.

(** *** Dependencies *)

Lemma kept_test (d : PackageDependency) :
  negb (Str.contains "." (name d)) || bool_decide (version d ≠ None)
  = bool_decide (kept d).
Proof.
  apply eq_true_iff_eq.
  rewrite orb_true_iff, negb_true_iff, !bool_decide_eq_true.
  unfold kept. tauto.
Qed.

Lemma dependencies_step_local (D : list PackageDependency) (n : string)
    (m : PyModule) :
  has_local_file rt base n m = Ok true →
  dependencies_step rt base D (n, m) = Ok D.
Proof. unfold dependencies_step. by intros ->. Qed.

Lemma dependencies_step_not_local (D : list PackageDependency) (n : string)
    (m : PyModule) :
  has_local_file rt base n m = Ok false →
  dependencies_step rt base D (n, m)
  = Ok match PackageDependency_create rt m with
       | Ok d => if bool_decide (kept d) then dep_add rt d D else D
       | Raise _ => D
       end.
Proof.
  unfold dependencies_step. intros ->. cbn [mbind result_bind].
  unfold PackageDependency_create. destruct (mod_name m) as [nm|]; [|done].
  rewrite kept_test. by destruct (bool_decide _).
Qed.

(** The round raises exactly when its opening test does. *)
Lemma dependencies_step_raises (D : list PackageDependency) (n : string)
    (m : PyModule) (e : exn) :
  dependencies_step rt base D (n, m) = Raise e
  ↔ mod_file m = Some None ∧ e = TypeError.
Proof.
  rewrite <- (has_local_file_raises n m e).
  destruct (has_local_file rt base n m) as [[|]|e'] eqn:Hb.
  - rewrite dependencies_step_local by done. split; done.
  - rewrite dependencies_step_not_local by done. split; done.
  - unfold dependencies_step. rewrite Hb. cbn [mbind result_bind].
    split; congruence.
Qed.

Lemma dependencies_step_total (D : list PackageDependency)
    (item : string * PyModule) :
  mod_file item.2 ≠ Some None →
  ∃ D', dependencies_step rt base D item = Ok D'.
Proof.
  destruct item as [n m]. cbn [snd]. intros Hfile.
  destruct (has_local_file_total n m Hfile) as [[|] Hb].
  - rewrite dependencies_step_local by done. eauto.
  - rewrite dependencies_step_not_local by done. eauto.
Qed.

Lemma dependencies_step_origin (D D' : list PackageDependency) (n : string)
    (m : PyModule) :
  dependencies_step rt base D (n, m) = Ok D' →
  ∀ d, d ∈ D' →
    d ∈ D
    ∨ (has_local_file rt base n m = Ok false
       ∧ PackageDependency_create rt m = Ok d ∧ kept d).
Proof.
  destruct (has_local_file rt base n m) as [[|]|e] eqn:Hb.
  - rewrite dependencies_step_local by done. intros [= <-]. eauto.
  - rewrite dependencies_step_not_local by done.
    destruct (PackageDependency_create rt m) as [p|e]; [|intros [= <-]; eauto].
    case_bool_decide; [|intros [= <-]; eauto].
    intros [= <-] d [Hd | ->]%elem_of_dep_add; eauto.
  - unfold dependencies_step. by rewrite Hb.
Qed.

Lemma dependencies_step_grows (D D' : list PackageDependency)
    (item : string * PyModule) (key : PackageDependency) :
  dependencies_step rt base D item = Ok D' →
  dep_in_set rt key D = true → dep_in_set rt key D' = true.
Proof.
  destruct item as [n m].
  destruct (has_local_file rt base n m) as [[|]|e] eqn:Hb.
  - rewrite dependencies_step_local by done. by intros [= <-].
  - rewrite dependencies_step_not_local by done.
    destruct (PackageDependency_create rt m) as [p|e]; [|by intros [= <-]].
    case_bool_decide; [|by intros [= <-]].
    intros [= <-]. apply dep_in_set_add.
  - unfold dependencies_step. by rewrite Hb.
Qed.

Lemma dependencies_step_kept (D D' : list PackageDependency)
    (item : string * PyModule) :
  dependencies_step rt base D item = Ok D' → dependency_recorded rt base item D'.
Proof.
  destruct item as [n m]. unfold dependency_recorded. cbn [fst snd].
  intros Hstep Hb d Hd Hk. rewrite dependencies_step_not_local in Hstep by done.
  rewrite Hd, bool_decide_eq_true_2 in Hstep by done.
  injection Hstep as <-. apply dep_in_set_add_self.
Qed.

End Classifier.

Section ClassifierRuns.

Context (rt : Runtime) (base : string).

Lemma for_iter_ok {A : Type} (body : A → string * PyModule → result A)
    (acc r : A) (it : Iter) :
  for_iter body acc it = Ok r → for_each body acc (items it) = Ok r.
Proof.
  unfold for_iter. destruct (for_each body acc (items it)); [|done].
  cbn [mbind result_bind]. by destruct (failure it).
Qed.

Lemma sources_origin (it : Iter) (S : list PyObj) :
  get_sources_from_modules rt it base = Ok S →
  ∀ o, o ∈ S →
    ∃ n m file s,
      (n, m) ∈ items it ∧ o = OSrc s ∧ mod_file m = Some (Some file)
      ∧ has_local_file rt base n m = Ok true
      ∧ Source_create rt (Some (PosixPath.abspath rt file)) = Ok s.
Proof.
  intros Hrun%for_iter_ok.
  refine (for_each_preserves _ (λ S, ∀ o, o ∈ S → _) _ _ _ _ _ Hrun).
  - intros S0 [n m] S1 Hin HS0 Hstep o Ho.
    destruct (sources_step_origin rt base S0 S1 n m Hstep o Ho)
      as [Hold | (file & s & -> & Hf & Hl & Hc)]; [by apply HS0|].
    by exists n, m, file, s.
  - intros o Ho. by apply elem_of_nil in Ho.
Qed.

Lemma sources_recorded (it : Iter) (S : list PyObj) :
  get_sources_from_modules rt it base = Ok S →
  ∀ item, item ∈ items it → source_recorded rt base item S.
Proof.
  intros Hrun%for_iter_ok.
  refine (for_each_establishes _ (source_recorded rt base) _ _ _ _ _ Hrun).
  - intros S0 item S1. apply sources_step_local.
  - intros S0 item S1 y Hstep Hy Hlocal.
    destruct (Hy Hlocal) as (file & Hf & Hin). exists file. split; [done|].
    destruct Hin as [Hin | (s & Hc & Hin)]; [left | right; exists s; split];
      try done; by eapply sources_step_grows.
Qed.

Lemma dependencies_origin (it : Iter) (D : list PackageDependency) :
  get_dependencies_from_modules rt it base = Ok D →
  ∀ d, d ∈ D →
    ∃ n m, (n, m) ∈ items it ∧ has_local_file rt base n m = Ok false
           ∧ PackageDependency_create rt m = Ok d ∧ kept d.
Proof.
  intros Hrun%for_iter_ok.
  refine (for_each_preserves _ (λ D, ∀ d, d ∈ D → _) _ _ _ _ _ Hrun).
  - intros D0 [n m] D1 Hin HD0 Hstep d Hd.
    destruct (dependencies_step_origin rt base D0 D1 n m Hstep d Hd)
      as [Hold | (Hl & Hc & Hk)]; [by apply HD0|].
    by exists n, m.
  - intros d Hd. by apply elem_of_nil in Hd.
Qed.

Lemma dependencies_recorded (it : Iter) (D : list PackageDependency) :
  get_dependencies_from_modules rt it base = Ok D →
  ∀ item, item ∈ items it → dependency_recorded rt base item D.
Proof.
  intros Hrun%for_iter_ok.
  refine (for_each_establishes _ (dependency_recorded rt base) _ _ _ _ _ Hrun).
  - intros D0 item D1. apply dependencies_step_kept.
  - intros D0 item D1 y Hstep Hy Hlocal d Hc Hk.
    eapply dependencies_step_grows; [done|]. by apply Hy.
Qed.

(** The dependency loop goes through a list of modules whose [__file__],
    where there is one, is a string; and when it raises, it is the
    TypeError of a module whose [__file__] is none. *)
Lemma dependencies_total (l : list (string * PyModule))
    (D : list PackageDependency) :
  (∀ n m, (n, m) ∈ l → mod_file m ≠ Some None) →
  ∃ D', for_each (dependencies_step rt base) D l = Ok D'.
Proof.
  revert D. induction l as [|item l IH]; intros D Hfiles; simpl; [eauto|].
  destruct (dependencies_step_total rt base D item) as [D1 ->].
  { destruct item as [n m]. apply (Hfiles n m). by left. }
  cbn [mbind result_bind]. apply IH. intros n m Hin. apply (Hfiles n m).
  by right.
Qed.

Lemma dependencies_loop_raises (l : list (string * PyModule))
    (D : list PackageDependency) (e : exn) :
  for_each (dependencies_step rt base) D l = Raise e →
  e = TypeError ∧ ∃ n m, (n, m) ∈ l ∧ mod_file m = Some None.
Proof.
  revert D. induction l as [|[n m] l IH]; intros D; cbn [for_each]; [done|].
  destruct (dependencies_step rt base D (n, m)) as [D1|e1] eqn:Hstep;
    cbn [mbind result_bind].
  - intros (-> & n' & m' & Hin & Hf)%IH. split; [done|].
    exists n', m'. split; [by right | done].
  - intros [= ->]. apply (dependencies_step_raises _ _ D n m) in Hstep as [Hf ->].
    split; [done|]. exists n, m. split; [by left | done].
Qed.

Lemma dependencies_loop_files (l : list (string * PyModule))
    (D0 D : list PackageDependency) :
  for_each (dependencies_step rt base) D0 l = Ok D →
  ∀ n m, (n, m) ∈ l → mod_file m ≠ Some None.
Proof.
  intros Hrun n m Hin.
  refine (for_each_establishes _ (λ item _, mod_file item.2 ≠ Some None)
            _ _ _ _ _ Hrun (n, m) Hin).
  - intros D1 [n0 m0] D2 Hstep Hf. cbn [snd] in Hf.
    assert (dependencies_step rt base D1 (n0, m0) = Raise TypeError) as Hr
      by (by apply dependencies_step_raises).
    congruence.
  - done.
Qed.

Lemma dependencies_run_files (it : Iter) (D : list PackageDependency) :
  get_dependencies_from_modules rt it base = Ok D →
  ∀ n m, (n, m) ∈ items it → mod_file m ≠ Some None.
Proof. intros Hrun%for_iter_ok. by eapply dependencies_loop_files. Qed.

(** How a run of [get_dependencies_from_modules] ends. *)
Lemma dependencies_run_returns (it : Iter) :
  (∃ D, get_dependencies_from_modules rt it base = Ok D)
  ↔ failure it = None ∧ ∀ n m, (n, m) ∈ items it → mod_file m ≠ Some None.
Proof.
  split.
  - intros [D Hrun]. split; [|by eapply dependencies_run_files].
    unfold get_dependencies_from_modules, for_iter in Hrun.
    destruct (for_each _ _ _); [|done]. cbn [mbind result_bind] in Hrun.
    by destruct (failure it).
  - intros [Hfail Hfiles]. unfold get_dependencies_from_modules, for_iter.
    destruct (dependencies_total (items it) [] Hfiles) as [D ->].
    cbn [mbind result_bind]. rewrite Hfail. eauto.
Qed.

Lemma dependencies_run_raises (it : Iter) (e : exn) :
  get_dependencies_from_modules rt it base = Raise e →
  (e = TypeError ∧ ∃ n m, (n, m) ∈ items it ∧ mod_file m = Some None)
  ∨ ((∀ n m, (n, m) ∈ items it → mod_file m ≠ Some None)
     ∧ failure it = Some e).
Proof.
  unfold get_dependencies_from_modules, for_iter.
  destruct (for_each _ _ _) as [D|e'] eqn:Hloop; cbn [mbind result_bind].
  - intros Hfail. right. split; [by eapply dependencies_loop_files|].
    by destruct (failure it); simplify_eq.
  - intros [= ->]. left. by eapply dependencies_loop_raises.
Qed.

Lemma dependencies_run_type_error (it : Iter) (n : string) (m : PyModule) :
  (n, m) ∈ items it → mod_file m = Some None →
  get_dependencies_from_modules rt it base = Raise TypeError.
Proof.
  intros Hin Hf.
  destruct (get_dependencies_from_modules rt it base) as [D|e] eqn:Hrun.
  - by destruct (dependencies_run_files it D Hrun n m Hin).
  - apply dependencies_run_raises in Hrun as [[-> _] | [Hfiles _]]; [done|].
    by destruct (Hfiles n m Hin).
Qed.

End ClassifierRuns.

(** ** Claims about the classifier *)

(** C2, as stated, fails, and twice.  A module without [__file__], without
    a version and with a dotted name is considered by both classifiers and
    lands in neither result.  And a module of the experiment that the scan
    yields under its own name and under a second name lands in both: its
    [Source] is recorded for the first pair, and for the second pair, which
    fails the local check, [PackageDependency.create] derives the
    dependency from [mod.__name__]. *)
Lemma classification_not_exactly_one :
  (get_sources_from_modules (bare_runtime "/")
     (mkIter [("widgets.sub", widgets_sub_module)] None) "/exp" = Ok []
   ∧ get_dependencies_from_modules (bare_runtime "/")
       (mkIter [("widgets.sub", widgets_sub_module)] None) "/exp" = Ok [])
  ∧ (get_sources_from_modules
       (disk_runtime "/" "/exp/foo.py" (list_byte_of_string "x = 5"))
       aliased_scan "/exp"
     = Ok [OSrc (mkSource "/exp/foo.py" "64cb7d1cc934629ce9d0d8d07536952b"
                          None None None)]
     ∧ get_dependencies_from_modules
         (disk_runtime "/" "/exp/foo.py" (list_byte_of_string "x = 5"))
         aliased_scan "/exp"
       = Ok [mkPackageDependency "foo" None]
     ∧ mod_name foo_module = Some "foo"
     ∧ mod_file foo_module = Some (Some "/exp/foo.py")).
Proof. split_and!; by vm_compute. Qed.

(** C2, amended: over the same module iterator and base path the two
    results are told apart by the local check on the pair of a name and a
    module.  Every source comes from a pair that passes the check, every
    dependency from a pair that fails it, and the check gives one answer
    per pair: a local pair leaves the dependencies as they are and has its
    source recorded, a pair that is not local leaves the sources as they
    are and has its dependency recorded when one is derived and kept.  So
    no pair contributes to both results, and a pair may contribute to
    neither.  This is an exclusion of pairs, not of modules: a module
    yielded under two names can be in both results.  Where every module is
    yielded once and under its own [__name__], no dependency bears the name
    of a module whose pair is local. *)
Theorem classification_by_pair (rt : Runtime) (it : Iter) (base : string)
    (S : list PyObj) (D : list PackageDependency) :
  get_sources_from_modules rt it base = Ok S →
  get_dependencies_from_modules rt it base = Ok D →
  (∀ o, o ∈ S →
     ∃ n m file s,
       (n, m) ∈ items it ∧ o = OSrc s ∧ mod_file m = Some (Some file)
       ∧ has_local_file rt base n m = Ok true
       ∧ Source_create rt (Some (PosixPath.abspath rt file)) = Ok s)
  ∧ (∀ d, d ∈ D →
       ∃ n m, (n, m) ∈ items it ∧ has_local_file rt base n m = Ok false
              ∧ PackageDependency_create rt m = Ok d ∧ kept d)
  ∧ (∀ n m, (n, m) ∈ items it →
       (has_local_file rt base n m = Ok true
        ∧ source_recorded rt base (n, m) S
        ∧ ∀ D0, dependencies_step rt base D0 (n, m) = Ok D0)
       ∨ (has_local_file rt base n m = Ok false
          ∧ dependency_recorded rt base (n, m) D
          ∧ ∀ S0, sources_step rt base S0 (n, m) = Ok S0))
  ∧ (∀ n m d, (n, m) ∈ items it → has_local_file rt base n m = Ok true →
       d ∈ D → mod_name m = Some (name d) →
       ∃ n' m', (n', m') ∈ items it ∧ (n', m') ≠ (n, m)
                ∧ has_local_file rt base n' m' = Ok false
                ∧ PackageDependency_create rt m' = Ok d)
  ∧ (NoDup (items it).*1 →
     (∀ n m, (n, m) ∈ items it → mod_name m = Some n) →
     ∀ n m d, (n, m) ∈ items it → has_local_file rt base n m = Ok true →
              d ∈ D → name d ≠ n).
Proof.
  intros HS HD. split_and!.
  - by apply sources_origin.
  - by apply dependencies_origin.
  - intros n m Hin.
    destruct (has_local_file_total rt base n m) as [[|] Hb].
    { by eapply dependencies_run_files. }
    + left. split_and!; [done | by eapply sources_recorded |].
      intros D0. by apply dependencies_step_local.
    + right. split_and!; [done | by eapply dependencies_recorded |].
      intros S0. by apply sources_step_not_local.
  - intros n m d Hin Hlocal Hd _.
    destruct (dependencies_origin rt base it D HD d Hd)
      as (n' & m' & Hin' & Hl' & Hc' & _).
    exists n', m'. split_and!; [done | | done..].
    intros [= -> ->]. congruence.
  - intros Hnd Hown n m d Hin Hlocal Hd Hname.
    destruct (dependencies_origin rt base it D HD d Hd)
      as (n' & m' & Hin' & Hl' & Hc' & _).
    pose proof (Hown n' m' Hin') as Hn'.
    unfold PackageDependency_create in Hc'. rewrite Hn' in Hc'.
    injection Hc' as <-. cbn [name] in Hname. subst n'.
    assert (m' = m) as ->; [|congruence].
    apply list_elem_of_lookup in Hin as [i Hi], Hin' as [j Hj].
    assert (i = j) as ->; [|congruence].
    eapply NoDup_lookup; [exact Hnd | |].
    + by rewrite list_lookup_fmap, Hi.
    + by rewrite list_lookup_fmap, Hj.
Qed.

Lemma classification_by_pair_witness :
  get_sources_from_modules (bare_runtime "/")
    (mkIter [("widgets", widgets_module)] None) "/exp" = Ok []
  ∧ get_dependencies_from_modules (bare_runtime "/")
      (mkIter [("widgets", widgets_module)] None) "/exp"
    = Ok [mkPackageDependency "widgets" (Some "2.0")]
  ∧ ∃ n m, (n, m) ∈ [("widgets", widgets_module)]
           ∧ has_local_file (bare_runtime "/") "/exp" n m = Ok false
           ∧ PackageDependency_create (bare_runtime "/") m
             = Ok (mkPackageDependency "widgets" (Some "2.0"))
           ∧ kept (mkPackageDependency "widgets" (Some "2.0")).
Proof.
  split; [by vm_compute|]. split; [by vm_compute|].
  refine (proj1 (proj2 (classification_by_pair (bare_runtime "/")
            (mkIter [("widgets", widgets_module)] None) "/exp" [] _ _ _))
            (mkPackageDependency "widgets" (Some "2.0")) _);
    [by vm_compute | by vm_compute | constructor].
Defined.

(** C6: for a module that is not local source and from which a
    [PackageDependency] is derived, the round of
    [get_dependencies_from_modules] adds the dependency exactly when the
    heuristic found a version or the name has no dot, and otherwise leaves
    the set as it is.  Over a whole run that returns, such a module's
    dependency is in the result when that condition holds, and no
    dependency of the result has both no version and a dotted name.  The
    run returns exactly when the module iterator does not raise and no
    module yielded has a [__file__] that is not a string: for such a
    module [os.path.abspath] raises a TypeError, which the loop lets
    through. *)
Theorem dependency_kept_iff (rt : Runtime) (base modname : string)
    (m : PyModule) (pdep : PackageDependency) :
  has_local_file rt base modname m = Ok false →
  PackageDependency_create rt m = Ok pdep →
  Some (name pdep) = mod_name m
  ∧ version pdep = get_version_heuristic rt m
  ∧ (∀ D, dependencies_step rt base D (modname, m)
          = Ok (if bool_decide (version pdep ≠ None
                                ∨ Str.contains "." (name pdep) = false)
                then dep_add rt pdep D else D))
  ∧ (∀ D, version pdep = None → Str.contains "." (name pdep) = true →
          dependencies_step rt base D (modname, m) = Ok D)
  ∧ (∀ it D, (modname, m) ∈ items it →
       get_dependencies_from_modules rt it base = Ok D →
       (version pdep ≠ None ∨ Str.contains "." (name pdep) = false →
        dep_in_set rt pdep D = true)
       ∧ ∀ d, d ∈ D →
           version d ≠ None ∨ Str.contains "." (name d) = false)
  ∧ (∀ it, (∃ D, get_dependencies_from_modules rt it base = Ok D)
           ↔ failure it = None
             ∧ ∀ n' m', (n', m') ∈ items it → mod_file m' ≠ Some None)
  ∧ (∀ it n' m', (n', m') ∈ items it → mod_file m' = Some None →
       get_dependencies_from_modules rt it base = Raise TypeError)
  ∧ (∀ it e, get_dependencies_from_modules rt it base = Raise e →
       (e = TypeError ∧ ∃ n' m', (n', m') ∈ items it ∧ mod_file m' = Some None)
       ∨ ((∀ n' m', (n', m') ∈ items it → mod_file m' ≠ Some None)
          ∧ failure it = Some e)).
Proof.
  intros Hlocal Hcreate.
  assert (∀ D, dependencies_step rt base D (modname, m)
               = Ok (if bool_decide (kept pdep) then dep_add rt pdep D else D))
    as Hstep.
  { intros D. rewrite dependencies_step_not_local by done. by rewrite Hcreate. }
  split_and!.
  - unfold PackageDependency_create in Hcreate.
    destruct (mod_name m); by simplify_eq.
  - unfold PackageDependency_create in Hcreate.
    destruct (mod_name m); by simplify_eq.
  - done.
  - intros D Hv Hdot. rewrite Hstep, bool_decide_eq_false_2; [done|].
    unfold kept. intros [?|?]; congruence.
  - intros it D Hin Hrun. split.
    + intros Hk.
      by apply (dependencies_recorded rt base it D Hrun (modname, m) Hin).
    + intros d Hd.
      by destruct (dependencies_origin rt base it D Hrun d Hd)
        as (n' & m' & _ & _ & _ & Hk).
  - intros it. apply dependencies_run_returns.
  - intros it n' m'. apply dependencies_run_type_error.
  - intros it e. apply dependencies_run_raises.
Qed.

Lemma dependency_kept_iff_witness :
  has_local_file (bare_runtime "/") "/exp" "widgets.sub" widgets_sub_module
  = Ok false
  ∧ PackageDependency_create (bare_runtime "/") widgets_sub_module
    = Ok (mkPackageDependency "widgets.sub" None)
  ∧ dependencies_step (bare_runtime "/") "/exp"
      [mkPackageDependency "widgets" (Some "2.0")]
      ("widgets.sub", widgets_sub_module)
    = Ok [mkPackageDependency "widgets" (Some "2.0")].
Proof.
  split; [reflexivity|]. split; [reflexivity|].
  refine (proj1 (proj2 (proj2 (proj2
            (dependency_kept_iff (bare_runtime "/") "/exp" "widgets.sub"
               widgets_sub_module (mkPackageDependency "widgets.sub" None)
               _ _)))) _ _ _);
    reflexivity.
Defined.

(** A namespace package among the modules stops the run. *)
Example namespace_package_raises :
  get_dependencies_from_modules (bare_runtime "/")
    (mkIter [("widgets", widgets_module); ("plugins", namespace_module)] None)
    "/exp"
  = Raise TypeError
  ∧ get_sources_from_modules (bare_runtime "/")
      (mkIter [("widgets", widgets_module); ("plugins", namespace_module)]
              None) "/exp"
    = Raise TypeError.
Proof. split; by vm_compute. Qed.

(** ** Claims about the orchestrator *)

Section Orchestrator.

(** What a normal return of [gather_sources_and_dependencies] went
    through, up to the sources. *)
Lemma gather_sources_inv (rt : Runtime) (globs : Namespace)
    (main : option Source) (S : list PyObj) (D : list PackageDependency) :
  gather_sources_and_dependencies rt globs = Ok (main, S, D) →
  ∃ experiment_path discover_sources gather_sources S0,
    get_main_file rt globs = Ok (experiment_path, main)
    ∧ SETTINGS rt !! "DISCOVER_SOURCES" = Some discover_sources
    ∧ source_discovery_strategies !! discover_sources = Some gather_sources
    ∧ gather_sources rt globs experiment_path = Ok S0
    ∧ S = set_add rt (obj_of_main main) S0.
Proof.
  unfold gather_sources_and_dependencies, getitem. intros Hrun.
  destruct (get_main_file rt globs) as [[path main']|] eqn:Hmain; [|done].
  cbn [mbind result_bind] in Hrun.
  destruct (SETTINGS rt !! "DISCOVER_SOURCES") as [ds|] eqn:Hds; [|done].
  cbn [mbind result_bind] in Hrun.
  destruct (source_discovery_strategies !! ds) as [gs|] eqn:Hgs; [|done].
  cbn [mbind result_bind] in Hrun.
  destruct (gs rt globs path) as [S0|] eqn:HS0; [|done].
  cbn [mbind result_bind] in Hrun.
  destruct (SETTINGS rt !! "DISCOVER_DEPENDENCIES") as [dd|]; [|done].
  cbn [mbind result_bind] in Hrun.
  destruct (dependency_discovery_strategies !! dd) as [gd|]; [|done].
  cbn [mbind result_bind] in Hrun.
  destruct (gd rt globs path) as [D0|]; [|done].
  cbn [mbind result_bind] in Hrun.
  destruct (if has_numpy rt then _ else _) as [D1|]; [|done].
  cbn [mbind result_bind] in Hrun. simplify_eq.
  by exists path, ds, gs, S0.
Qed.

(** With both strategies at [none] and without numpy, the orchestrator
    returns as soon as the main file is determined. *)
Lemma gather_none_returns (rt : Runtime) (globs : Namespace)
    (experiment_path : string) (main : option Source) :
  get_main_file rt globs = Ok (experiment_path, main) →
  SETTINGS rt !! "DISCOVER_SOURCES" = Some "none" →
  SETTINGS rt !! "DISCOVER_DEPENDENCIES" = Some "none" →
  has_numpy rt = false →
  gather_sources_and_dependencies rt globs
  = Ok (main, [obj_of_main main], []).
Proof.
  intros Hmain Hs Hd Hnp. unfold gather_sources_and_dependencies, getitem.
  rewrite Hmain. cbn [mbind result_bind]. rewrite Hs, Hd, Hnp. reflexivity.
Qed.

End Orchestrator.

(** C4: whenever [gather_sources_and_dependencies] returns, the sources it
    returns are those of the strategy configured under [DISCOVER_SOURCES],
    run on the namespace and the base path, with [main] added; [main] is in
    the returned set whatever the strategy, and under [none] it is the only
    element.  For a namespace with [__file__], [main] is the [Source]
    created from that file, and the base path is its directory.  With both
    strategies at [none] and without numpy the function does return, with
    [main] as the only source. *)
Theorem gather_adds_main (rt : Runtime) (globs : Namespace) :
  (∀ main S D,
     gather_sources_and_dependencies rt globs = Ok (main, S, D) →
     ∃ experiment_path discover_sources gather_sources S0,
       get_main_file rt globs = Ok (experiment_path, main)
       ∧ SETTINGS rt !! "DISCOVER_SOURCES" = Some discover_sources
       ∧ source_discovery_strategies !! discover_sources = Some gather_sources
       ∧ gather_sources rt globs experiment_path = Ok S0
       ∧ S = set_add rt (obj_of_main main) S0
       ∧ in_set rt (obj_of_main main) S = true
       ∧ (discover_sources = "none" → S = [obj_of_main main])
       ∧ (∀ f, ns_file globs = Some f →
            ∃ s, main = Some s ∧ Source_create rt (Some f) = Ok s
                 ∧ experiment_path = PosixPath.dirname (filename s)))
  ∧ (∀ experiment_path main,
       get_main_file rt globs = Ok (experiment_path, main) →
       SETTINGS rt !! "DISCOVER_SOURCES" = Some "none" →
       SETTINGS rt !! "DISCOVER_DEPENDENCIES" = Some "none" →
       has_numpy rt = false →
       gather_sources_and_dependencies rt globs
       = Ok (main, [obj_of_main main], [])).
Proof.
  split; [|apply gather_none_returns].
  intros main S D Hrun.
  destruct (gather_sources_inv rt globs main S D Hrun)
    as (path & ds & gs & S0 & Hmain & Hds & Hgs & HS0 & ->).
  exists path, ds, gs, S0. split_and!; try done.
  - apply in_set_add_self.
  - intros ->. vm_compute in Hgs. by simplify_eq.
  - intros f Hf. unfold get_main_file in Hmain. rewrite Hf in Hmain.
    destruct (Source_create rt (Some f)) as [s|] eqn:Hc; [|done].
    cbn [mbind result_bind] in Hmain. simplify_eq. by exists s.
Qed.

(** C10: for a namespace without [__file__], whenever
    [gather_sources_and_dependencies] returns, [main] is [None] and the
    returned sources hold the element [None]: they are not a set of
    [Source] records only.  With both strategies at [none] and without numpy
    the function does return, and the sources are [None] alone. *)
Theorem gather_without_file (rt : Runtime) (globs : Namespace) :
  ns_file globs = None →
  (∀ main S D,
     gather_sources_and_dependencies rt globs = Ok (main, S, D) →
     main = None
     ∧ ONone ∈ S
     ∧ ¬ (∀ o, o ∈ S → ∃ s, o = OSrc s))
  ∧ (SETTINGS rt !! "DISCOVER_SOURCES" = Some "none" →
     SETTINGS rt !! "DISCOVER_DEPENDENCIES" = Some "none" →
     has_numpy rt = false →
     gather_sources_and_dependencies rt globs = Ok (None, [ONone], [])).
Proof.
  intros Hfile. split.
  - intros main S D Hrun.
    destruct (gather_sources_inv rt globs main S D Hrun)
      as (path & ds & gs & S0 & Hmain & _ & _ & _ & ->).
    unfold get_main_file in Hmain. rewrite Hfile in Hmain. simplify_eq.
    assert (ONone ∈ set_add rt (obj_of_main None) S0) as Hin.
    { pose proof (in_set_add_self rt ONone S0) as Hs.
      apply in_set_spec in Hs as (e & He & Heq). by destruct e. }
    split_and!; [done..|].
    intros Hall. by destruct (Hall ONone Hin).
  - apply (gather_none_returns rt globs (PosixPath.abspath rt ".") None).
    unfold get_main_file. by rewrite Hfile.
Qed.

Lemma gather_without_file_witness :
  ns_file (mkNamespace None [GObject None]) = None
  ∧ gather_sources_and_dependencies (bare_runtime "/exp")
      (mkNamespace None [GObject None])
    = Ok (None, [ONone], [])
  ∧ ONone ∈ [ONone].
Proof.
  split; [reflexivity|]. split; [by vm_compute|].
  refine (proj1 (proj2 (proj1 (gather_without_file (bare_runtime "/exp")
            (mkNamespace None [GObject None]) _) None [ONone] [] _)));
    by vm_compute.
Defined.

(** * Further properties *)

(** ** Suffixes *)

Section Suffixes.

Lemma drop_app_length (pre suf : string) :
  Str.drop (String.length pre) (pre +:+ suf) = suf.
Proof. induction pre as [|a pre IH]; [done|]. by rewrite str_app_cons. Qed.

Lemma take_app_length (pre suf : string) :
  Str.take (String.length pre) (pre +:+ suf) = pre.
Proof.
  induction pre as [|a pre IH]; [by destruct suf|].
  rewrite str_app_cons. cbn [String.length Str.take]. by rewrite IH.
Qed.

(** [s.endswith(suf)] says that [s] is something followed by [suf]. *)
Lemma endswith_spec (s suf : string) :
  Str.endswith s suf = true ↔ ∃ pre, s = pre +:+ suf.
Proof.
  unfold Str.endswith. rewrite andb_true_iff, Nat.leb_le, String.eqb_eq. split.
  - intros [Hlen Hdrop].
    set (n := (String.length s - String.length suf)%nat) in *.
    exists (Str.take n s). rewrite <- Hdrop. by rewrite str_take_drop.
  - intros [pre ->]. rewrite str_length_app. split; [lia|].
    replace (String.length pre + String.length suf - String.length suf)%nat
      with (String.length pre) by lia.
    apply drop_app_length.
Qed.

Lemma endswith_app (pre s suf : string) :
  Str.endswith s suf = true → Str.endswith (pre +:+ s) suf = true.
Proof.
  rewrite !endswith_spec. intros [p ->]. exists (pre +:+ p).
  by rewrite str_app_assoc.
Qed.

End Suffixes.

(** ** [get_py_file_if_possible] *)

Section PyFile.

Lemma pyc_sibling (pre : string) :
  Str.take (String.length (pre +:+ ".pyc") - 1) (pre +:+ ".pyc")
  = pre +:+ ".py".
Proof.
  replace (pre +:+ ".pyc") with ((pre +:+ ".py") +:+ "c")
    by (by rewrite str_app_assoc).
  rewrite str_length_app. cbn [String.length].
  replace (String.length (pre +:+ ".py") + 1 - 1)%nat
    with (String.length (pre +:+ ".py")) by lia.
  apply take_app_length.
Qed.

Lemma drop_app_plus (pre x : string) (k : nat) :
  Str.drop (String.length pre + k) (pre +:+ x) = Str.drop k x.
Proof. induction pre as [|a pre IH]; [done|]. by rewrite str_app_cons. Qed.

Lemma pyc_not_py (pre : string) :
  Str.endswith (pre +:+ ".pyc") ".py" = false.
Proof.
  unfold Str.endswith. rewrite str_length_app. cbn [String.length].
  replace (String.length pre + 4 - 3)%nat with (String.length pre + 1)%nat
    by lia.
  by rewrite drop_app_plus, andb_false_r.
Qed.

Lemma get_py_file_pyc (rt : Runtime) (pre : string) :
  get_py_file_if_possible rt (pre +:+ ".pyc")
  = Ok (if path_exists rt (pre +:+ ".py") then pre +:+ ".py"
        else pre +:+ ".pyc").
Proof.
  unfold get_py_file_if_possible. rewrite pyc_not_py.
  rewrite (proj2 (endswith_spec _ _)) by eauto. cbn [negb].
  rewrite pyc_sibling. by destruct (path_exists rt _).
Qed.

Lemma get_py_file_result (rt : Runtime) (pyc_name r : string) :
  get_py_file_if_possible rt pyc_name = Ok r →
  (Str.endswith r ".py" = true ∨ Str.endswith r ".pyc" = true)
  ∧ (r = pyc_name ∨ r +:+ "c" = pyc_name)
  ∧ get_py_file_if_possible rt r = Ok r.
Proof.
  destruct (Str.endswith pyc_name ".py") eqn:Hpy.
  { unfold get_py_file_if_possible at 1. rewrite Hpy. intros [= <-].
    split_and!; [by left | by left |].
    unfold get_py_file_if_possible. by rewrite Hpy. }
  destruct (Str.endswith pyc_name ".pyc") eqn:Hc.
  2:{ unfold get_py_file_if_possible at 1. by rewrite Hpy, Hc. }
  apply endswith_spec in Hc as [pre ->]. rewrite get_py_file_pyc.
  destruct (path_exists rt (pre +:+ ".py")) eqn:He; intros [= <-].
  - split_and!.
    + left. apply endswith_spec. eauto.
    + right. by rewrite str_app_assoc.
    + unfold get_py_file_if_possible.
      by rewrite (proj2 (endswith_spec _ _)) by eauto.
  - split_and!.
    + right. apply endswith_spec. eauto.
    + by left.
    + by rewrite get_py_file_pyc, He.
Qed.

End PyFile.

(** X1: [get_py_file_if_possible] returns a [.py] name as it is, fails its
    assertion on a name that ends neither in [.py] nor in [.pyc], and for a
    [.pyc] name returns the name without its last letter when that file
    exists and the [.pyc] name otherwise.  Whatever it returns ends in
    [.py] or [.pyc], is the argument or the argument without its final [c],
    and is returned unchanged by a second call. *)
Theorem get_py_file_if_possible_spec (rt : Runtime) (pyc_name : string) :
  (Str.endswith pyc_name ".py" = true →
   get_py_file_if_possible rt pyc_name = Ok pyc_name)
  ∧ (Str.endswith pyc_name ".py" = false →
     Str.endswith pyc_name ".pyc" = false →
     get_py_file_if_possible rt pyc_name = Raise AssertionError)
  ∧ (∀ pre, pyc_name = pre +:+ ".pyc" →
       get_py_file_if_possible rt pyc_name
       = Ok (if path_exists rt (pre +:+ ".py") then pre +:+ ".py"
             else pyc_name))
  ∧ (∀ r, get_py_file_if_possible rt pyc_name = Ok r →
       (Str.endswith r ".py" = true ∨ Str.endswith r ".pyc" = true)
       ∧ (r = pyc_name ∨ r +:+ "c" = pyc_name)
       ∧ get_py_file_if_possible rt r = Ok r).
Proof.
  split_and!.
  - intros Hpy. unfold get_py_file_if_possible. by rewrite Hpy.
  - intros Hpy Hc. unfold get_py_file_if_possible. by rewrite Hpy, Hc.
  - intros pre ->. apply get_py_file_pyc.
  - apply get_py_file_result.
Qed.

(** ** The shape of a split path *)

(** X2: [splitall] always returns at least one component.  The first one
    is a prefix of the path, and either holds no slash or is made of slashes
    only; no later component holds a slash.  For an absolute path the first
    component is the root, a non-empty run of slashes; for a relative path
    no component holds a slash. *)
Theorem splitall_components (path : string) :
  ∃ first rest,
    splitall path = first :: rest
    ∧ (∃ t, path = first +:+ t)
    ∧ Forall (λ x, Str.contains "/" x = false) rest
    ∧ (PosixPath.isabs path = true → all_slashes first ∧ first ≠ "")
    ∧ (PosixPath.isabs path = false → Str.contains "/" first = false).
Proof.
  destruct (splitall_loop_components (S (String.length path)) path [])
    as (first & rest & Heq & Hfirst & [t Ht] & Hrest); [lia | done |].
  exists first, rest. unfold splitall. split_and!; [done | by exists t | done | |].
  - intros Habs.
    destruct (splitall_loop_abs (S (String.length path)) path [] Habs)
      as (x & rest' & Heq' & Hx); [lia|].
    rewrite Heq in Heq'. injection Heq' as <- <-.
    apply startswith_sep in Hx as [r Hr].
    split; [|by rewrite Hr].
    destruct Hfirst as [Hs | Hno]; [done|].
    rewrite Hr in Hno. by rewrite contains_startswith in Hno.
  - intros Hrel. destruct Hfirst as [Hs | Hno]; [|done].
    destruct first as [|a first]; [done|].
    unfold all_slashes in Hs. cbn [String.length Str.repeat] in Hs.
    injection Hs as -> _. exfalso.
    rewrite Ht, str_app_cons in Hrel.
    assert (PosixPath.isabs (String PosixPath.sep (first +:+ t)) = true)
      as Habs by (apply startswith_sep; eauto).
    congruence.
Qed.

(** ** What [Source.create] builds *)

Section CreatedSource.

Lemma get_digest_content (rt : Runtime) (name : string)
    (content : list Byte.byte) :
  file_bytes rt name = Some content →
  get_digest rt name = Ok (MD5.hex (MD5.md5 content)).
Proof.
  intros Hfile. unfold get_digest. rewrite Hfile.
  destruct (file_read_spec (1 * MB) content) as [Happ Hnil]; [done|].
  destruct (file_read (1 * MB) content) as [data f] eqn:Hread.
  cbn [fst snd] in Happ, Hnil. f_equal.
  apply represents_hexdigest. rewrite <- Happ at 2.
  apply (get_digest_loop_spec _ MD5.new [] data f);
    [apply represents_new | done |].
  apply (f_equal length) in Happ. rewrite length_app in Happ. lia.
Qed.

Lemma get_digest_ok (rt : Runtime) (name d : string) :
  get_digest rt name = Ok d →
  ∃ content, file_bytes rt name = Some content
             ∧ d = MD5.hex (MD5.md5 content).
Proof.
  destruct (file_bytes rt name) as [content|] eqn:Hfile.
  - rewrite (get_digest_content rt name content Hfile). intros Heq.
    exists content. split; [done|]. congruence.
  - unfold get_digest. by rewrite Hfile.
Qed.

Lemma hex_length (bs : list Byte.byte) :
  String.length (MD5.hex bs) = (2 * length bs)%nat.
Proof. induction bs as [|b bs IH]; simpl; [done|]. rewrite IH. lia. Qed.

Lemma md5_length (msg : list Byte.byte) : length (MD5.md5 msg) = 16%nat.
Proof.
  unfold MD5.md5, MD5.output, MD5.le_bytes.
  by rewrite !length_app, !length_map, !length_seq.
Qed.

Lemma join2_abs (cwd p : string) :
  PosixPath.isabs cwd = true → PosixPath.isabs (PosixPath.join2 cwd p) = true.
Proof.
  intros Hcwd. unfold PosixPath.join2.
  destruct (Str.startswith p "/") eqn:Hp; [done|].
  apply startswith_sep in Hcwd as [r ->].
  destruct (_ || _); rewrite str_app_cons; apply startswith_sep; eauto.
Qed.

Lemma abspath_absolute (rt : Runtime) (p : string) :
  PosixPath.isabs (getcwd rt) = true →
  PosixPath.isabs (PosixPath.abspath rt p) = true.
Proof.
  intros Hcwd. unfold PosixPath.abspath.
  destruct (PosixPath.isabs p) eqn:Hp; cbn [negb]; apply normpath_abs;
    [done | by apply join2_abs].
Qed.

End CreatedSource.

(** X3: a [Source] that [Source.create] returns was built from a non-empty
    name of an existing path.  Its file name is what
    [get_py_file_if_possible] makes of the absolute name, so it ends in
    [.py] or [.pyc], and it is absolute when the current directory is; its
    digest is the MD5 of the content of that very file, 32 hexadecimal
    characters; and repository, commit and dirty flag are all three present
    or all three absent, absent without gitpython. *)
Theorem Source_create_ok (rt : Runtime) (f : string) (s : Source) :
  Source_create rt (Some f) = Ok s →
  f ≠ "" ∧ path_exists rt f = true
  ∧ get_py_file_if_possible rt (PosixPath.abspath rt f) = Ok (filename s)
  ∧ (Str.endswith (filename s) ".py" = true
     ∨ Str.endswith (filename s) ".pyc" = true)
  ∧ (∃ content, file_bytes rt (filename s) = Some content
                ∧ digest s = MD5.hex (MD5.md5 content))
  ∧ String.length (digest s) = 32%nat
  ∧ ((repo s = None ∧ commit s = None ∧ is_dirty s = None)
     ∨ (∃ r c d, repo s = Some r ∧ commit s = Some c ∧ is_dirty s = Some d))
  ∧ (has_gitpython rt = false → repo s = None)
  ∧ (PosixPath.isabs (getcwd rt) = true → PosixPath.isabs (filename s) = true).
Proof.
  unfold Source_create.
  destruct (Str.nonempty f) eqn:Hne; [|done].
  destruct (path_exists rt f) eqn:Hex; [|done]. cbn [negb orb].
  destruct (get_py_file_if_possible rt (PosixPath.abspath rt f))
    as [main_file|] eqn:Hpy; [|done].
  cbn [mbind result_bind].
  destruct (get_commit_if_possible rt main_file) as [[r c] d] eqn:Hvc.
  destruct (get_digest rt main_file) as [dg|] eqn:Hdg; [|done].
  cbn [mbind result_bind]. intros [= <-]. cbn [filename digest repo commit is_dirty].
  destruct (get_py_file_result rt _ main_file Hpy) as (Hsuffix & Hshape & _).
  destruct (get_digest_ok rt main_file dg Hdg) as (content & Hfile & ->).
  split_and!.
  - intros ->. done.
  - done.
  - done.
  - done.
  - by exists content.
  - by rewrite hex_length, md5_length.
  - unfold get_commit_if_possible in Hvc.
    destruct (has_gitpython rt); [|left; by simplify_eq].
    destruct (git_repo rt _); cbv zeta in Hvc; simplify_eq;
      [right; by eexists _, _, _ | by left].
  - intros Hgit. unfold get_commit_if_possible in Hvc. rewrite Hgit in Hvc.
    by simplify_eq.
  - intros Hcwd. pose proof (abspath_absolute rt f Hcwd) as Habs.
    destruct Hshape as [-> | Hc]; [done|].
    rewrite <- Hc in Habs. apply startswith_sep in Habs as [t Ht].
    destruct main_file as [|a m].
    + by destruct Hsuffix as [?|?].
    + rewrite str_app_cons in Ht. injection Ht as -> _.
      apply startswith_sep. eauto.
Qed.

Lemma Source_create_ok_witness :
  Source_create (disk_runtime "/" "/exp/run.py" (list_byte_of_string "x = 5"))
                (Some "/exp/run.py")
  = Ok (mkSource "/exp/run.py" "64cb7d1cc934629ce9d0d8d07536952b"
                 None None None)
  ∧ String.length "64cb7d1cc934629ce9d0d8d07536952b" = 32%nat.
Proof.
  assert (Source_create
            (disk_runtime "/" "/exp/run.py" (list_byte_of_string "x = 5"))
            (Some "/exp/run.py")
          = Ok (mkSource "/exp/run.py" "64cb7d1cc934629ce9d0d8d07536952b"
                         None None None)) as Hc by (by vm_compute).
  split; [exact Hc|].
  exact (proj1 (proj2 (proj2 (proj2 (proj2 (proj2
           (Source_create_ok _ _ _ Hc))))))).
Defined.

(** ** [PackageDependency]: version lookup and serialization *)

Section DependencyMethods.

Lemma by_key_get_Some (rt : Runtime) (key v : string) :
  by_key_get rt key = Some v → (key, v) ∈ working_set rt.
Proof.
  unfold by_key_get.
  destruct (find _ (working_set rt)) as [[k v']|] eqn:Hfind; [|done].
  intros [= <-]. apply find_some in Hfind as [Hin Hk].
  apply String.eqb_eq in Hk. cbn in Hk. subst k. by apply list_elem_of_In.
Qed.

Lemma by_key_get_None (rt : Runtime) (key : string) :
  by_key_get rt key = None ↔ ∀ v, (key, v) ∉ working_set rt.
Proof.
  unfold by_key_get. split.
  - destruct (find _ (working_set rt)) as [[k v']|] eqn:Hfind; [done|].
    intros _ v Hin%list_elem_of_In.
    pose proof (find_none _ _ Hfind _ Hin) as Hk. cbn in Hk.
    by rewrite String.eqb_refl in Hk.
  - intros Hno. destruct (find _ (working_set rt)) as [[k v']|] eqn:Hfind;
      [|done].
    apply find_some in Hfind as [Hin Hk]. apply String.eqb_eq in Hk.
    cbn in Hk. subst k. destruct (Hno v'). by apply list_elem_of_In.
Qed.

(** Two [name==version] lines with names free of [=] are equal only for
    equal names and versions. *)
Lemma to_json_split (n1 n2 r1 r2 : string) :
  Str.contains "=" n1 = false → Str.contains "=" n2 = false →
  n1 +:+ "==" +:+ r1 = n2 +:+ "==" +:+ r2 → n1 = n2 ∧ r1 = r2.
Proof.
  revert n2. induction n1 as [|a n1 IH]; intros [|b n2] H1 H2 Heq.
  - change (String "=" (String "=" r1) = String "=" (String "=" r2)) in Heq.
    by injection Heq as ->.
  - rewrite str_app_cons in Heq. injection Heq as <- _.
    cbn in H2. done.
  - rewrite str_app_cons in Heq. injection Heq as -> _.
    cbn in H1. done.
  - rewrite !str_app_cons in Heq. injection Heq as -> Heq.
    cbn [Str.contains] in H1, H2.
    apply orb_false_iff in H1 as [_ H1]. apply orb_false_iff in H2 as [_ H2].
    destruct (IH n2 H1 H2 Heq) as [-> ->]. done.
Qed.

End DependencyMethods.

(** X4: after [fill_missing_version] a dependency always has a version:
    the one it had, else the version of the installed distribution of that
    name, else ["<unknown>"].  The name is untouched, so the dependency is
    still the same set element; a second call changes nothing; and
    [to_json] then writes the name, [==] and that version. *)
Theorem fill_missing_version_spec (rt : Runtime) (d : PackageDependency) :
  name (fill_missing_version rt d) = name d
  ∧ PackageDependency_eq (fill_missing_version rt d) d = true
  ∧ (∃ v, version (fill_missing_version rt d) = Some v
          ∧ PackageDependency_to_json (fill_missing_version rt d)
            = name d +:+ "==" +:+ v
          ∧ (version d = Some v
             ∨ (version d = None ∧ (name d, v) ∈ working_set rt)
             ∨ (version d = None ∧ v = "<unknown>"
                ∧ ∀ w, (name d, w) ∉ working_set rt)))
  ∧ (version d ≠ None → fill_missing_version rt d = d)
  ∧ fill_missing_version rt (fill_missing_version rt d)
    = fill_missing_version rt d.
Proof.
  unfold fill_missing_version. destruct d as [n [v|]]; cbn [name version].
  - split_and!; try done.
    + unfold PackageDependency_eq. apply String.eqb_refl.
    + exists v. split_and!; [done..|]. by left.
  - split_and!; try done.
    + unfold PackageDependency_eq. apply String.eqb_refl.
    + destruct (by_key_get rt n) as [v|] eqn:Hget.
      * exists v. split_and!; [done..|]. right. left.
        split; [done|]. by apply by_key_get_Some.
      * exists "<unknown>". split_and!; [done..|]. right. right.
        split_and!; [done..|]. by apply by_key_get_None.
Qed.

(** X5: [to_json] lines identify the dependency: for names free of [=],
    equal lines come from equal names and equally rendered versions. *)
Theorem to_json_injective (d1 d2 : PackageDependency) :
  Str.contains "=" (name d1) = false →
  Str.contains "=" (name d2) = false →
  PackageDependency_to_json d1 = PackageDependency_to_json d2 →
  name d1 = name d2
  ∧ format_version (version d1) = format_version (version d2).
Proof. unfold PackageDependency_to_json. apply to_json_split. Qed.

Lemma to_json_injective_witness :
  PackageDependency_to_json (mkPackageDependency "widgets" (Some "2.0"))
  = "widgets==2.0"
  ∧ name (mkPackageDependency "widgets" (Some "2.0")) = "widgets".
Proof.
  split; [reflexivity|].
  exact (proj1 (to_json_injective
                  (mkPackageDependency "widgets" (Some "2.0"))
                  (mkPackageDependency "widgets" (Some "2.0"))
                  eq_refl eq_refl eq_refl)).
Defined.

(** ** Sets without duplicates *)

Section Distinct.

Context (rt : Runtime).

Lemma py_eq_sym (a b : PyObj) : py_eq a b = py_eq b a.
Proof. destruct a, b; simpl; try done; apply String.eqb_sym. Qed.

Lemma in_set_false (key : PyObj) (S : list PyObj) :
  in_set rt key S = false → ∀ e, e ∈ S → py_eq e key = false.
Proof.
  intros Hin e He. apply not_true_is_false. intros Heq.
  assert (in_set rt key S = true) by (apply in_set_spec; eauto). congruence.
Qed.

Lemma set_add_distinct (o : PyObj) (S : list PyObj) :
  pairwise_distinct S → pairwise_distinct (set_add rt o S).
Proof.
  unfold set_add. destruct (in_set rt o S) eqn:Hin; [done|].
  pose proof (in_set_false o S Hin) as Hfresh.
  intros Hd i j x y Hi Hj Heq.
  apply lookup_app_Some in Hi as [Hi | [Hli Hi]];
    apply lookup_app_Some in Hj as [Hj | [Hlj Hj]].
  - by eapply Hd.
  - apply list_lookup_singleton_Some in Hj as [_ <-].
    rewrite (Hfresh x) in Heq; [done|]. by eapply list_elem_of_lookup_2.
  - apply list_lookup_singleton_Some in Hi as [_ <-].
    rewrite py_eq_sym, (Hfresh y) in Heq; [done|].
    by eapply list_elem_of_lookup_2.
  - apply list_lookup_singleton_Some in Hi as [Hi _].
    apply list_lookup_singleton_Some in Hj as [Hj _]. lia.
Qed.

Lemma pairwise_distinct_nil : pairwise_distinct [].
Proof. intros i j x y Hi. by rewrite lookup_nil in Hi. Qed.

Lemma dep_in_set_false (d : PackageDependency) (D : list PackageDependency) :
  dep_in_set rt d D = false → name d ∉ name <$> D.
Proof.
  intros Hin (e & He & Hmem)%list_elem_of_fmap.
  assert (dep_in_set rt d D = true) by (apply dep_in_set_spec; eauto).
  congruence.
Qed.

Lemma dep_add_distinct (d : PackageDependency) (D : list PackageDependency) :
  distinct_names D → distinct_names (dep_add rt d D).
Proof.
  unfold dep_add, distinct_names.
  destruct (dep_in_set rt d D) eqn:Hin; [done|].
  intros Hd. rewrite fmap_app. apply NoDup_app. split_and!; [done | |].
  - intros x Hx ->%list_elem_of_singleton. by apply (dep_in_set_false d D).
  - apply NoDup_singleton.
Qed.

Lemma fold_dep_add_distinct (l : list (string * string))
    (D : list PackageDependency) :
  distinct_names D →
  distinct_names
    (fold_left (λ dependencies '(key, version),
                  dep_add rt (mkPackageDependency key (Some version))
                          dependencies) l D).
Proof.
  revert D. induction l as [|[k v] l IH]; intros D HD; [done|].
  cbn [fold_left]. apply IH. by apply dep_add_distinct.
Qed.

Context (base : string).

Lemma sources_step_distinct (S S' : list PyObj) (item : string * PyModule) :
  sources_step rt base S item = Ok S' →
  pairwise_distinct S → pairwise_distinct S'.
Proof.
  destruct item as [n m]. unfold sources_step.
  destruct (mod_file m) as [[file|]|]; [|done|by intros [= <-]].
  destruct (negb _); [|by intros [= <-]].
  destruct (is_local_source _ _ _ _) as [[|]|e]; cbn [mbind result_bind];
    [|by intros [= <-]|done].
  destruct (Source_create _ _) as [s|e]; cbn [mbind result_bind]; [|done].
  intros [= <-]. apply set_add_distinct.
Qed.

Lemma dependencies_step_distinct (D D' : list PackageDependency)
    (item : string * PyModule) :
  dependencies_step rt base D item = Ok D' →
  distinct_names D → distinct_names D'.
Proof.
  destruct item as [n m].
  destruct (has_local_file rt base n m) as [[|]|e] eqn:Hb.
  - rewrite dependencies_step_local by done. by intros [= <-].
  - rewrite dependencies_step_not_local by done.
    destruct (PackageDependency_create rt m) as [p|e]; [|by intros [= <-]].
    case_bool_decide; [|by intros [= <-]].
    intros [= <-]. apply dep_add_distinct.
  - unfold dependencies_step. by rewrite Hb.
Qed.

Lemma sources_from_modules_distinct (it : Iter) (S : list PyObj) :
  get_sources_from_modules rt it base = Ok S → pairwise_distinct S.
Proof.
  intros Hrun%for_iter_ok.
  refine (for_each_preserves _ pairwise_distinct _ _ _ _ _ Hrun).
  - intros S0 item S1 _ HS0 Hstep. by eapply sources_step_distinct.
  - apply pairwise_distinct_nil.
Qed.

Lemma dependencies_from_modules_distinct (it : Iter)
    (D : list PackageDependency) :
  get_dependencies_from_modules rt it base = Ok D → distinct_names D.
Proof.
  intros Hrun%for_iter_ok.
  refine (for_each_preserves _ distinct_names _ _ _ _ _ Hrun).
  - intros D0 item D1 _ HD0 Hstep. by eapply dependencies_step_distinct.
  - apply NoDup_nil_2.
Qed.

Lemma sources_from_local_dir_spec (globs : Namespace) (S : list PyObj) :
  get_sources_from_local_dir rt globs base = Ok S →
  pairwise_distinct S
  ∧ ∀ o, o ∈ S →
      ∃ p s, o = OSrc s ∧ p ∈ iterate_all_python_files rt base
             ∧ Source_create rt (Some p) = Ok s.
Proof.
  unfold get_sources_from_local_dir. intros Hrun. split.
  - refine (for_each_preserves _ pairwise_distinct _ _ _ _ _ Hrun).
    + intros S0 p S1 _ HS0.
      destruct (Source_create rt (Some p)) as [s|]; cbn [mbind result_bind];
        [|done].
      intros [= <-]. by apply set_add_distinct.
    + apply pairwise_distinct_nil.
  - refine (for_each_preserves _ (λ S, ∀ o, o ∈ S → _) _ _ _ _ _ Hrun).
    + intros S0 p S1 Hp HS0.
      destruct (Source_create rt (Some p)) as [s|] eqn:Hc;
        cbn [mbind result_bind]; [|done].
      intros [= <-] o [Ho | ->]%elem_of_set_add; [by apply HS0|].
      by exists p, s.
    + intros o Ho. by apply elem_of_nil in Ho.
Qed.

End Distinct.

(** X6: what [get_sources_from_modules] and [get_sources_from_local_dir]
    return is a set of [Source] records in which no two have the same file
    name; in the directory strategy each one was created from a path that
    [iterate_all_python_files] yields. *)
Theorem source_sets_distinct (rt : Runtime) (base : string) :
  (∀ it S, get_sources_from_modules rt it base = Ok S →
     (∀ o, o ∈ S → ∃ s, o = OSrc s)
     ∧ ∀ i j s1 s2, S !! i = Some (OSrc s1) → S !! j = Some (OSrc s2) →
                    filename s1 = filename s2 → i = j)
  ∧ (∀ globs S, get_sources_from_local_dir rt globs base = Ok S →
       (∀ o, o ∈ S →
          ∃ p s, o = OSrc s ∧ p ∈ iterate_all_python_files rt base
                 ∧ Source_create rt (Some p) = Ok s)
       ∧ ∀ i j s1 s2, S !! i = Some (OSrc s1) → S !! j = Some (OSrc s2) →
                      filename s1 = filename s2 → i = j).
Proof.
  split.
  - intros it S Hrun. split.
    + intros o Ho.
      destruct (sources_origin rt base it S Hrun o Ho)
        as (n & m & file & s & _ & -> & _). eauto.
    + intros i j s1 s2 Hi Hj Hf.
      apply (sources_from_modules_distinct rt base it S Hrun i j _ _ Hi Hj).
      simpl. by apply String.eqb_eq.
  - intros globs S Hrun.
    destruct (sources_from_local_dir_spec rt base globs S Hrun) as [Hd Ho].
    split; [done|].
    intros i j s1 s2 Hi Hj Hf. apply (Hd i j _ _ Hi Hj).
    simpl. by apply String.eqb_eq.
Qed.

(** X7: a [PackageDependency] is identified by its name: equality, hash
    and order read the name only, so adding a dependency whose name is in
    the set keeps the stored one, whatever the versions, and no set that
    [get_dependencies_from_modules] or [get_dependencies_from_pkg] returns
    holds two dependencies of the same name. *)
Theorem dependency_sets_distinct (rt : Runtime) (base : string) :
  (∀ d1 d2, PackageDependency_eq d1 d2 = true ↔ name d1 = name d2)
  ∧ (∀ d1 d2, name d1 = name d2 →
       PackageDependency_hash rt d1 = PackageDependency_hash rt d2
       ∧ ∀ d, PackageDependency_le d1 d = PackageDependency_le d2 d
              ∧ PackageDependency_le d d1 = PackageDependency_le d d2)
  ∧ (∀ d1 d2 D, name d1 = name d2 → d1 ∈ D → dep_add rt d2 D = D)
  ∧ (∀ it D, get_dependencies_from_modules rt it base = Ok D →
       NoDup (name <$> D))
  ∧ (∀ globs D, get_dependencies_from_pkg rt globs base = Ok D →
       NoDup (name <$> D)).
Proof.
  split_and!.
  - intros d1 d2. apply String.eqb_eq.
  - intros d1 d2 Hn. unfold PackageDependency_hash, PackageDependency_le.
    rewrite Hn. split; [done|]. by intros d.
  - intros d1 d2 D Hn Hin. unfold dep_add.
    assert (dep_in_set rt d2 D = true) as ->; [|done].
    apply dep_in_set_spec. eauto.
  - intros it D. apply dependencies_from_modules_distinct.
  - intros globs D. unfold get_dependencies_from_pkg. intros [= <-].
    apply fold_dep_add_distinct. apply NoDup_nil_2.
Qed.

(** ** The module scanners *)

Section Scanners.

Context (rt : Runtime).

Lemma blacklist_spec (n : string) :
  Some n ∈ MODULE_BLACKLIST rt
  ↔ n ∈ blacklisted_names ∨ n ∈ builtin_module_names rt.
Proof.
  unfold MODULE_BLACKLIST, blacklisted_names.
  rewrite elem_of_union, elem_of_list_to_set, list_elem_of_fmap.
  rewrite !elem_of_union, !elem_of_singleton, !elem_of_cons, elem_of_nil.
  split.
  - intros [[[[[[?|?]|?]|?]|?]|?] | (y & ? & ?)]; simplify_eq; eauto 10.
  - intros [[?|[?|[?|[?|[?|?]]]]] | ?]; simplify_eq; [tauto..|].
    right. eauto.
Qed.

Lemma omap_fst_NoDup {A B : Type} (f : string * A → option (string * B))
    (l : list (string * A)) :
  (∀ x y, f x = Some y → y.1 = x.1) →
  NoDup l.*1 → NoDup (omap f l).*1.
Proof.
  intros Hf. induction l as [|x l IH]; [done|].
  cbn [fmap list_fmap omap list_omap]. intros [Hx Hl]%NoDup_cons.
  destruct (f x) as [y|] eqn:Hy; [|by apply IH].
  cbn [fmap list_fmap]. apply NoDup_cons. split; [|by apply IH].
  intros (z & Hz & Hin)%list_elem_of_fmap.
  apply list_elem_of_omap in Hin as (x' & Hx' & Hfx').
  apply Hx. apply list_elem_of_fmap. exists x'. split; [|done].
  rewrite <- (Hf x y Hy), Hz. by apply Hf.
Qed.

Lemma sys_modules_items (n : string) (m : PyModule) :
  (n, m) ∈ items (iterate_sys_modules rt)
  ↔ sys_modules rt !! n = Some (Some m) ∧ (Some n ∉ MODULE_BLACKLIST rt).
Proof.
  unfold iterate_sys_modules. cbn [items]. rewrite list_elem_of_omap. split.
  - intros ([n' mo] & Hin & Hf). apply elem_of_map_to_list in Hin.
    destruct mo as [m'|]; [|done]. case_bool_decide; [|done]. by simplify_eq.
  - intros [Hl Hb]. exists (n, Some m). split; [by apply elem_of_map_to_list|].
    by rewrite bool_decide_eq_true_2.
Qed.

Lemma sys_modules_NoDup : NoDup (items (iterate_sys_modules rt)).*1.
Proof.
  unfold iterate_sys_modules. cbn [items]. apply omap_fst_NoDup.
  - intros [n [m|]] y; [|done]. case_bool_decide; [|done]. by intros [= <-].
  - apply NoDup_fst_map_to_list.
Qed.

Lemma checked_grow (C : gset (option string)) (n0 : string)
    (rest : list string) :
  C ∪ {[Some n0]} ∪ list_to_set (Some <$> rest)
  = C ∪ list_to_set (Some <$> n0 :: rest).
Proof. cbn. by rewrite (assoc_L (∪)). Qed.

Lemma checked_known (C : gset (option string)) (n0 : string)
    (rest : list string) :
  Some n0 ∈ C →
  C ∪ list_to_set (Some <$> rest) = C ∪ list_to_set (Some <$> n0 :: rest).
Proof.
  intros Hin. rewrite <- checked_grow. f_equal.
  symmetry. rewrite (comm_L (∪)). apply subseteq_union_1_L.
  by apply singleton_subseteq_l.
Qed.

Lemma iterate_prefixes_spec (names : list string) :
  ∀ (C C' : gset (option string)) (ys : list (string * PyModule)),
    iterate_prefixes rt C names = (C', ys) →
    C' = C ∪ list_to_set (Some <$> names)
    ∧ (∀ n m, (n, m) ∈ ys
              ↔ n ∈ names ∧ (Some n ∉ C)
                ∧ sys_modules rt !! n = Some (Some m))
    ∧ NoDup ys.*1.
Proof.
  induction names as [|n0 rest IH]; intros C C' ys; cbn [iterate_prefixes].
  - intros [= <- <-]. split_and!.
    + cbn. by rewrite (right_id_L ∅ (∪)).
    + intros n m. rewrite !elem_of_nil. tauto.
    + constructor.
  - case_bool_decide as Hin.
    + intros Hrec. destruct (IH _ _ _ Hrec) as (-> & Hmem & Hnd).
      split_and!; [by apply checked_known | | done].
      intros n m. rewrite Hmem, elem_of_cons. split; [tauto|].
      intros ([->|?] & ? & ?); [done|tauto].
    + destruct (iterate_prefixes rt (C ∪ {[Some n0]}) rest) as [C1 ys0] eqn:Hrec.
      destruct (IH _ _ _ Hrec) as (-> & Hmem & Hnd).
      assert (∀ n m, (n, m) ∈ ys0
                     ↔ n ∈ rest ∧ n ≠ n0 ∧ (Some n ∉ C)
                       ∧ sys_modules rt !! n = Some (Some m)) as Hmem'.
      { intros n m. rewrite Hmem, not_elem_of_union, not_elem_of_singleton.
        split.
        - intros (Hr & [Hc Hne] & Hlk). split_and!; [done | congruence | done..].
        - intros (Hr & Hne & Hc & Hlk). split_and!; [done.. | congruence | done]. }
      clear Hmem.
      destruct (sys_modules rt !! n0) as [[m0|]|] eqn:Hl; intros [= <- <-].
      * split_and!; [apply checked_grow | |].
        -- intros n m. rewrite !elem_of_cons, Hmem'. split.
           ++ intros [[= -> ->] | (? & ? & ? & ?)]; tauto.
           ++ intros ([->|Hr] & Hn & Hlk); [left; congruence|].
              destruct (decide (n = n0)) as [->|Hne]; [left; congruence|].
              tauto.
        -- cbn [fmap list_fmap]. apply NoDup_cons. split; [|done].
           intros ([n m] & Hx1 & Hx2)%list_elem_of_fmap. simpl in Hx1. subst n.
           apply Hmem' in Hx2. tauto.
      * split_and!; [apply checked_grow | | done].
        intros n m. rewrite !elem_of_cons, Hmem'. split; [tauto|].
        intros ([->|Hr] & Hn & Hlk); [congruence|].
        destruct (decide (n = n0)) as [->|Hne]; [congruence|tauto].
      * split_and!; [apply checked_grow | | done].
        intros n m. rewrite !elem_of_cons, Hmem'. split; [tauto|].
        intros ([->|Hr] & Hn & Hlk); [congruence|].
        destruct (decide (n = n0)) as [->|Hne]; [congruence|tauto].
Qed.

Lemma iterate_globs_cons (C : gset (option string)) (glob : GlobVal)
    (rest : list GlobVal) :
  iterate_globs rt C (glob :: rest)
  = match glob_mod_path glob with
    | Raise e => mkIter [] (Some e)
    | Ok None => iterate_globs rt C rest
    | Ok (Some p) =>
        if Str.nonempty p then
          mkIter
            ((iterate_prefixes rt C (iter_prefixes p)).2
             ++ items (iterate_globs rt
                         (iterate_prefixes rt C (iter_prefixes p)).1 rest))
            (failure (iterate_globs rt
                        (iterate_prefixes rt C (iter_prefixes p)).1 rest))
        else iterate_globs rt C rest
    end.
Proof.
  cbn [iterate_globs]. unfold glob_mod_path.
  destruct glob as [m|[[p|]|]]; [destruct (mod_name m) as [p|]|..]; try done.
  all: destruct (Str.nonempty p); cbn [negb]; [|done].
  all: by destruct (iterate_prefixes rt C (iter_prefixes p)).
Qed.

Lemma glob_mod_path_raises (glob : GlobVal) (e : exn) :
  glob_mod_path glob = Raise e →
  e = AttributeError ∧ ∃ m, glob = GModule m ∧ mod_name m = None.
Proof.
  destruct glob as [m|[[p|]|]]; cbn; try done.
  destruct (mod_name m) eqn:Hn; [done|]. intros [= <-]. eauto.
Qed.

(** What the generator yields, from a set [C] of names checked before. *)
Lemma iterate_globs_sound (values : list GlobVal) :
  ∀ (C : gset (option string)) n m,
    (n, m) ∈ items (iterate_globs rt C values) →
    (Some n ∉ C) ∧ sys_modules rt !! n = Some (Some m)
    ∧ ∃ glob p, glob ∈ values ∧ glob_mod_path glob = Ok (Some p)
                ∧ p ≠ "" ∧ n ∈ iter_prefixes p.
Proof.
  induction values as [|glob rest IH]; intros C n m.
  { cbn. by intros ?%elem_of_nil. }
  assert (∀ C', C ⊆ C' → (n, m) ∈ items (iterate_globs rt C' rest) →
            (Some n ∉ C) ∧ sys_modules rt !! n = Some (Some m)
            ∧ ∃ glob0 p, glob0 ∈ glob :: rest
                         ∧ glob_mod_path glob0 = Ok (Some p)
                         ∧ p ≠ "" ∧ n ∈ iter_prefixes p) as Hrest.
  { intros C' Hsub Hin.
    destruct (IH C' n m Hin) as (Hn & Hl & g & p & Hg & Hp & Hne & Hpre).
    split_and!; [intros ?; by apply Hn, Hsub | done |].
    exists g, p. split_and!; [by right | done..]. }
  rewrite iterate_globs_cons.
  destruct (glob_mod_path glob) as [[p|]|e] eqn:Hg;
    [|by apply Hrest|cbn; by intros ?%elem_of_nil].
  destruct (Str.nonempty p) eqn:Hne; [|by apply Hrest].
  destruct (iterate_prefixes rt C (iter_prefixes p)) as [C' ys] eqn:Hpre.
  destruct (iterate_prefixes_spec _ _ _ _ Hpre) as (-> & Hmem & _).
  cbn [fst snd items]. intros [Hin | Hin]%elem_of_app.
  - apply Hmem in Hin as (Hin & Hn & Hl). split_and!; [done..|].
    exists glob, p. split_and!; [by left | done | | done].
    intros ->. done.
  - apply Hrest in Hin; [done | apply union_subseteq_l].
Qed.

Lemma iterate_globs_NoDup (values : list GlobVal) :
  ∀ C : gset (option string), NoDup (items (iterate_globs rt C values)).*1.
Proof.
  induction values as [|glob rest IH]; intros C; [constructor|].
  rewrite iterate_globs_cons.
  destruct (glob_mod_path glob) as [[p|]|e]; [|apply IH|constructor].
  destruct (Str.nonempty p); [|apply IH].
  destruct (iterate_prefixes rt C (iter_prefixes p)) as [C' ys] eqn:Hpre.
  destruct (iterate_prefixes_spec _ _ _ _ Hpre) as (-> & Hmem & Hnd).
  cbn [fst snd items]. rewrite fmap_app. apply NoDup_app.
  split_and!; [done | | apply IH].
  intros n ([n' m] & Hn & Hin)%list_elem_of_fmap
           ([n'' m'] & Hn' & Hin')%list_elem_of_fmap.
  simpl in Hn, Hn'. subst n' n''.
  apply Hmem in Hin as (Hin & _ & _).
  apply iterate_globs_sound in Hin' as (Hnot & _).
  apply Hnot. apply elem_of_union_r, elem_of_list_to_set, list_elem_of_fmap.
  eauto.
Qed.

Lemma iterate_globs_failure (values : list GlobVal) :
  ∀ C : gset (option string),
    (failure (iterate_globs rt C values) = None
     ∧ ∀ glob, glob ∈ values → ∃ p, glob_mod_path glob = Ok p)
    ∨ (failure (iterate_globs rt C values) = Some AttributeError
       ∧ ∃ m, GModule m ∈ values ∧ mod_name m = None).
Proof.
  induction values as [|glob rest IH]; intros C.
  { left. split; [done|]. by intros glob ?%elem_of_nil. }
  assert (∀ C' p0, glob_mod_path glob = Ok p0 →
            (failure (iterate_globs rt C' rest) = None
             ∧ ∀ g, g ∈ glob :: rest → ∃ p, glob_mod_path g = Ok p)
            ∨ (failure (iterate_globs rt C' rest) = Some AttributeError
               ∧ ∃ m, GModule m ∈ glob :: rest ∧ mod_name m = None)) as Hrest.
  { intros C' p0 Hg. destruct (IH C') as [[Hf Hall] | (Hf & m & Hin & Hm)].
    - left. split; [done|]. intros g [->|Hin]%elem_of_cons; eauto.
    - right. split; [done|]. exists m. split; [by right | done]. }
  rewrite iterate_globs_cons.
  destruct (glob_mod_path glob) as [[p|]|e] eqn:Hg; [|by eapply Hrest|].
  - destruct (Str.nonempty p); [|by eapply Hrest].
    cbn [failure]. by eapply Hrest.
  - apply glob_mod_path_raises in Hg as (-> & m & -> & Hm).
    right. split; [done|]. exists m. split; [by left | done].
Qed.

Lemma iterate_globs_complete (values : list GlobVal) :
  ∀ (C : gset (option string)) glob p n m,
    failure (iterate_globs rt C values) = None →
    glob ∈ values → glob_mod_path glob = Ok (Some p) → p ≠ "" →
    n ∈ iter_prefixes p → Some n ∉ C →
    sys_modules rt !! n = Some (Some m) →
    (n, m) ∈ items (iterate_globs rt C values).
Proof.
  induction values as [|glob0 rest IH]; intros C glob p n m.
  { by intros _ ?%elem_of_nil. }
  rewrite iterate_globs_cons.
  intros Hf Hin Hg Hne Hpre Hn Hl.
  assert (Str.nonempty p = true) as Hp.
  { unfold Str.nonempty. by destruct (String.eqb_spec p ""). }
  destruct (glob_mod_path glob0) as [[p0|]|e] eqn:Hg0; [| |done].
  - destruct (Str.nonempty p0) eqn:Hp0.
    + destruct (iterate_prefixes rt C (iter_prefixes p0)) as [C' ys] eqn:Hrun.
      destruct (iterate_prefixes_spec _ _ _ _ Hrun) as (-> & Hmem & _).
      cbn [fst snd items failure] in *. apply elem_of_app.
      destruct (decide (n ∈ iter_prefixes p0)) as [Hn0 | Hn0].
      { left. by apply Hmem. }
      apply elem_of_cons in Hin as [-> | Hin].
      { assert (p0 = p) as -> by congruence. done. }
      right. eapply IH; try done.
      rewrite elem_of_union, elem_of_list_to_set, list_elem_of_fmap.
      intros [? | (y & [= <-] & ?)]; done.
    + apply elem_of_cons in Hin as [-> | Hin]; [|by eapply IH].
      assert (p0 = p) as -> by congruence. congruence.
  - apply elem_of_cons in Hin as [-> | Hin]; [congruence|].
    by eapply IH.
Qed.

End Scanners.

(** X8: [iterate_sys_modules] never raises and yields exactly the loaded
    modules ([sys.modules] entries that are not [None]) whose name is not
    black-listed, each name once; the black list is the five names written
    out and the built-in module names. *)
Theorem iterate_sys_modules_spec (rt : Runtime) :
  failure (iterate_sys_modules rt) = None
  ∧ (∀ n m, (n, m) ∈ items (iterate_sys_modules rt)
            ↔ sys_modules rt !! n = Some (Some m)
              ∧ (n ∉ blacklisted_names) ∧ (n ∉ builtin_module_names rt))
  ∧ NoDup (items (iterate_sys_modules rt)).*1.
Proof.
  split_and!.
  - done.
  - intros n m. rewrite sys_modules_items, blacklist_spec. tauto.
  - apply sys_modules_NoDup.
Qed.

(** X9: [iterate_imported_modules] yields a module only under a name that
    is a dotted prefix of the module path of one of the globals, is not
    black-listed and is bound to that module in [sys.modules]; no name is
    yielded twice.  It ends normally unless a global is a module without
    [__name__], and then with AttributeError; when it ends normally, every
    such name is yielded. *)
Theorem iterate_imported_modules_spec (rt : Runtime) (globs : Namespace) :
  (∀ n m, (n, m) ∈ items (iterate_imported_modules rt globs) →
     sys_modules rt !! n = Some (Some m)
     ∧ (n ∉ blacklisted_names) ∧ (n ∉ builtin_module_names rt)
     ∧ ∃ glob p, glob ∈ ns_values globs ∧ glob_mod_path glob = Ok (Some p)
                 ∧ p ≠ "" ∧ n ∈ iter_prefixes p)
  ∧ NoDup (items (iterate_imported_modules rt globs)).*1
  ∧ ((failure (iterate_imported_modules rt globs) = None
      ∧ ∀ glob, glob ∈ ns_values globs → ∃ p, glob_mod_path glob = Ok p)
     ∨ (failure (iterate_imported_modules rt globs) = Some AttributeError
        ∧ ∃ m, GModule m ∈ ns_values globs ∧ mod_name m = None))
  ∧ (failure (iterate_imported_modules rt globs) = None →
     ∀ glob p n m,
       glob ∈ ns_values globs → glob_mod_path glob = Ok (Some p) → p ≠ "" →
       n ∈ iter_prefixes p →
       n ∉ blacklisted_names → n ∉ builtin_module_names rt →
       sys_modules rt !! n = Some (Some m) →
       (n, m) ∈ items (iterate_imported_modules rt globs)).
Proof.
  unfold iterate_imported_modules. split_and!.
  - intros n m Hin.
    apply iterate_globs_sound in Hin as (Hn & Hl & Hglob).
    rewrite blacklist_spec in Hn. tauto.
  - apply iterate_globs_NoDup.
  - apply iterate_globs_failure.
  - intros Hf glob p n m Hin Hg Hne Hpre Hb1 Hb2 Hl.
    eapply iterate_globs_complete; try done.
    rewrite blacklist_spec. tauto.
Qed.

(** ** The directory strategy *)

Section PythonFiles.

Context (rt : Runtime) (base : string).

Lemma join2_suffix (a b : string) : ∃ pre, PosixPath.join2 a b = pre +:+ b.
Proof.
  unfold PosixPath.join2. destruct (Str.startswith b "/"); [by exists ""|].
  destruct (_ || _); [by exists a|].
  exists (a +:+ "/"). by rewrite str_app_assoc.
Qed.

Lemma python_files_elem (p : string) :
  p ∈ iterate_all_python_files rt base
  ↔ ∃ dirname subdirs files filename,
      (dirname, subdirs, files) ∈ os_walk rt base
      ∧ Str.has_substring "__pycache__" dirname = false
      ∧ filename ∈ files
      ∧ Str.endswith filename ".py" = true
      ∧ p = PosixPath.join base [dirname; filename].
Proof.
  unfold iterate_all_python_files. rewrite list_elem_of_In, in_flat_map. split.
  - intros ([[d sd] fl] & Hw & Hp).
    destruct (Str.has_substring "__pycache__" d) eqn:Hc; [done|].
    apply in_map_iff in Hp as (f & <- & Hf).
    apply filter_In in Hf as [Hf He].
    exists d, sd, fl, f. by rewrite !list_elem_of_In.
  - intros (d & sd & fl & f & Hw & Hc & Hf & He & ->).
    exists (d, sd, fl). split; [by apply list_elem_of_In|].
    rewrite Hc. apply in_map_iff. exists f. split; [done|].
    apply filter_In. split; [by apply list_elem_of_In | done].
Qed.

Lemma local_dir_complete (globs : Namespace) (S : list PyObj) :
  get_sources_from_local_dir rt globs base = Ok S →
  ∀ p, p ∈ iterate_all_python_files rt base →
    ∃ s, Source_create rt (Some p) = Ok s ∧ in_set rt (OSrc s) S = true.
Proof.
  unfold get_sources_from_local_dir. intros Hrun.
  refine (for_each_establishes _
            (λ p S, ∃ s, Source_create rt (Some p) = Ok s
                         ∧ in_set rt (OSrc s) S = true) _ _ _ _ _ Hrun).
  - intros S0 p S1.
    destruct (Source_create rt (Some p)) as [s|]; cbn [mbind result_bind];
      [|done].
    intros [= <-]. exists s. split; [done|]. apply in_set_add_self.
  - intros S0 p S1 q.
    destruct (Source_create rt (Some p)) as [s|]; cbn [mbind result_bind];
      [|done].
    intros [= <-] (s' & Hs' & Hin). exists s'. split; [done|].
    by apply in_set_add.
Qed.

End PythonFiles.

(** X10: [iterate_all_python_files] yields, for every directory that
    [os.walk] reports and whose name does not contain [__pycache__], the
    files of that directory whose name ends in [.py], joined to the base
    path and the directory name, and nothing else.  Every path it yields
    ends in [.py]; an absolute directory name makes the join drop the base
    path.  When [get_sources_from_local_dir] returns, every path yielded
    gave a [Source] that the result holds. *)
Theorem iterate_all_python_files_spec (rt : Runtime) (base : string) :
  (∀ p, p ∈ iterate_all_python_files rt base
        ↔ ∃ dirname subdirs files filename,
            (dirname, subdirs, files) ∈ os_walk rt base
            ∧ Str.has_substring "__pycache__" dirname = false
            ∧ filename ∈ files
            ∧ Str.endswith filename ".py" = true
            ∧ p = PosixPath.join base [dirname; filename])
  ∧ (∀ p, p ∈ iterate_all_python_files rt base →
          Str.endswith p ".py" = true)
  ∧ (∀ dirname filename,
       PosixPath.isabs dirname = true →
       PosixPath.join base [dirname; filename]
       = PosixPath.join2 dirname filename)
  ∧ (∀ globs S, get_sources_from_local_dir rt globs base = Ok S →
       ∀ p, p ∈ iterate_all_python_files rt base →
         path_exists rt p = true
         ∧ ∃ s, Source_create rt (Some p) = Ok s
                ∧ in_set rt (OSrc s) S = true).
Proof.
  split_and!.
  - apply python_files_elem.
  - intros p (d & sd & fl & f & _ & _ & _ & He & ->)%python_files_elem.
    unfold PosixPath.join. cbn [fold_left].
    destruct (join2_suffix (PosixPath.join2 base d) f) as [pre ->].
    by apply endswith_app.
  - intros d f Hd. unfold PosixPath.join. cbn [fold_left].
    unfold PosixPath.join2 at 2. unfold PosixPath.isabs in Hd. by rewrite Hd.
  - intros globs S Hrun p Hp.
    destruct (local_dir_complete rt base globs S Hrun p Hp) as (s & Hs & Hin).
    split; [|by exists s].
    unfold Source_create in Hs.
    destruct (path_exists rt p); [done|]. by rewrite orb_true_r in Hs.
Qed.

(** ** [Source.to_json] *)

Section ToJson.

Context (rt : Runtime).

Lemma str_nonempty_true (s : string) : s ≠ "" → Str.nonempty s = true.
Proof. intros Hne. unfold Str.nonempty. by destruct (String.eqb_spec s ""). Qed.

Lemma not_abs_app (a t : string) :
  a ≠ "" → PosixPath.isabs a = false →
  a +:+ t ≠ "" ∧ PosixPath.isabs (a +:+ t) = false.
Proof.
  destruct a as [|c r]; [done|]. intros _ Habs. rewrite str_app_cons.
  split; [done|]. apply not_true_iff_false.
  intros [r' [= -> _]]%startswith_sep.
  apply not_true_iff_false in Habs. apply Habs, startswith_sep. eauto.
Qed.

Lemma join_relative (p : list string) :
  ∀ a, a ≠ "" → PosixPath.isabs a = false →
       Forall (λ x, PosixPath.isabs x = false) p →
       PosixPath.join a p ≠ "" ∧ PosixPath.isabs (PosixPath.join a p) = false.
Proof.
  unfold PosixPath.join.
  induction p as [|x p IH]; intros a Hne Habs Hp; [done|].
  apply Forall_cons in Hp as [Hx Hp]. cbn [fold_left].
  assert (PosixPath.join2 a x ≠ ""
          ∧ PosixPath.isabs (PosixPath.join2 a x) = false) as [? ?].
  { unfold PosixPath.join2. unfold PosixPath.isabs in Hx. rewrite Hx.
    destruct (_ || _); by apply not_abs_app. }
  by apply IH.
Qed.

Lemma str_split_no_sep (c : ascii) (s : string) :
  Forall (λ x, Str.contains c x = false) (Str.split c s).
Proof.
  induction s as [|a s IH]; cbn [Str.split]; [by repeat constructor|].
  destruct (Ascii.eqb a c) eqn:Hac; [by constructor|].
  destruct (Str.split c s) as [|h t].
  - repeat constructor. cbn. by rewrite Hac.
  - apply Forall_cons in IH as [Hh Ht]. constructor; [|done].
    cbn. by rewrite Hac, Hh.
Qed.

Lemma path_list_relative (p : string) :
  Forall (λ x, x ≠ "" ∧ PosixPath.isabs x = false) (PosixPath.path_list rt p).
Proof.
  unfold PosixPath.path_list. apply Forall_forall. intros x Hx.
  apply list_elem_of_In, filter_In in Hx as [Hx Hne].
  split.
  - intros ->. done.
  - pose proof (str_split_no_sep PosixPath.sep (PosixPath.abspath rt p)) as Hf.
    rewrite Forall_forall in Hf. specialize (Hf x).
    apply not_true_iff_false. intros [r ->]%startswith_sep.
    rewrite contains_startswith in Hf.
    assert (true = false) by (apply Hf; by apply list_elem_of_In). done.
Qed.

Lemma relpath_relative (path start rel : string) :
  PosixPath.relpath rt path start = Ok rel →
  rel ≠ "" ∧ PosixPath.isabs rel = false.
Proof.
  unfold PosixPath.relpath. destruct (negb (Str.nonempty path)); [done|].
  cbv zeta.
  set (k := (length (PosixPath.path_list rt start) - _)%nat).
  set (i := PosixPath.commonprefix_len _ _).
  assert (Forall (λ x, x ≠ "" ∧ PosixPath.isabs x = false)
            (List.repeat ".." k ++ skipn i (PosixPath.path_list rt path))%list)
    as Hall.
  { apply Forall_app. split.
    - apply Forall_forall. intros x Hx%list_elem_of_In.
      apply repeat_spec in Hx as ->. done.
    - apply Forall_drop, path_list_relative. }
  destruct (_ ++ _)%list as [|a p]; [by intros [= <-]|].
  intros [= <-]. apply Forall_cons in Hall as [[Ha1 Ha2] Hp].
  apply join_relative; [done..|].
  eapply Forall_impl; [exact Hp|]. by intros x [_ ?].
Qed.

Lemma commonprefix_len_refl (l : list string) :
  PosixPath.commonprefix_len l l = length l.
Proof.
  induction l as [|a l IH]; [done|]. cbn [PosixPath.commonprefix_len length].
  by rewrite String.eqb_refl, IH.
Qed.

Lemma relpath_self (path : string) :
  path ≠ "" → PosixPath.relpath rt path path = Ok ".".
Proof.
  intros Hne. unfold PosixPath.relpath. rewrite str_nonempty_true by done.
  cbn [negb]. cbv zeta. rewrite commonprefix_len_refl, Nat.sub_diag.
  cbn [List.repeat app]. by rewrite skipn_all.
Qed.

End ToJson.

(** X11: [Source.to_json] always gives the digest as second component.
    Without a base directory ([None] or the empty string) the first is the
    file name as stored; with one it is the file name relative to it: never
    empty, never absolute, and [.] when the base is the file name itself.
    The call raises only for an empty file name, which no [Source] made by
    [Source.create] has. *)
Theorem Source_to_json_spec (rt : Runtime) (s : Source) :
  Source_to_json rt s None = Ok (filename s, digest s)
  ∧ Source_to_json rt s (Some "") = Ok (filename s, digest s)
  ∧ (∀ d, d ≠ "" → filename s = "" →
       Source_to_json rt s (Some d) = Raise (ValueError "no path specified"))
  ∧ (∀ d, d ≠ "" → filename s ≠ "" →
       ∃ rel, Source_to_json rt s (Some d) = Ok (rel, digest s)
              ∧ rel ≠ "" ∧ PosixPath.isabs rel = false)
  ∧ (filename s ≠ "" →
     Source_to_json rt s (Some (filename s)) = Ok (".", digest s))
  ∧ (∀ f, Source_create rt (Some f) = Ok s →
       ∀ b, ∃ r, Source_to_json rt s b = Ok (r, digest s)).
Proof.
  assert (∀ d, d ≠ "" → filename s ≠ "" →
            ∃ rel, Source_to_json rt s (Some d) = Ok (rel, digest s)
                   ∧ rel ≠ "" ∧ PosixPath.isabs rel = false) as Hrel.
  { intros d Hd Hf. unfold Source_to_json. rewrite str_nonempty_true by done.
    destruct (relpath_total rt d (filename s) Hf) as [rel Hr].
    rewrite Hr. cbn [mbind result_bind]. exists rel. split; [done|].
    by eapply relpath_relative. }
  split_and!.
  - done.
  - done.
  - intros d Hd Hf. unfold Source_to_json. rewrite str_nonempty_true by done.
    unfold PosixPath.relpath. by rewrite Hf.
  - exact Hrel.
  - intros Hf. unfold Source_to_json. rewrite str_nonempty_true by done.
    by rewrite relpath_self.
  - intros f Hc b.
    assert (filename s ≠ "") as Hf.
    { unfold Source_create in Hc.
      destruct (_ || _); [done|].
      destruct (get_py_file_if_possible rt (PosixPath.abspath rt f))
        as [main_file|] eqn:Hpy; [|done].
      cbn [mbind result_bind] in Hc.
      destruct (get_commit_if_possible rt main_file) as [[r c] dty].
      destruct (get_digest rt main_file) as [dg|]; [|done].
      cbn [mbind result_bind] in Hc. injection Hc as <-. cbn [filename].
      destruct (get_py_file_result rt _ main_file Hpy) as (Hsuffix & _).
      intros ->. by destruct Hsuffix. }
    destruct b as [d|]; [|by eexists].
    destruct (decide (d = "")) as [->|Hd]; [by eexists|].
    destruct (Hrel d Hd Hf) as (rel & Hr & _). eauto.
Qed.

(** ** The orchestrator: strategies, result sets and errors *)

Section GatherRuns.

Lemma source_strategy_cases (k : string) (gs : source_strategy) :
  source_discovery_strategies !! k = Some gs →
  (k = "none" ∧ gs = (λ _ _ _, Ok []))
  ∨ (k = "imported" ∧ gs = get_sources_from_imported_modules)
  ∨ (k = "sys" ∧ gs = get_sources_from_sys_modules)
  ∨ (k = "dir" ∧ gs = get_sources_from_local_dir).
Proof.
  unfold source_discovery_strategies.
  rewrite !lookup_insert_Some, lookup_singleton_Some.
  intros [[<- <-] | [_ [[<- <-] | [_ [[<- <-] | [_ [<- <-]]]]]]]; tauto.
Qed.

Lemma dependency_strategy_cases (k : string) (gd : dependency_strategy) :
  dependency_discovery_strategies !! k = Some gd →
  (k = "none" ∧ gd = (λ _ _ _, Ok []))
  ∨ (k = "imported" ∧ gd = get_dependencies_from_imported_modules)
  ∨ (k = "sys" ∧ gd = get_dependencies_from_sys_modules)
  ∨ (k = "pkg" ∧ gd = get_dependencies_from_pkg).
Proof.
  unfold dependency_discovery_strategies.
  rewrite !lookup_insert_Some, lookup_singleton_Some.
  intros [[<- <-] | [_ [[<- <-] | [_ [[<- <-] | [_ [<- <-]]]]]]]; tauto.
Qed.

Lemma source_strategy_unknown (k : string) :
  k ∉ ["none"; "imported"; "sys"; "dir"] →
  source_discovery_strategies !! k = None.
Proof.
  intros Hk. destruct (source_discovery_strategies !! k) as [gs|] eqn:E; [|done].
  destruct Hk. rewrite !elem_of_cons.
  apply source_strategy_cases in E. tauto.
Qed.

Lemma dependency_strategy_unknown (k : string) :
  k ∉ ["none"; "imported"; "sys"; "pkg"] →
  dependency_discovery_strategies !! k = None.
Proof.
  intros Hk.
  destruct (dependency_discovery_strategies !! k) as [gd|] eqn:E; [|done].
  destruct Hk. rewrite !elem_of_cons.
  apply dependency_strategy_cases in E. tauto.
Qed.

Context (rt : Runtime) (globs : Namespace).

(** What a normal return of [gather_sources_and_dependencies] went
    through. *)
Lemma gather_inv (main : option Source) (S : list PyObj)
    (D : list PackageDependency) :
  gather_sources_and_dependencies rt globs = Ok (main, S, D) →
  ∃ path ds gs S0 dd gd D0,
    get_main_file rt globs = Ok (path, main)
    ∧ SETTINGS rt !! "DISCOVER_SOURCES" = Some ds
    ∧ source_discovery_strategies !! ds = Some gs
    ∧ gs rt globs path = Ok S0
    ∧ S = set_add rt (obj_of_main main) S0
    ∧ SETTINGS rt !! "DISCOVER_DEPENDENCIES" = Some dd
    ∧ dependency_discovery_strategies !! dd = Some gd
    ∧ gd rt globs path = Ok D0
    ∧ ((has_numpy rt = false ∧ D = D0)
       ∨ (has_numpy rt = true
          ∧ ∃ p, PackageDependency_create rt (np rt) = Ok p
                 ∧ D = dep_add rt p D0)).
Proof.
  unfold gather_sources_and_dependencies, getitem. intros Hrun.
  destruct (get_main_file rt globs) as [[path main']|] eqn:Hmain; [|done].
  cbn [mbind result_bind] in Hrun.
  destruct (SETTINGS rt !! "DISCOVER_SOURCES") as [ds|] eqn:Hds; [|done].
  cbn [mbind result_bind] in Hrun.
  destruct (source_discovery_strategies !! ds) as [gs|] eqn:Hgs; [|done].
  cbn [mbind result_bind] in Hrun.
  destruct (gs rt globs path) as [S0|] eqn:HS0; [|done].
  cbn [mbind result_bind] in Hrun.
  destruct (SETTINGS rt !! "DISCOVER_DEPENDENCIES") as [dd|] eqn:Hdd; [|done].
  cbn [mbind result_bind] in Hrun.
  destruct (dependency_discovery_strategies !! dd) as [gd|] eqn:Hgd; [|done].
  cbn [mbind result_bind] in Hrun.
  destruct (gd rt globs path) as [D0|] eqn:HD0; [|done].
  cbn [mbind result_bind] in Hrun.
  exists path, ds, gs, S0, dd, gd, D0.
  destruct (has_numpy rt).
  - destruct (PackageDependency_create rt (np rt)) as [p|]; [|done].
    cbn [mbind result_bind] in Hrun. simplify_eq.
    split_and!; try done. right. eauto.
  - cbn [mbind result_bind] in Hrun. simplify_eq.
    split_and!; try done. by left.
Qed.

Lemma strategy_sources_shape (k : string) (gs : source_strategy)
    (path : string) (S0 : list PyObj) :
  source_discovery_strategies !! k = Some gs →
  gs rt globs path = Ok S0 →
  pairwise_distinct S0 ∧ ∀ o, o ∈ S0 → ∃ s, o = OSrc s.
Proof.
  intros Hk Hrun.
  destruct (source_strategy_cases k gs Hk)
    as [[_ ->] | [[_ ->] | [[_ ->] | [_ ->]]]].
  - simplify_eq. split; [apply pairwise_distinct_nil|].
    by intros o ?%elem_of_nil.
  - split; [by eapply sources_from_modules_distinct|].
    intros o Ho. destruct (sources_origin rt path _ S0 Hrun o Ho)
      as (n & m & file & s & _ & -> & _). eauto.
  - split; [by eapply sources_from_modules_distinct|].
    intros o Ho. destruct (sources_origin rt path _ S0 Hrun o Ho)
      as (n & m & file & s & _ & -> & _). eauto.
  - destruct (sources_from_local_dir_spec rt path globs S0 Hrun) as [Hd Ho].
    split; [done|]. intros o Hin.
    destruct (Ho o Hin) as (p & s & -> & _). eauto.
Qed.

Lemma strategy_dependencies_shape (k : string) (gd : dependency_strategy)
    (path : string) (D0 : list PackageDependency) :
  dependency_discovery_strategies !! k = Some gd →
  gd rt globs path = Ok D0 →
  distinct_names D0.
Proof.
  intros Hk Hrun.
  destruct (dependency_strategy_cases k gd Hk)
    as [[_ ->] | [[_ ->] | [[_ ->] | [_ ->]]]].
  - simplify_eq. apply NoDup_nil_2.
  - by eapply dependencies_from_modules_distinct.
  - by eapply dependencies_from_modules_distinct.
  - unfold get_dependencies_from_pkg in Hrun. simplify_eq.
    apply fold_dep_add_distinct. apply NoDup_nil_2.
Qed.

End GatherRuns.

(** X12: what [gather_sources_and_dependencies] returns.  The sources are
    a set without two equal elements, made of [Source] records and of the
    main entry (a [Source], or [None] without [__file__]), never of a bare
    file name; no two dependencies have the same name; and with numpy
    available the dependency created from it, or one of its name that was
    found before, is among the dependencies. *)
Theorem gather_result_sets (rt : Runtime) (globs : Namespace)
    (main : option Source) (S : list PyObj) (D : list PackageDependency) :
  gather_sources_and_dependencies rt globs = Ok (main, S, D) →
  pairwise_distinct S
  ∧ (∀ o, o ∈ S → o = obj_of_main main ∨ ∃ s, o = OSrc s)
  ∧ (∀ f, OStr f ∉ S)
  ∧ NoDup (name <$> D)
  ∧ (has_numpy rt = true →
     ∃ p d, PackageDependency_create rt (np rt) = Ok p
            ∧ d ∈ D ∧ name d = name p).
Proof.
  intros Hrun.
  destruct (gather_inv rt globs main S D Hrun)
    as (path & ds & gs & S0 & dd & gd & D0
        & Hmain & Hds & Hgs & HS0 & -> & Hdd & Hgd & HD0 & HD).
  destruct (strategy_sources_shape rt globs ds gs path S0 Hgs HS0)
    as [Hdist Hsrc].
  pose proof (strategy_dependencies_shape rt globs dd gd path D0 Hgd HD0)
    as HdistD.
  assert (∀ o, o ∈ set_add rt (obj_of_main main) S0 →
               o = obj_of_main main ∨ ∃ s, o = OSrc s) as Hshape.
  { intros o [Ho | ->]%elem_of_set_add; [right; by apply Hsrc | by left]. }
  split_and!.
  - by apply set_add_distinct.
  - exact Hshape.
  - intros f Hf. destruct (Hshape _ Hf) as [Heq | [s Heq]]; [|done].
    by destruct main.
  - destruct HD as [[_ ->] | (_ & p & _ & ->)]; [done|].
    by apply dep_add_distinct.
  - intros Hnp. destruct HD as [[Hno _] | (_ & p & Hp & ->)]; [congruence|].
    pose proof (dep_in_set_add_self rt p D0) as Hin.
    apply dep_in_set_spec in Hin as (d & Hd & Hname). eauto.
Qed.

Lemma gather_result_sets_witness :
  gather_sources_and_dependencies (bare_runtime "/exp")
    (mkNamespace None [GObject None])
  = Ok (None, [ONone], [])
  ∧ NoDup (name <$> ([] : list PackageDependency)).
Proof.
  assert (gather_sources_and_dependencies (bare_runtime "/exp")
            (mkNamespace None [GObject None])
          = Ok (None, [ONone], [])) as Hrun by (by vm_compute).
  split; [exact Hrun|].
  exact (proj1 (proj2 (proj2 (proj2
           (gather_result_sets _ _ _ _ _ Hrun))))).
Defined.

(** X13: the order in which [gather_sources_and_dependencies] fails.  An
    error of [get_main_file] comes first; then a missing or unknown
    [DISCOVER_SOURCES] setting is a KeyError ([pkg] is no source strategy)
    and an error of the source strategy is passed on; only then is
    [DISCOVER_DEPENDENCIES] looked up, a missing or unknown value again a
    KeyError ([dir] is no dependency strategy), and an error of the
    dependency strategy passed on; last, with numpy available but without
    [__name__], the call raises AttributeError. *)
Theorem gather_error_order (rt : Runtime) (globs : Namespace) :
  (∀ e, get_main_file rt globs = Raise e →
        gather_sources_and_dependencies rt globs = Raise e)
  ∧ (∀ path main, get_main_file rt globs = Ok (path, main) →
       (SETTINGS rt !! "DISCOVER_SOURCES" = None →
        gather_sources_and_dependencies rt globs
        = Raise (KeyError "DISCOVER_SOURCES"))
       ∧ (∀ k, SETTINGS rt !! "DISCOVER_SOURCES" = Some k →
               k ∉ ["none"; "imported"; "sys"; "dir"] →
               gather_sources_and_dependencies rt globs = Raise (KeyError k))
       ∧ (∀ k (gs : source_strategy),
            SETTINGS rt !! "DISCOVER_SOURCES" = Some k →
            source_discovery_strategies !! k = Some gs →
            (∀ e, gs rt globs path = Raise e →
                  gather_sources_and_dependencies rt globs = Raise e)
            ∧ (∀ S0, gs rt globs path = Ok S0 →
                 (SETTINGS rt !! "DISCOVER_DEPENDENCIES" = None →
                  gather_sources_and_dependencies rt globs
                  = Raise (KeyError "DISCOVER_DEPENDENCIES"))
                 ∧ (∀ k', SETTINGS rt !! "DISCOVER_DEPENDENCIES" = Some k' →
                          k' ∉ ["none"; "imported"; "sys"; "pkg"] →
                          gather_sources_and_dependencies rt globs
                          = Raise (KeyError k'))
                 ∧ (∀ k' (gd : dependency_strategy),
                      SETTINGS rt !! "DISCOVER_DEPENDENCIES" = Some k' →
                      dependency_discovery_strategies !! k' = Some gd →
                      (∀ e, gd rt globs path = Raise e →
                            gather_sources_and_dependencies rt globs = Raise e)
                      ∧ (∀ D0, gd rt globs path = Ok D0 →
                           has_numpy rt = true →
                           mod_name (np rt) = None →
                           gather_sources_and_dependencies rt globs
                           = Raise AttributeError)))))
  ∧ source_discovery_strategies !! "pkg" = None
  ∧ dependency_discovery_strategies !! "dir" = None.
Proof.
  split_and!.
  - intros e He. unfold gather_sources_and_dependencies. by rewrite He.
  - intros path main Hmain. unfold gather_sources_and_dependencies, getitem.
    rewrite Hmain. cbn [mbind result_bind]. split_and!.
    + by intros ->.
    + intros k -> Hk. cbn [mbind result_bind].
      by rewrite source_strategy_unknown.
    + intros k gs -> Hgs. cbn [mbind result_bind]. rewrite Hgs.
      cbn [mbind result_bind]. split.
      * by intros e ->.
      * intros S0 ->. cbn [mbind result_bind]. split_and!.
        -- by intros ->.
        -- intros k' -> Hk'. cbn [mbind result_bind].
           by rewrite dependency_strategy_unknown.
        -- intros k' gd -> Hgd. cbn [mbind result_bind]. rewrite Hgd.
           cbn [mbind result_bind]. split.
           ++ by intros e ->.
           ++ intros D0 -> -> Hnp. cbn [mbind result_bind].
              unfold PackageDependency_create. by rewrite Hnp.
  - apply source_strategy_unknown. rewrite !elem_of_cons, elem_of_nil.
    intros [?|[?|[?|[?|?]]]]; done.
  - apply dependency_strategy_unknown. rewrite !elem_of_cons, elem_of_nil.
    intros [?|[?|[?|[?|?]]]]; done.
Qed.

(** ** Installed packages and recorded versions *)

Section Packages.

Context (rt : Runtime).

(** The set built from the distributions [l] on top of [D0]: what was
    there stays, and a key that is new gets the version of its first
    distribution. *)
Lemma fold_dep_add_elem (l : list (string * string)) :
  ∀ (D0 : list PackageDependency) (d : PackageDependency),
    d ∈ fold_left (λ dependencies '(key, version),
                     dep_add rt (mkPackageDependency key (Some version))
                             dependencies) l D0
    ↔ d ∈ D0
      ∨ (name d ∉ name <$> D0)
        ∧ ∃ dist, List.find (λ dist, String.eqb (fst dist) (name d)) l
                  = Some dist
                  ∧ d = mkPackageDependency (fst dist) (Some (snd dist)).
Proof.
  induction l as [|[k v] l IH]; intros D0 d; cbn [fold_left List.find].
  { split; [by left | intros [? | (_ & dist & ? & _)]; done]. }
  rewrite IH. clear IH. cbn [fst]. unfold dep_add.
  destruct (dep_in_set rt (mkPackageDependency k (Some v)) D0) eqn:Hin.
  - apply dep_in_set_spec in Hin as (e & He & Hname). cbn [name] in Hname.
    assert (k ∈ name <$> D0) as Hk.
    { apply list_elem_of_fmap. by exists e. }
    split.
    + intros [? | (Hn & dist & Hf & ->)]; [by left | right].
      split; [done|]. exists dist. split; [|done].
      destruct (String.eqb_spec k (name
        (mkPackageDependency dist.1 (Some dist.2)))) as [Heq|]; [|done].
      rewrite <- Heq in Hn. done.
    + intros [? | (Hn & dist & Hf & ->)]; [by left | right].
      split; [done|]. exists dist. split; [|done].
      destruct (String.eqb_spec k (name
        (mkPackageDependency dist.1 (Some dist.2)))) as [Heq|]; [|done].
      rewrite <- Heq in Hn. done.
  - pose proof (dep_in_set_false rt _ _ Hin) as Hk. cbn [name] in Hk.
    rewrite elem_of_app, list_elem_of_singleton, fmap_app, not_elem_of_app.
    cbn [fmap list_fmap name]. rewrite list_elem_of_singleton.
    split.
    + intros [[? | ->] | ([Hn Hne] & dist & Hf & ->)].
      * by left.
      * right. split; [done|]. exists (k, v). cbn [name].
        by rewrite String.eqb_refl.
      * right. split; [done|]. exists dist. split; [|done].
        destruct (String.eqb_spec k (name
          (mkPackageDependency dist.1 (Some dist.2)))) as [Heq|]; [|done].
        by destruct Hne.
    + intros [? | (Hn & dist & Hf & ->)]; [by left; left|].
      cbn [name] in *.
      destruct (String.eqb_spec k dist.1) as [Heq|Hne].
      * left. right. injection Hf as <-. done.
      * right. split; [split; [done | congruence]|]. by exists dist.
Qed.

End Packages.

(** X14: [get_dependencies_from_pkg] never raises and does not look at its
    arguments.  It returns one dependency for each key of the working set,
    with the version of the first distribution of that key: the one that
    [fill_missing_version] would look up for that name. *)
Theorem get_dependencies_from_pkg_spec (rt : Runtime) :
  ∃ D, (∀ globs base, get_dependencies_from_pkg rt globs base = Ok D)
       ∧ (∀ d, d ∈ D ↔ ∃ v, by_key_get rt (name d) = Some v
                            ∧ version d = Some v)
       ∧ (∀ k v, (k, v) ∈ working_set rt → ∃ d, d ∈ D ∧ name d = k)
       ∧ (∀ d, d ∈ D →
            fill_missing_version rt (mkPackageDependency (name d) None) = d).
Proof.
  eexists. split; [reflexivity|].
  assert (∀ d, d ∈ fold_left
                     (λ dependencies '(key, version),
                        dep_add rt (mkPackageDependency key (Some version))
                                dependencies) (working_set rt) []
               ↔ ∃ v, by_key_get rt (name d) = Some v ∧ version d = Some v)
    as Hchar.
  { intros d. rewrite fold_dep_add_elem. unfold by_key_get. split.
    - intros [?%elem_of_nil | (_ & dist & -> & ->)]; [done|]. by exists dist.2.
    - intros (v & Hget & Hv). right. split; [by intros ?%elem_of_nil|].
      destruct (List.find _ (working_set rt)) as [dist|] eqn:Hf; [|done].
      exists dist. split; [done|].
      apply find_some in Hf as [_ Hk%String.eqb_eq].
      destruct d as [n ver]. cbn [name version] in *. by simplify_eq. }
  split_and!.
  - exact Hchar.
  - intros k v Hin. destruct (by_key_get rt k) as [w|] eqn:Hget.
    + exists (mkPackageDependency k (Some w)). split; [|done].
      apply Hchar. by exists w.
    + exfalso. by eapply by_key_get_None.
  - intros d (v & Hget & Hv)%Hchar. unfold fill_missing_version.
    cbn [name version]. rewrite Hget. destruct d as [n ver].
    cbn [name version] in *. by subst.
Qed.

(** X15: every dependency that [get_dependencies_from_modules] records
    belongs to a module the iterator yielded, under the module's
    [__name__]; its version is what the heuristic found in that module, so
    a recorded version always matches [PEP440_VERSION_PATTERN], that is,
    its text has the form [[N!]release[(a|b|c|rc)N][.postN][.devN]] with
    the digits that [\d] matches, those of other scripts included; and a
    dependency recorded without version has a name without dot. *)
Theorem dependency_versions_valid (rt : Runtime) (it : Iter) (base : string)
    (D : list PackageDependency) :
  get_dependencies_from_modules rt it base = Ok D →
  ∀ d, d ∈ D →
    (∃ n m, (n, m) ∈ items it ∧ mod_name m = Some (name d)
            ∧ version d = get_version_heuristic rt m)
    ∧ (∀ v, version d = Some v →
          version_matches rt v = true
          ∧ pep440_version rt (Utf8.decode v))
    ∧ (version d = None → Str.contains "." (name d) = false).
Proof.
  intros Hrun d Hd.
  destruct (dependencies_origin rt base it D Hrun d Hd)
    as (n & m & Hin & _ & Hc & Hk).
  unfold PackageDependency_create in Hc.
  destruct (mod_name m) as [modname|] eqn:Hname; [|done].
  injection Hc as <-. cbn [name version] in *. split_and!.
  - by exists n, m.
  - intros v Hv. unfold get_version_heuristic in Hv.
    apply get_version_loop_some in Hv
      as (pre & a & post & _ & (val & _ & _ & Hm) & _).
    split; [done|]. by apply pep440_pattern_grammar.
  - intros Hv. by destruct Hk as [Hk | Hk].
Qed.

Lemma dependency_versions_valid_witness :
  get_dependencies_from_modules (bare_runtime "/")
    (mkIter [("widgets", widgets_module); ("eastern", eastern_module)] None)
    "/exp"
  = Ok [mkPackageDependency "widgets" (Some "2.0");
        mkPackageDependency "eastern" (Some eastern_version)]
  ∧ version_matches (bare_runtime "/") eastern_version = true.
Proof.
  assert (get_dependencies_from_modules (bare_runtime "/")
            (mkIter [("widgets", widgets_module); ("eastern", eastern_module)]
                    None) "/exp"
          = Ok [mkPackageDependency "widgets" (Some "2.0");
                mkPackageDependency "eastern" (Some eastern_version)]) as Hrun
    by (by vm_compute).
  split; [exact Hrun|].
  refine (proj1 (proj1 (proj2
            (dependency_versions_valid _ _ _ _ Hrun
               (mkPackageDependency "eastern" (Some eastern_version)) _))
            eastern_version _)).
  - apply list_elem_of_further, list_elem_of_here.
  - reflexivity.
Defined.
